(** * Softlight automation framework: DOM indexing, serialization and the agent step loop

    A shallow embedding of the Python sources
    [tools/views.py], [dom/views.py], [dom/extractor.py],
    [dom/serializer.py], [browser/views.py], [browser/session.py],
    [llm/schema.py], [agent/views.py], [agent/executor.py] and
    [tutorial/agent.py], followed by the properties established about them.

    Conventions of the embedding:
    - Python [int] is [Z]; JSON numbers and Python [float] values are
      rationals [Q] (every [int] and every finite [float] is a rational;
      the rounding of floating-point arithmetic is not modelled);
    - [str] is [string], a sequence of characters, and [len] is
      [String.length];
    - [Optional[T]] is [option T]; a [dict] that is only looked up is a
      [gmap]; a [dict] whose iteration order is observed is an association
      list in insertion order;
    - a call that may raise returns [Exn + T], [inl e] being the raised
      exception; an object that is written after it has been shared lives
      in an explicit store;
    - what the interpreter provides ([float], [json], string formatting) is
      the class [Py.Runtime]; the browser session, the language model and
      the action registry are the class [Environment]. *)

From Stdlib Require Import ZArith QArith Qround String Ascii List Bool Lia Sorted.
From stdpp Require Import base option list gmap strings pretty.

Open Scope string_scope.
Open Scope Z_scope.

(* ===================================================================== *)
(** ** Python built-ins used by the sources                               *)
(* ===================================================================== *)

Module Py.

(** [str.lower] on the ASCII range. *)
Definition lower_ascii (c : ascii) : ascii :=
  let n := nat_of_ascii c in
  if (65 <=? n)%nat && (n <=? 90)%nat then ascii_of_nat (n + 32) else c.

Fixpoint lower (s : string) : string :=
  match s with
  | EmptyString => EmptyString
  | String c s' => String (lower_ascii c) (lower s')
  end.

(** Truthiness of a [str] and of an [Optional[str]]. *)
Definition str_truthy (s : string) : bool :=
  match s with EmptyString => false | _ => true end.

Definition opt_str_truthy (o : option string) : bool :=
  match o with Some s => str_truthy s | None => false end.

(** [s[:n]] for a non-negative or negative [n]. *)
Definition slice_to (s : string) (n : Z) : string :=
  if 0 <=? n then substring 0 (Z.to_nat n) s
  else substring 0 (String.length s - Z.to_nat (- n)) s.

(** [sub in s]. *)
Fixpoint contains (sub s : string) : bool :=
  String.prefix sub s ||
  match s with
  | EmptyString => false
  | String _ s' => contains sub s'
  end.

(** [sep.join(parts)]. *)
Fixpoint join (sep : string) (parts : list string) : string :=
  match parts with
  | [] => ""
  | [p] => p
  | p :: rest => p +:+ sep +:+ join sep rest
  end.

(** [s.strip()]: leading and trailing whitespace removed; on the ASCII
    range the whitespace characters are 9 to 13, 28 to 31 and 32. *)
Definition is_space (c : ascii) : bool :=
  let n := nat_of_ascii c in
  (n =? 32)%nat || ((9 <=? n)%nat && (n <=? 13)%nat)
  || ((28 <=? n)%nat && (n <=? 31)%nat).

Fixpoint lstrip_chars (l : list ascii) : list ascii :=
  match l with
  | c :: l' => if is_space c then lstrip_chars l' else l
  | [] => []
  end.

Definition strip (s : string) : string :=
  string_of_list_ascii
    (rev (lstrip_chars (rev (lstrip_chars (list_ascii_of_string s))))).

(** [c * n] for a one-character string [c] and an [int] [n]. *)
Definition repeat_str (c : string) (n : Z) : string :=
  Nat.iter (Z.to_nat n) (fun acc => c +:+ acc) "".

(** [xs[:n]] on a list. *)
Definition list_slice_to {A} (xs : list A) (n : Z) : list A :=
  if 0 <=? n then take (Z.to_nat n) xs
  else take (length xs - Z.to_nat (- n)) xs.

(** A value decoded from JSON; an object keeps the order of its keys. *)
#[warnings="-register-all"]
Inductive JSON :=
| JNull
| JBool (b : bool)
| JNum (q : Q)
| JStr (s : string)
| JList (items : list JSON)
| JDict (entries : list (string * JSON)).

(** Truthiness of a decoded value. *)
Definition truthy (j : JSON) : bool :=
  match j with
  | JNull => false
  | JBool b => b
  | JNum q => negb (Qeq_bool q 0)
  | JStr s => str_truthy s
  | JList items => match items with [] => false | _ => true end
  | JDict entries => match entries with [] => false | _ => true end
  end.

(** [d.get(key)] on the entries of an object. *)
Fixpoint dict_get (key : string) (entries : list (string * JSON)) : option JSON :=
  match entries with
  | [] => None
  | (k, v) :: rest => if String.eqb k key then Some v else dict_get key rest
  end.

(** The characters of a [str], each as a one-character [str]. *)
Fixpoint chars (s : string) : list string :=
  match s with
  | EmptyString => []
  | String c s' => String c EmptyString :: chars s'
  end.

(** What [for x in j] yields; [None] when [j] is not iterable. *)
Definition iterate (j : JSON) : option (list JSON) :=
  match j with
  | JList items => Some items
  | JDict entries => Some (JStr <$> entries.*1)
  | JStr s => Some (JStr <$> chars s)
  | _ => None
  end.

(** What the sources use of the interpreter and its standard library
    and is not repository code. *)
Class Runtime := {
  (** [json.loads(s)]; [None] when it raises [JSONDecodeError] *)
  json_loads : string -> option JSON;
  (** [json.dumps(j, sort_keys=True)] *)
  json_dumps_sorted : JSON -> string;
  (** the values of Python's [float] *)
  pyfloat : Type;
  (** [float(s)]; [None] when it raises [ValueError] *)
  float_of_str : string -> option pyfloat;
  (** [f <= 0] *)
  float_le_zero : pyfloat -> bool;
  (** [f"{q:.1f}"] *)
  format_1f : Q -> string;
}.

End Py.

(** Exceptions that cross function boundaries in the modelled code. *)
Inductive Exn :=
| ValueError (msg : string)
| AttributeError (msg : string)
| LLMResponseError (msg : string)
| MaxFailuresReachedError (max_failures : Z)
| OtherError (msg : string).

(** [BrowserAutomationError.recoverable] ([core/exceptions.py]); plain
  Python exceptions carry no such attribute. *)
Definition recoverable (e : Exn) : option bool :=
match e with
| LLMResponseError _ => Some true
| MaxFailuresReachedError _ => Some false
| _ => None
end.

(** [str(e)]. *)
Definition str_of_exn (e : Exn) : string :=
match e with
| ValueError m | AttributeError m | LLMResponseError m | OtherError m => m
| MaxFailuresReachedError n =>
    "Agent reached maximum consecutive failures: " +:+ pretty n
end.

(* ===================================================================== *)
(** ** tools/views.py                                                     *)
(* ===================================================================== *)

Module ActionResult.

(** The fields of [ActionResult]; [metadata] (a free-form dict) is not
    read by any modelled code and is left out. *)
Record t := mk {
  is_done : bool;
  success : option bool;
  extracted_content : option string;
  long_term_memory : option string;
  error : option string;
  attachments : option (list string);
  include_screenshot : bool;
}.

(** [ActionResult()] before validation: every field at its default. *)
Definition default : t :=
  {| is_done := false; success := None; extracted_content := None;
     long_term_memory := None; error := None; attachments := None;
     include_screenshot := false |}.

(** [validate_success_requires_done], the [model_validator(mode='after')]. *)
Definition validate_success_requires_done (self : t) : Exn + t :=
  match success self with
  | Some true =>
      if negb (is_done self)
      then inl (ValueError
        "success=True can only be set when is_done=True. For regular actions that succeed, leave success as None.")
      else inr self
  | _ => inr self
  end.

(** The constructor [ActionResult(...)]: field assignment, then the validator. *)
Definition new (fields : t) : Exn + t := validate_success_requires_done fields.

(** [has_error]. *)
Definition has_error (self : t) : bool :=
  match error self with Some _ => true | None => false end.

End ActionResult.

(* ===================================================================== *)
(** ** dom/views.py                                                       *)
(* ===================================================================== *)

Module NodeType.

Inductive t :=
| ELEMENT_NODE | TEXT_NODE | CDATA_SECTION_NODE | PROCESSING_INSTRUCTION_NODE
| COMMENT_NODE | DOCUMENT_NODE | DOCUMENT_TYPE_NODE | DOCUMENT_FRAGMENT_NODE.

#[global] Instance eq_dec : EqDecision t.
Proof. solve_decision. Defined.

(** [NodeType(v)]; [None] when the enum raises [ValueError]. *)
Definition of_value (v : Z) : option t :=
  match v with
  | 1 => Some ELEMENT_NODE
  | 3 => Some TEXT_NODE
  | 4 => Some CDATA_SECTION_NODE
  | 7 => Some PROCESSING_INSTRUCTION_NODE
  | 8 => Some COMMENT_NODE
  | 9 => Some DOCUMENT_NODE
  | 10 => Some DOCUMENT_TYPE_NODE
  | 11 => Some DOCUMENT_FRAGMENT_NODE
  | _ => None
  end.

End NodeType.

Module DOMRect.

Record t := mk { x : Q; y : Q; width : Q; height : Q }.

End DOMRect.

Module ComputedStyles.

Record t := mk {
  display : string;
  visibility : string;
  opacity : string;
  position : string;
  overflow : string;
  pointer_events : string;
}.

Definition default : t :=
  {| display := "block"; visibility := "visible"; opacity := "1";
     position := "static"; overflow := "visible"; pointer_events := "auto" |}.

(** The property [is_visible]: the [try] around [float(self.opacity)]
    swallows [ValueError], so an opacity that does not parse decides
    nothing. *)
Definition is_visible `{Py.Runtime} (self : t) : bool :=
  if String.eqb (display self) "none" then false
  else if String.eqb (visibility self) "hidden" then false
  else match Py.float_of_str (opacity self) with
       | Some f => if Py.float_le_zero f then false else true
       | None => true
       end.

End ComputedStyles.

Module AccessibilityInfo.

(** [properties] is carried along but never read by the modelled code. *)
Record t := mk {
  role : option string;
  name : option string;
  description : option string;
}.

End AccessibilityInfo.

(** The dictionary built by [DOMNode.to_selector_info]. *)
Record SelectorInfo := mkSelectorInfo {
  sel_backend_node_id : Z;
  sel_tag_name : string;
  sel_attributes : gmap string string;
  sel_bounds : option DOMRect.t;
}.

Module DOMNode.

Record t := mk {
  node_id : Z;
  backend_node_id : Z;
  node_type : NodeType.t;
  tag_name : string;
  node_value : option string;
  text_content : string;
  attributes : gmap string string;
  bounds : option DOMRect.t;
  computed_styles : option ComputedStyles.t;
  accessibility : option AccessibilityInfo.t;
  is_visible : bool;
  is_clickable : bool;
  is_editable : bool;
  is_scrollable : bool;
  parent_id : option Z;
  children_ids : list Z;
  depth : Z;
  frame_id : option string;
  content_document_id : option Z;
  shadow_root_type : option string;
  shadow_root_id : option Z;
  index : option Z;
}.

Definition is_element (self : t) : bool :=
  bool_decide (node_type self = NodeType.ELEMENT_NODE).

Definition is_text (self : t) : bool :=
  bool_decide (node_type self = NodeType.TEXT_NODE).

Definition interactive_tags : list string :=
  ["a"; "button"; "input"; "select"; "textarea";
   "label"; "details"; "summary"; "dialog"].

Definition interactive_attr_roles : list string :=
  ["button"; "link"; "menuitem"; "option"; "tab";
   "checkbox"; "radio"; "textbox"; "combobox"].

(** The property [is_interactive]. [self.attributes.get(k)] is tested for
    truthiness: a present but empty attribute does not count. *)
Definition is_interactive (self : t) : bool :=
  if negb (is_element self) then false
  else if bool_decide (Py.lower (tag_name self) ∈ interactive_tags) then true
  else if Py.opt_str_truthy (attributes self !! "onclick") then true
  else if Py.opt_str_truthy (attributes self !! "tabindex") then true
  else if bool_decide (attributes self !! "contenteditable" = Some "true") then true
  else match attributes self !! "role" with
       | Some r => bool_decide (r ∈ interactive_attr_roles)
       | None => false
       end.

(** [get_text(max_length=100)]. *)
Definition get_text (self : t) : string :=
  let text := Py.strip (text_content self) in
  if (100 <? String.length text)%nat then substring 0 97 text +:+ "..." else text.

(** [to_selector_info]. *)
Definition to_selector_info (self : t) : SelectorInfo :=
  {| sel_backend_node_id := backend_node_id self;
     sel_tag_name := tag_name self;
     sel_attributes := attributes self;
     sel_bounds := bounds self |}.

(** Assignments to the attributes that [_process_node] writes after the
    object has been stored in [_nodes]. *)
Definition with_links (self : t) (children_ids' : list Z)
    (content_document_id' : option Z) (shadow_root_type' : option string)
    (shadow_root_id' : option Z) (text_content' : string) : t :=
  {| node_id := node_id self; backend_node_id := backend_node_id self;
     node_type := node_type self; tag_name := tag_name self;
     node_value := node_value self; text_content := text_content';
     attributes := attributes self; bounds := bounds self;
     computed_styles := computed_styles self;
     accessibility := accessibility self; is_visible := is_visible self;
     is_clickable := is_clickable self; is_editable := is_editable self;
     is_scrollable := is_scrollable self; parent_id := parent_id self;
     children_ids := children_ids'; depth := depth self;
     frame_id := frame_id self; content_document_id := content_document_id';
     shadow_root_type := shadow_root_type'; shadow_root_id := shadow_root_id';
     index := index self |}.

Definition set_children_ids (v : list Z) (self : t) : t :=
  with_links self v (content_document_id self) (shadow_root_type self)
    (shadow_root_id self) (text_content self).

Definition set_content_document_id (v : Z) (self : t) : t :=
  with_links self (children_ids self) (Some v) (shadow_root_type self)
    (shadow_root_id self) (text_content self).

Definition set_shadow_root (id : Z) (ty : option string) (self : t) : t :=
  with_links self (children_ids self) (content_document_id self) ty
    (Some id) (text_content self).

Definition set_text_content (v : string) (self : t) : t :=
  with_links self (children_ids self) (content_document_id self)
    (shadow_root_type self) (shadow_root_id self) v.

End DOMNode.

(* ===================================================================== *)
(** ** dom/extractor.py                                                   *)
(* ===================================================================== *)

(** A Python [dict] keyed by [int] whose iteration order (the order of
    first insertion) is observed. *)
Module Dict.

Definition t (V : Type) : Type := list (Z * V).

Fixpoint set {V} (k : Z) (v : V) (d : t V) : t V :=
  match d with
  | [] => [(k, v)]
  | (k', v') :: d' =>
      if decide (k' = k) then (k, v) :: d' else (k', v') :: set k v d'
  end.

Fixpoint get {V} (k : Z) (d : t V) : option V :=
  match d with
  | [] => None
  | (k', v') :: d' => if decide (k' = k) then Some v' else get k d'
  end.

Definition values {V} (d : t V) : list V := d.*2.

End Dict.

(** A node of the tree returned by [DOM.getDocument]: the keys that
    [_process_node] reads. A field is [None] when the key is absent. *)
#[warnings="-register-all"]
Inductive RawNode := mkRawNode {
  nodeId : option Z;
  backendNodeId : option Z;
  nodeType : option Z;
  nodeName : option string;
  nodeValue : option string;
  raw_attributes : list string;
  isScrollable : bool;
  frameId : option string;
  shadowRootType : option string;
  children : list RawNode;
  contentDocument : option RawNode;
  shadowRoots : list RawNode;
}.

(** Structural induction over raw trees, with the hypothesis available for
    every child, for the nested document and for every shadow root. *)
Section RawNodeInduction.
Context (P : RawNode -> Prop).
Context (step : forall n,
  Forall P (children n) ->
  (forall d, contentDocument n = Some d -> P d) ->
  Forall P (shadowRoots n) -> P n).

Fixpoint RawNode_nested_ind (n : RawNode) : P n :=
  let all := fix all (l : list RawNode) : Forall P l :=
    match l with
    | [] => @List.Forall_nil _ P
    | c :: l' => @List.Forall_cons _ P c l' (RawNode_nested_ind c) (all l')
    end in
  match n as n0 return P n0 with
  | mkRawNode i b ty nm v at_ sc fr srt cs cd srs =>
      step (mkRawNode i b ty nm v at_ sc fr srt cs cd srs)
        (all cs)
        (match cd as o return forall d, o = Some d -> P d with
         | Some d0 => fun d e =>
             match e in _ = s return match s with Some d' => P d' | None => True end with
             | eq_refl => RawNode_nested_ind d0
             end
         | None => fun d e =>
             match e in _ = s return match s with Some d' => P d' | None => True end with
             | eq_refl => I
             end
         end)
        (all srs)
  end.

End RawNodeInduction.

(** An entry of the table built by [_build_snapshot_lookup]. *)
Record SnapshotEntry := mkSnapshotEntry {
  entry_bounds : option DOMRect.t;
  entry_styles : option ComputedStyles.t;
}.

(** An entry of the table built by [_build_ax_lookup]. *)
Record AxEntry := mkAxEntry {
  ax_role : option string;
  ax_name : option string;
  ax_description : option string;
}.

Module DOMExtractor.

(** The extractor object. [objects] is the store of the [DOMNode] objects
    created so far, in creation order; [_nodes] maps a node id to the
    address of the object stored under it, so that an object that is
    written after it was stored is seen through the dictionary as well. *)
Record t := mk {
  viewport_width : Z;
  viewport_height : Z;
  objects : list DOMNode.t;
  _nodes : Dict.t nat;
  _selector_map : gmap Z SelectorInfo;
  _interactive_index : Z;
}.

(** [__init__]. *)
Definition init (viewport_width viewport_height : Z) : t :=
  {| viewport_width := viewport_width; viewport_height := viewport_height;
     objects := []; _nodes := []; _selector_map := ∅;
     _interactive_index := 1 |}.

Definition with_objects (objs : list DOMNode.t) (self : t) : t :=
  {| viewport_width := viewport_width self;
     viewport_height := viewport_height self;
     objects := objs; _nodes := _nodes self;
     _selector_map := _selector_map self;
     _interactive_index := _interactive_index self |}.

(** An assignment to attributes of the object at address [a]. *)
Definition write (a : nat) (f : DOMNode.t -> DOMNode.t) (self : t) : t :=
  with_objects (alter f a (objects self)) self.

(** [self._nodes.get(node_id)]. *)
Definition nodes_get (self : t) (node_id : Z) : option DOMNode.t :=
  a ← Dict.get node_id (_nodes self); objects self !! a.

(** The attribute map built from the alternating name/value list. *)
Fixpoint attributes_of (attrs_list : list string) (acc : gmap string string)
  : gmap string string :=
  match attrs_list with
  | k :: v :: rest => attributes_of rest (<[k := v]> acc)
  | _ => acc
  end.

(** "Determine visibility" in [_process_node]. *)
Definition determine_visibility `{Py.Runtime}
    (styles : option ComputedStyles.t) (bounds : option DOMRect.t) : bool :=
  let is_visible := true in
  let is_visible :=
    match styles with
    | Some s => if negb (ComputedStyles.is_visible s) then false else is_visible
    | None => is_visible
    end in
  let is_visible :=
    match bounds with
    | Some b =>
        if Qle_bool (DOMRect.width b) 0 || Qle_bool (DOMRect.height b) 0
        then false else is_visible
    | None => is_visible
    end in
  is_visible.

(** The [DOMNode] object of a raw node as it is when [_process_node]
    stores it in [_nodes], and the extractor after the index assignment. *)
Definition create_node `{Py.Runtime}
    (snapshot_lookup : gmap Z SnapshotEntry) (ax_lookup : gmap Z AxEntry)
    (node : RawNode) (node_id backend_node_id : Z)
    (parent_id : option Z) (depth : Z) (self : t) : DOMNode.t * t :=
  let node_type :=
    match NodeType.of_value (default 1 (nodeType node)) with
    | Some ty => ty
    | None => NodeType.ELEMENT_NODE
    end in
  let attributes := attributes_of (raw_attributes node) ∅ in
  let bounds := snapshot_lookup !! backend_node_id ≫= entry_bounds in
  let styles := snapshot_lookup !! backend_node_id ≫= entry_styles in
  let accessibility :=
    (fun e => AccessibilityInfo.mk (ax_role e) (ax_name e) (ax_description e))
      <$> ax_lookup !! backend_node_id in
  let is_visible := determine_visibility styles bounds in
  let tag_name := Py.lower (default "" (nodeName node)) in
  let text_content :=
    if bool_decide (node_type = NodeType.TEXT_NODE)
    then default "" (nodeValue node) else "" in
  let dom_node := fun index is_clickable is_editable is_scrollable =>
    {| DOMNode.node_id := node_id;
       DOMNode.backend_node_id := backend_node_id;
       DOMNode.node_type := node_type;
       DOMNode.tag_name := tag_name;
       DOMNode.node_value := nodeValue node;
       DOMNode.text_content := text_content;
       DOMNode.attributes := attributes;
       DOMNode.bounds := bounds;
       DOMNode.computed_styles := styles;
       DOMNode.accessibility := accessibility;
       DOMNode.is_visible := is_visible;
       DOMNode.is_clickable := is_clickable;
       DOMNode.is_editable := is_editable;
       DOMNode.is_scrollable := is_scrollable;
       DOMNode.parent_id := parent_id;
       DOMNode.children_ids := [];
       DOMNode.depth := depth;
       DOMNode.frame_id := frameId node;
       DOMNode.content_document_id := None;
       DOMNode.shadow_root_type := None;
       DOMNode.shadow_root_id := None;
       DOMNode.index := index |} in
  let tag := Py.lower tag_name in
  let is_editable :=
    bool_decide (tag ∈ ["input"; "textarea"]) ||
    bool_decide (attributes !! "contenteditable" = Some "true") in
  let fresh := dom_node None false false false in
  if DOMNode.is_element fresh && DOMNode.is_interactive fresh && is_visible
  then
    let i := _interactive_index self in
    let indexed := dom_node (Some i) true is_editable (isScrollable node) in
    (indexed,
     {| viewport_width := viewport_width self;
        viewport_height := viewport_height self;
        objects := objects self; _nodes := _nodes self;
        _selector_map :=
          <[i := DOMNode.to_selector_info (dom_node (Some i) false false false)]>
            (_selector_map self);
        _interactive_index := i + 1 |})
  else (dom_node None false is_editable (isScrollable node), self).

(** [self._nodes[node_id] = dom_node]: the object gets the next address. *)
Definition store (node_id : Z) (dom_node : DOMNode.t) (self : t) : nat * t :=
  let a := length (objects self) in
  (a,
   {| viewport_width := viewport_width self;
      viewport_height := viewport_height self;
      objects := (objects self ++ [dom_node])%list;
      _nodes := Dict.set node_id a (_nodes self);
      _selector_map := _selector_map self;
      _interactive_index := _interactive_index self |}).

(** "Aggregate text content from children". *)
Definition aggregate_text (self : t) (children_ids : list Z) : string :=
  let text_parts :=
    omap (fun child_id =>
            match nodes_get self child_id with
            | Some child =>
                if DOMNode.is_text child then Some (DOMNode.text_content child)
                else if Py.str_truthy (DOMNode.text_content child)
                     then Some (DOMNode.text_content child)
                     else None
            | None => None
            end) children_ids in
  Py.strip (Py.join " " text_parts).

Section Loops.
Context (process : RawNode -> t -> t * option Z).

(** The loop over [node.get("children", [])]; returns [children_ids]. *)
Fixpoint process_children (cs : list RawNode) (self : t) : t * list Z :=
  match cs with
  | [] => (self, [])
  | child :: cs' =>
      let '(self1, child_node) := process child self in
      let '(self2, ids) := process_children cs' self1 in
      (self2, match child_node with Some i => i :: ids | None => ids end)
  end.

(** The loop over [node.get("shadowRoots", [])] for the object at [a]. *)
Fixpoint process_shadow_roots (a : nat) (srs : list RawNode) (self : t) : t :=
  match srs with
  | [] => self
  | shadow_root :: srs' =>
      let '(self1, shadow_node) := process shadow_root self in
      let self2 :=
        match shadow_node with
        | Some i =>
            write a (DOMNode.set_shadow_root i (shadowRootType shadow_root)) self1
        | None => self1
        end in
      process_shadow_roots a srs' self2
  end.

(** "Process content document (for iframes)" for the object at [a]. *)
Definition process_content_document (a : nat) (content_doc : option RawNode)
    (self : t) : t :=
  match content_doc with
  | Some d =>
      let '(self1, doc_node) := process d self in
      match doc_node with
      | Some i => write a (DOMNode.set_content_document_id i) self1
      | None => self1
      end
  | None => self
  end.

End Loops.

(** [_process_node]; the result is the extractor afterwards and the
    [node_id] of the returned [DOMNode] ([None] for a [None] return). *)
Fixpoint _process_node `{Py.Runtime}
    (snapshot_lookup : gmap Z SnapshotEntry) (ax_lookup : gmap Z AxEntry)
    (node : RawNode) (parent_id : option Z) (depth : Z) (self : t)
    {struct node} : t * option Z :=
  match nodeId node, backendNodeId node with
  | Some node_id, Some backend_node_id =>
      let '(dom_node, self) :=
        create_node snapshot_lookup ax_lookup node node_id backend_node_id
          parent_id depth self in
      let '(a, self) := store node_id dom_node self in
      let '(self, children_ids) :=
        process_children
          (fun child s =>
             _process_node snapshot_lookup ax_lookup child (Some node_id)
               (depth + 1) s)
          (children node) self in
      let self := write a (DOMNode.set_children_ids children_ids) self in
      let self :=
        process_content_document
          (fun content_doc s =>
             _process_node snapshot_lookup ax_lookup content_doc (Some node_id)
               (depth + 1) s)
          a (contentDocument node) self in
      let self :=
        process_shadow_roots
          (fun shadow_root s =>
             _process_node snapshot_lookup ax_lookup shadow_root (Some node_id)
               (depth + 1) s)
          a (shadowRoots node) self in
      let self :=
        if DOMNode.is_element dom_node
        then write a (DOMNode.set_text_content (aggregate_text self children_ids)) self
        else self in
      (self, Some node_id)
  | _, _ => (self, None)
  end.

(** [_build_dom_tree], given the two lookup tables it builds first. *)
Definition _build_dom_tree `{Py.Runtime}
    (root : option RawNode) (snapshot_lookup : gmap Z SnapshotEntry)
    (ax_lookup : gmap Z AxEntry) (self : t) : t :=
  match root with
  | Some r => fst (_process_node snapshot_lookup ax_lookup r None 0 self)
  | None => self
  end.

(** The nodes of a raw tree in the order of the depth-first walk:
    a node, its children in document order, its nested document, its
    shadow roots; a node without [nodeId] or [backendNodeId] is skipped
    with everything below it. *)
Fixpoint visit_order (node : RawNode) : list RawNode :=
  match nodeId node, backendNodeId node with
  | Some _, Some _ =>
      node :: (flat_map visit_order (children node)
               ++ match contentDocument node with
                  | Some d => visit_order d
                  | None => []
                  end
               ++ flat_map visit_order (shadowRoots node))%list
  | _, _ => []
  end.

End DOMExtractor.

(* ===================================================================== *)
(** ** dom/views.py: DOMState and SerializedDOM                           *)
(* ===================================================================== *)

(** The dictionary that [DOMExtractor._node_to_dict] builds for a node;
    these are the values of [DOMState.nodes] and
    [DOMState.interactive_elements]. It has no key ["is_new"]. *)
Module NodeData.

Record t := mk {
  node_id : Z;
  backend_node_id : Z;
  tag_name : string;
  text : string;
  attributes : gmap string string;
  bounds : option DOMRect.t;
  is_visible : bool;
  is_clickable : bool;
  is_editable : bool;
  index : option Z;
  depth : Z;
  (** [{"role": ..., "name": ...}], or [None] *)
  accessibility : option (option string * option string);
}.

End NodeData.

Module DOMState.

Record t := mk {
  root_node_id : Z;
  nodes : Dict.t NodeData.t;
  interactive_elements : Dict.t NodeData.t;
  selector_map : gmap Z SelectorInfo;
  url : string;
  title : string;
  viewport_width : Z;
  viewport_height : Z;
  scroll_x : Q;
  scroll_y : Q;
}.

(** [get_node]. *)
Definition get_node (self : t) (node_id : Z) : option NodeData.t :=
  Dict.get node_id (nodes self).

(** [get_interactive_element]. *)
Definition get_interactive_element (self : t) (index : Z) : option NodeData.t :=
  Dict.get index (interactive_elements self).

(** [get_selector]. *)
Definition get_selector (self : t) (index : Z) : option SelectorInfo :=
  selector_map self !! index.

End DOMState.

(** The dataclass [SerializedDOM]: these are all of its fields. *)
Module SerializedDOM.

Record t := mk {
  llm_representation : string;
  total_elements : Z;
  interactive_elements : Z;
  visible_elements : Z;
  links_count : Z;
  iframes_count : Z;
  scroll_containers : Z;
  has_content_above : bool;
  has_content_below : bool;
  pages_above : Q;
  pages_below : Q;
  selector_map : gmap Z SelectorInfo;
}.

(** [get_statistics_string]. *)
Definition get_statistics_string (self : t) : string :=
  let parts :=
    [pretty (links_count self) +:+ " links";
     pretty (interactive_elements self) +:+ " interactive"] in
  let parts :=
    if 0 <? iframes_count self
    then (parts ++ [pretty (iframes_count self) +:+ " iframes"])%list
    else parts in
  let parts :=
    if 0 <? scroll_containers self
    then (parts ++ [pretty (scroll_containers self) +:+ " scroll containers"])%list
    else parts in
  let parts := (parts ++ [pretty (total_elements self) +:+ " total"])%list in
  Py.join ", " parts.

(** [get_page_position_string]. *)
Definition get_page_position_string `{Py.Runtime} (self : t) : string :=
  Py.format_1f (pages_above self) +:+ " pages above, " +:+
  Py.format_1f (pages_below self) +:+ " pages below".

End SerializedDOM.

(** [DOMExtractor._node_to_dict] and [DOMExtractor.extract]. *)
Module Extract.

Definition _node_to_dict (node : DOMNode.t) : NodeData.t :=
  {| NodeData.node_id := DOMNode.node_id node;
     NodeData.backend_node_id := DOMNode.backend_node_id node;
     NodeData.tag_name := DOMNode.tag_name node;
     NodeData.text := DOMNode.get_text node;
     NodeData.attributes := DOMNode.attributes node;
     NodeData.bounds := DOMNode.bounds node;
     NodeData.is_visible := DOMNode.is_visible node;
     NodeData.is_clickable := DOMNode.is_clickable node;
     NodeData.is_editable := DOMNode.is_editable node;
     NodeData.index := DOMNode.index node;
     NodeData.depth := DOMNode.depth node;
     NodeData.accessibility :=
       (fun a => (AccessibilityInfo.role a, AccessibilityInfo.name a))
         <$> DOMNode.accessibility node |}.

(** [self._nodes.values()]: the stored objects, in dictionary order. *)
Definition nodes_values (self : DOMExtractor.t) : list DOMNode.t :=
  omap (fun a => DOMExtractor.objects self !! a)
    (Dict.values (DOMExtractor._nodes self)).

(** [extract], given the raw tree and the two lookup tables. *)
Definition extract `{Py.Runtime} (root : option RawNode)
    (snapshot_lookup : gmap Z SnapshotEntry) (ax_lookup : gmap Z AxEntry)
    (self : DOMExtractor.t) : DOMState.t * DOMExtractor.t :=
  let self := DOMExtractor._build_dom_tree root snapshot_lookup ax_lookup self in
  let state :=
    {| DOMState.root_node_id :=
         default 0 (root ≫= nodeId);
       DOMState.nodes :=
         foldl (fun d n => Dict.set (DOMNode.node_id n) (_node_to_dict n) d) []
           (nodes_values self);
       DOMState.interactive_elements :=
         foldl (fun d n =>
                  match DOMNode.index n with
                  | Some i => Dict.set i (_node_to_dict n) d
                  | None => d
                  end) [] (nodes_values self);
       DOMState.selector_map := DOMExtractor._selector_map self;
       DOMState.url := "";
       DOMState.title := "";
       DOMState.viewport_width := DOMExtractor.viewport_width self;
       DOMState.viewport_height := DOMExtractor.viewport_height self;
       DOMState.scroll_x := 0%Q;
       DOMState.scroll_y := 0%Q |} in
  (state, self).

(** [get_node_by_index]. *)
Definition get_node_by_index (self : DOMExtractor.t) (index : Z)
  : option DOMNode.t :=
  head (filter (fun node => DOMNode.index node = Some index) (nodes_values self)).

(** [get_visible_elements]. *)
Definition get_visible_elements (self : DOMExtractor.t) : list DOMNode.t :=
  filter (fun node => DOMNode.is_visible node = true /\ DOMNode.index node <> None)
    (nodes_values self).

End Extract.

(* ===================================================================== *)
(** ** dom/serializer.py                                                  *)
(* ===================================================================== *)

Module DOMSerializer.

Record Stats := mkStats {
  st_total_elements : Z;
  st_interactive_elements : Z;
  st_visible_elements : Z;
  st_links_count : Z;
  st_iframes_count : Z;
  st_scroll_containers : Z;
}.

Record t := mk {
  dom_state : DOMState.t;
  max_length : Z;
  include_attributes : list string;
  stats : Stats;
}.

(** [__init__]; [include_attributes or [...]] takes the default list for
    [None] and for an empty list. *)
Definition init (dom_state : DOMState.t) (max_length : Z)
    (include_attributes : option (list string)) : t :=
  {| dom_state := dom_state;
     max_length := max_length;
     include_attributes :=
       match include_attributes with
       | Some (a :: l) => a :: l
       | _ => ["aria-label"; "placeholder"; "type"; "role";
               "href"; "src"; "alt"; "title"; "name"; "value"]
       end;
     stats := mkStats 0 0 0 0 0 0 |}.

Definition default_max_length : Z := 40000.

(** Python's [max(a, b)]: [b] when [b > a], else [a]. *)
Definition py_max (a b : Q) : Q := if Qle_bool b a then a else b.

(** [a > b]. *)
Definition Qgt_bool (a b : Q) : bool := negb (Qle_bool a b).

(** [_calculate_stats]. *)
Definition _calculate_stats (self : t) : t :=
  let stats' :=
    foldl (fun s node_data =>
      let tag := Py.lower (NodeData.tag_name node_data) in
      let s := mkStats (st_total_elements s + 1) (st_interactive_elements s)
                 (st_visible_elements s) (st_links_count s)
                 (st_iframes_count s) (st_scroll_containers s) in
      let s := if NodeData.is_visible node_data
               then mkStats (st_total_elements s) (st_interactive_elements s)
                      (st_visible_elements s + 1) (st_links_count s)
                      (st_iframes_count s) (st_scroll_containers s)
               else s in
      let s := match NodeData.index node_data with
               | Some _ =>
                   mkStats (st_total_elements s) (st_interactive_elements s + 1)
                     (st_visible_elements s) (st_links_count s)
                     (st_iframes_count s) (st_scroll_containers s)
               | None => s
               end in
      if String.eqb tag "a"
      then mkStats (st_total_elements s) (st_interactive_elements s)
             (st_visible_elements s) (st_links_count s + 1)
             (st_iframes_count s) (st_scroll_containers s)
      else if bool_decide (tag ∈ ["iframe"; "frame"])
      then mkStats (st_total_elements s) (st_interactive_elements s)
             (st_visible_elements s) (st_links_count s)
             (st_iframes_count s + 1) (st_scroll_containers s)
      else s)
    (stats self) (Dict.values (DOMState.nodes (dom_state self))) in
  {| dom_state := dom_state self; max_length := max_length self;
     include_attributes := include_attributes self; stats := stats' |}.

(** [_get_page_height]. *)
Definition _get_page_height (self : t) : Q :=
  foldl (fun max_y node_data =>
           match NodeData.bounds node_data with
           | Some bounds =>
               let bottom := (DOMRect.y bounds + DOMRect.height bounds)%Q in
               py_max max_y bottom
           | None => max_y
           end)
    (inject_Z (DOMState.viewport_height (dom_state self)))
    (Dict.values (DOMState.nodes (dom_state self))).

(** [sort_key]; for an element whose ["bounds"] is [None] the call
    [bounds.get] raises [AttributeError]. *)
Definition sort_key (e : NodeData.t) : Exn + (Q * Q) :=
  match NodeData.bounds e with
  | Some bounds => inr (DOMRect.y bounds, DOMRect.x bounds)
  | None => inl (AttributeError "'NoneType' object has no attribute 'get'")
  end.

(** [k1 < k2] on key tuples. *)
Definition key_lt (k1 k2 : Q * Q) : bool :=
  if Qeq_bool k1.1 k2.1 then Qgt_bool k2.2 k1.2 else Qgt_bool k2.1 k1.1.

(** [sorted(elements, key=sort_key)] on elements already paired with their
    keys: a stable sort. *)
Fixpoint insert_by_key (e : (Q * Q) * NodeData.t) (l : list ((Q * Q) * NodeData.t))
  : list ((Q * Q) * NodeData.t) :=
  match l with
  | [] => [e]
  | h :: t => if key_lt h.1 e.1 then h :: insert_by_key e t else e :: h :: t
  end.

Definition sorted_by_key (l : list ((Q * Q) * NodeData.t)) : list NodeData.t :=
  (foldr insert_by_key [] l).*2.

(** The keys of all elements, computed before any comparison. *)
Fixpoint with_keys (l : list NodeData.t) : Exn + list ((Q * Q) * NodeData.t) :=
  match l with
  | [] => inr []
  | e :: l' =>
      match sort_key e with
      | inl ex => inl ex
      | inr k =>
          match with_keys l' with
          | inl ex => inl ex
          | inr kl => inr ((k, e) :: kl)
          end
      end
  end.

(** [_get_sorted_elements]. *)
Definition _get_sorted_elements (self : t) : Exn + list NodeData.t :=
  let elements :=
    filter (fun node_data => NodeData.is_visible node_data = true)
      (Dict.values (DOMState.interactive_elements (dom_state self))) in
  match with_keys elements with
  | inl ex => inl ex
  | inr kl => inr (sorted_by_key kl)
  end.

Definition nl : string := String (ascii_of_nat 10) "".
Definition tab : string := String (ascii_of_nat 9) "".

(** [_serialize_element]. *)
Definition _serialize_element (self : t) (element : NodeData.t) : string :=
  match NodeData.index element with
  | None => ""
  | Some index =>
      let tag := NodeData.tag_name element in
      let text := NodeData.text element in
      let attrs := NodeData.attributes element in
      let depth := NodeData.depth element in
      let attr_parts :=
        omap (fun attr_name =>
                match attrs !! attr_name with
                | Some value =>
                    if Py.str_truthy value
                    then
                      let value :=
                        if (50 <? String.length value)%nat
                        then substring 0 47 value +:+ "..." else value in
                      Some (attr_name +:+ "='" +:+ value +:+ "'")
                    else None
                | None => None
                end) (include_attributes self) in
      let attr_parts :=
        match NodeData.accessibility element with
        | Some (role, name) =>
            let attr_parts :=
              match role with
              | Some r =>
                  if Py.str_truthy r && negb (bool_decide (is_Some (attrs !! "role")))
                  then (attr_parts ++ ["role='" +:+ r +:+ "'"])%list
                  else attr_parts
              | None => attr_parts
              end in
            match name with
            | Some n =>
                if Py.str_truthy n &&
                   negb (bool_decide (is_Some (attrs !! "aria-label")))
                then (attr_parts ++ ["aria-label='" +:+ substring 0 50 n +:+ "'"])%list
                else attr_parts
            | None => attr_parts
            end
        | None => attr_parts
        end in
      let attr_str :=
        match attr_parts with
        | [] => ""
        | _ => " " +:+ Py.join " " attr_parts
        end in
      let text :=
        if (100 <? String.length text)%nat
        then substring 0 97 text +:+ "..." else text in
      let indent := Py.repeat_str tab (Z.min depth 5) in
      let is_new := false in
      let prefix := if is_new then "*" else "" in
      indent +:+ prefix +:+ "[" +:+ pretty index +:+ "]<" +:+ tag +:+ attr_str
        +:+ ">" +:+ text +:+ "</" +:+ tag +:+ ">"
  end.

(** The paging figures computed at the start of [serialize]. *)
Definition pages_above_of (self : t) : Q :=
  let scroll_y := DOMState.scroll_y (dom_state self) in
  let viewport_height := DOMState.viewport_height (dom_state self) in
  if 0 <? viewport_height then (scroll_y / inject_Z viewport_height)%Q else 0%Q.

Definition pages_below_of (self : t) : Q :=
  let scroll_y := DOMState.scroll_y (dom_state self) in
  let viewport_height := DOMState.viewport_height (dom_state self) in
  let page_height := _get_page_height self in
  if 0 <? viewport_height
  then py_max 0 ((page_height - scroll_y - inject_Z viewport_height)
                 / inject_Z viewport_height)%Q
  else 0%Q.

(** The local [representation] of [serialize] before the truncation. *)
Definition representation `{Py.Runtime} (self : t) : Exn + string :=
  let pages_above := pages_above_of self in
  let pages_below := pages_below_of self in
  let has_content_above := Qgt_bool pages_above (1 # 10) in
  let has_content_below := Qgt_bool pages_below (1 # 10) in
  let lines :=
    if has_content_above
    then ["... " +:+ Py.format_1f pages_above +:+ " pages above ..."]
    else ["[Start of page]"] in
  match _get_sorted_elements self with
  | inl ex => inl ex
  | inr elements =>
      let lines :=
        (lines ++ filter (fun line => Py.str_truthy line = true)
                    (_serialize_element self <$> elements))%list in
      let lines :=
        if negb has_content_below then (lines ++ ["[End of page]"])%list
        else lines in
      inr (Py.join nl lines)
  end.

(** [serialize]; the result comes with the serializer, whose [stats] the
    call has updated. The local variable [truncated] is assigned and then
    only used for a log line; [SerializedDOM] is built from the twelve
    arguments below. *)
Definition serialize `{Py.Runtime} (self : t) : Exn + (SerializedDOM.t * t) :=
  let self := _calculate_stats self in
  match representation self with
  | inl ex => inl ex
  | inr representation =>
      let truncated := false in
      let '(representation, truncated) :=
        if (Z.of_nat (String.length representation) >? max_length self)
        then (Py.slice_to representation (max_length self), true)
        else (representation, truncated) in
      inr ({| SerializedDOM.llm_representation := representation;
              SerializedDOM.total_elements := st_total_elements (stats self);
              SerializedDOM.interactive_elements :=
                st_interactive_elements (stats self);
              SerializedDOM.visible_elements := st_visible_elements (stats self);
              SerializedDOM.links_count := st_links_count (stats self);
              SerializedDOM.iframes_count := st_iframes_count (stats self);
              SerializedDOM.scroll_containers :=
                st_scroll_containers (stats self);
              SerializedDOM.has_content_above :=
                Qgt_bool (pages_above_of self) (1 # 10);
              SerializedDOM.has_content_below :=
                Qgt_bool (pages_below_of self) (1 # 10);
              SerializedDOM.pages_above := pages_above_of self;
              SerializedDOM.pages_below := pages_below_of self;
              SerializedDOM.selector_map :=
                DOMState.selector_map (dom_state self) |}, self)
  end.

(** [get_statistics_header]: the parts between the first and the last
    one, joined. *)
Definition get_statistics_header (self : t) : string :=
  let parts :=
    ["<page_stats>";
     pretty (st_links_count (stats self)) +:+ " links";
     pretty (st_interactive_elements (stats self)) +:+ " interactive"] in
  let parts :=
    if 0 <? st_iframes_count (stats self)
    then (parts ++ [pretty (st_iframes_count (stats self)) +:+ " iframes"])%list
    else parts in
  let parts :=
    if 0 <? st_scroll_containers (stats self)
    then (parts ++ [pretty (st_scroll_containers (stats self))
                    +:+ " scroll containers"])%list
    else parts in
  let parts :=
    (parts ++ [pretty (st_total_elements (stats self)) +:+ " total elements";
               "</page_stats>"])%list in
  Py.join ", " (removelast (tail parts)).

(** [s[-n:]] for a positive [n]: the last [n] characters. *)
Definition str_last (n : nat) (s : string) : string :=
  substring (String.length s - n) n s.

(** The module-level function [serialize_dom_for_llm]. A tab is a
    dictionary of strings. *)
Definition serialize_dom_for_llm `{Py.Runtime} (dom_state : DOMState.t)
    (url title : string) (tabs : option (list (gmap string string)))
    (active_tab_id : string) (max_length : Z) : Exn + string :=
  let serializer := init dom_state max_length None in
  match serialize serializer with
  | inl ex => inl ex
  | inr (serialized, serializer) =>
      let lines :=
        ["<page_stats>" +:+ get_statistics_header serializer +:+ "</page_stats>"] in
      let lines :=
        if Py.str_truthy active_tab_id
        then (lines ++ ["Current tab: " +:+ str_last 4 active_tab_id])%list
        else lines in
      let lines :=
        match tabs with
        | Some ts =>
            if (1 <? length ts)%nat
            then
              (lines ++ ["Available tabs:"] ++
               fmap (M := list) (fun tab =>
                  let marker :=
                    if bool_decide (tab !! "target_id" = Some active_tab_id)
                    then "*" else " " in
                  let tab_title := Py.slice_to (default "" (tab !! "title")) 30 in
                  let tab_url := Py.slice_to (default "" (tab !! "url")) 50 in
                  let tab_id := str_last 4 (default "" (tab !! "target_id")) in
                  "  " +:+ marker +:+ "Tab " +:+ tab_id +:+ ": " +:+ tab_url
                  +:+ " - " +:+ tab_title) ts)%list
            else lines
        | None => lines
        end in
      let lines :=
        (lines ++
         [nl +:+ "<page_info>"
             +:+ SerializedDOM.get_page_position_string serialized
             +:+ "</page_info>";
          nl +:+ "Interactive elements:";
          SerializedDOM.llm_representation serialized])%list in
      inr (Py.join nl lines)
  end.

End DOMSerializer.

(** [a or b or ... or last] over values that are [None] or strings: the
    first truthy one, and [last] when there is none. *)
Fixpoint first_truthy (candidates : list (option string)) (last : string)
  : string :=
  match candidates with
  | [] => last
  | Some s :: rest => if Py.str_truthy s then s else first_truthy rest last
  | None :: rest => first_truthy rest last
  end.

(** The module-level function [get_element_description], applied to a
    node record as [_node_to_dict] builds it: all keys are present, so
    the defaults of [element.get] are not used, and ["accessibility"] is
    a dictionary or [None]. *)
Definition get_element_description (element : NodeData.t) : Exn + string :=
  let tag := NodeData.tag_name element in
  let text := NodeData.text element in
  let attrs := NodeData.attributes element in
  let label :=
    match attrs !! "aria-label" with
    | Some s =>
        if Py.str_truthy s then inr s
        else
          match NodeData.accessibility element with
          | None => inl (AttributeError "'NoneType' object has no attribute 'get'")
          | Some (_, name) =>
              inr (first_truthy [name; attrs !! "title"; attrs !! "placeholder"] text)
          end
    | None =>
        match NodeData.accessibility element with
        | None => inl (AttributeError "'NoneType' object has no attribute 'get'")
        | Some (_, name) =>
            inr (first_truthy [name; attrs !! "title"; attrs !! "placeholder"] text)
        end
    end in
  match label with
  | inl ex => inl ex
  | inr label =>
      let label :=
        if Py.str_truthy label
        then if (30 <? String.length label)%nat
             then substring 0 30 label +:+ "..." else label
        else label in
      let described (what : string) : string :=
        if Py.str_truthy label then what +:+ " '" +:+ label +:+ "'" else what in
      if String.eqb tag "a" then inr (described "link")
      else if String.eqb tag "button" then inr (described "button")
      else if String.eqb tag "input" then
        inr (described ("input[type=" +:+ default "text" (attrs !! "type") +:+ "]"))
      else if String.eqb tag "select" then inr (described "dropdown")
      else if String.eqb tag "textarea" then inr (described "textarea")
      else inr (described tag)
  end.

(* ===================================================================== *)
(** ** browser/views.py and browser/session.py                            *)
(* ===================================================================== *)

Module InteractiveElement.

(** The fields of [InteractiveElement] that the modelled code reads or
    writes, and the geometry. *)
Record t := mk {
  index : Z;
  tag_name : string;
  text : string;
  attributes : gmap string string;
  x : Q;
  y : Q;
  width : Q;
  height : Q;
  depth : Z;
  is_new : bool;
}.

Definition set_is_new (v : bool) (self : t) : t :=
  {| index := index self; tag_name := tag_name self; text := text self;
     attributes := attributes self; x := x self; y := y self;
     width := width self; height := height self; depth := depth self;
     is_new := v |}.

End InteractiveElement.

Module BrowserState.

Record t := mk {
  url : string;
  title : string;
  viewport_width : Z;
  viewport_height : Z;
  scroll_x : Q;
  scroll_y : Q;
  page_width : Q;
  page_height : Q;
  elements : list InteractiveElement.t;
  screenshot_b64 : option string;
  screenshot_path : option string;
}.

Definition with_elements (es : list InteractiveElement.t) (self : t) : t :=
  {| url := url self; title := title self;
     viewport_width := viewport_width self;
     viewport_height := viewport_height self;
     scroll_x := scroll_x self; scroll_y := scroll_y self;
     page_width := page_width self; page_height := page_height self;
     elements := es;
     screenshot_b64 := screenshot_b64 self;
     screenshot_path := screenshot_path self |}.

(** [mark_new_elements]; the state object is returned as it is after the
    call. *)
Definition mark_new_elements (self : t) (previous_state : option t) : t :=
  match previous_state with
  | None => self
  | Some previous =>
      if negb (String.eqb (url self) (url previous)) then self
      else
        let previous_indices : gset Z :=
          list_to_set (InteractiveElement.index <$> elements previous) in
        with_elements
          ((fun element =>
              InteractiveElement.set_is_new
                (bool_decide (InteractiveElement.index element ∉ previous_indices))
                element) <$> elements self)
          self
  end.

(** [get_element_by_index]. *)
Definition get_element_by_index (self : t) (index : Z)
  : option InteractiveElement.t :=
  head (filter (fun e => InteractiveElement.index e = index) (elements self)).

(** The property [pages_above]. *)
Definition pages_above (self : t) : Q :=
  if viewport_height self <=? 0 then 0%Q
  else (scroll_y self / inject_Z (viewport_height self))%Q.

(** The property [pages_below]. *)
Definition pages_below (self : t) : Q :=
  if viewport_height self <=? 0 then 0%Q
  else
    let remaining :=
      (page_height self - scroll_y self - inject_Z (viewport_height self))%Q in
    DOMSerializer.py_max 0 (remaining / inject_Z (viewport_height self))%Q.

(** The properties [has_content_above] and [has_content_below]. *)
Definition has_content_above (self : t) : bool :=
  DOMSerializer.Qgt_bool (pages_above self) (1 # 10).

Definition has_content_below (self : t) : bool :=
  DOMSerializer.Qgt_bool (pages_below self) (1 # 10).

(** [get_elements_by_tag]. *)
Definition get_elements_by_tag (self : t) (tag_name : string)
  : list InteractiveElement.t :=
  filter (fun e => Py.lower (InteractiveElement.tag_name e) = Py.lower tag_name)
    (elements self).

End BrowserState.

Module BrowserSession.

(** The state tracking of a session. [save_screenshots] is off (its
    default), so [get_state] writes no file. *)
Record t := mk {
  _is_active : bool;
  _current_state : option BrowserState.t;
  _previous_state : option BrowserState.t;
  _state_history : list (string * string);
  _selector_map : gmap Z SelectorInfo;
}.

(** A session after [start]. *)
Definition started : t :=
  {| _is_active := true; _current_state := None; _previous_state := None;
     _state_history := []; _selector_map := ∅ |}.

(** What the driver returns to one [get_state] call:
    [get_browser_state()], which builds a new [BrowserState] whose
    elements all have [is_new = False], and the selector map of
    [get_interactive_elements()]. *)
Record DriverReply := mkDriverReply {
  reply_state : Exn + BrowserState.t;
  reply_selector_map : Exn + gmap Z SelectorInfo;
}.

(** [get_state(force_refresh)]. *)
Definition get_state (self : t) (force_refresh : bool) (driver : DriverReply)
  : t * (Exn + BrowserState.t) :=
  if negb (_is_active self)
  then (self, inl (OtherError "Session has expired or been closed"))
  else
    match negb force_refresh, _current_state self with
    | true, Some cached => (self, inr cached)
    | _, _ =>
        match reply_state driver with
        | inl e => (self, inl e)
        | inr state =>
            let state :=
              match _previous_state self with
              | Some previous =>
                  BrowserState.mark_new_elements state (Some previous)
              | None => state
              end in
            match reply_selector_map driver with
            | inl e => (self, inl e)
            | inr selector_map =>
                ({| _is_active := _is_active self;
                    _current_state := Some state;
                    _previous_state := _current_state self;
                    _state_history :=
                      (_state_history self ++
                       [(BrowserState.url state, BrowserState.title state)])%list;
                    _selector_map := selector_map |},
                 inr state)
            end
        end
    end.

(** [get_element_by_index] of the session. *)
Definition get_element_by_index (self : t) (index : Z)
  : option InteractiveElement.t :=
  match _current_state self with
  | Some state => BrowserState.get_element_by_index state index
  | None => None
  end.

(** The property [current_url]. *)
Definition current_url (self : t) : string :=
  match _current_state self with
  | Some state => BrowserState.url state
  | None => ""
  end.

End BrowserSession.

(* ===================================================================== *)
(** ** The collaborators of the step loop                                 *)
(* ===================================================================== *)

(** The browser session, the language model client, the action registry
    and the workflow capture, as the step loop uses them. Each call takes
    the state of the outside world and returns the new one with either
    the raised exception or the result. *)
Class Environment := {
  World : Type;
  (** [browser.get_state(force_refresh)] *)
  browser_get_state : bool -> World -> World * (Exn + BrowserState.t);
  (** [browser.send_keys(keys)] *)
  browser_send_keys : string -> World -> World * (Exn + unit);
  (** [llm.complete(messages, response_format)]: the [content] of the reply *)
  llm_complete : World -> World * (Exn + string);
  (** [tools.execute(action_name, params, browser_session, llm)] *)
  tools_execute : string -> Py.JSON -> World -> World * (Exn + ActionResult.t);
  (** [TutorialAgent._capture_action_state(...)] *)
  capture_action_state :
    string -> Py.JSON -> ActionResult.t -> World -> World * (Exn + unit);
}.

(* ===================================================================== *)
(** ** llm/schema.py and agent/views.py                                   *)
(* ===================================================================== *)

Module AgentOutput.

(** An action is a JSON object, kept as its list of entries. *)
Record t := mk {
  thinking : option string;
  evaluation_previous_goal : option string;
  memory : option string;
  next_goal : option string;
  action : list (list (string * Py.JSON));
}.

End AgentOutput.

Module AgentSettings.

Record t := mk {
  max_actions_per_step : Z;
  max_failures : Z;
  max_steps : Z;
}.

Definition default : t :=
  {| max_actions_per_step := 4; max_failures := 3; max_steps := 100 |}.

End AgentSettings.

Module AgentState.

Record t := mk {
  n_steps : Z;
  consecutive_failures : Z;
  last_result : option (list ActionResult.t);
  last_output : option AgentOutput.t;
  is_done : bool;
  is_paused : bool;
  is_stopped : bool;
  success : option bool;
}.

(** [AgentState()]. *)
Definition init : t :=
  {| n_steps := 0; consecutive_failures := 0; last_result := None;
     last_output := None; is_done := false; is_paused := false;
     is_stopped := false; success := None |}.

Definition set_n_steps (v : Z) (s : t) : t :=
  mk v (consecutive_failures s) (last_result s) (last_output s) (is_done s)
    (is_paused s) (is_stopped s) (success s).

Definition set_consecutive_failures (v : Z) (s : t) : t :=
  mk (n_steps s) v (last_result s) (last_output s) (is_done s)
    (is_paused s) (is_stopped s) (success s).

Definition set_last (o : AgentOutput.t) (r : list ActionResult.t) (s : t) : t :=
  mk (n_steps s) (consecutive_failures s) (Some r) (Some o) (is_done s)
    (is_paused s) (is_stopped s) (success s).

Definition set_done (v : option bool) (s : t) : t :=
  mk (n_steps s) (consecutive_failures s) (last_result s) (last_output s) true
    (is_paused s) (is_stopped s) v.

End AgentState.

Module AgentHistory.

Record t := mk {
  model_output : option AgentOutput.t;
  results : list ActionResult.t;
  url : option string;
  title : option string;
}.

End AgentHistory.

Module AgentHistoryList.

(** The list [history] of the model. *)
Definition t : Type := list AgentHistory.t.

(** [final_result]. *)
Definition final_result (self : t) : option string :=
  match last self with
  | Some entry =>
      match last (AgentHistory.results entry) with
      | Some r => ActionResult.extracted_content r
      | None => None
      end
  | None => None
  end.

(** [extracted_content]: every truthy extracted content, oldest first. *)
Definition extracted_content (self : t) : list string :=
  flat_map (fun h =>
    omap (fun r =>
      match ActionResult.extracted_content r with
      | Some c => if Py.str_truthy c then Some c else None
      | None => None
      end) (AgentHistory.results h)) self.

(** [is_done]. *)
Definition is_done (self : t) : bool :=
  match last self with
  | Some entry =>
      match last (AgentHistory.results entry) with
      | Some r => ActionResult.is_done r
      | None => false
      end
  | None => false
  end.

(** [is_successful]. *)
Definition is_successful (self : t) : option bool :=
  if is_done self
  then
    match last self with
    | Some entry =>
        match last (AgentHistory.results entry) with
        | Some r => ActionResult.success r
        | None => None
        end
    | None => None
    end
  else None.

(** [errors]: for every step its first truthy error, or [None]. *)
Definition errors (self : t) : list (option string) :=
  (fun h =>
     head (omap (fun r =>
                   match ActionResult.error r with
                   | Some e => if Py.str_truthy e then Some e else None
                   | None => None
                   end) (AgentHistory.results h))) <$> self.

(** [has_errors]. *)
Definition has_errors (self : t) : bool :=
  existsb (fun e => match e with Some _ => true | None => false end)
    (errors self).

(** [action_results]. *)
Definition action_results (self : t) : list ActionResult.t :=
  flat_map AgentHistory.results self.

(** [number_of_steps]. *)
Definition number_of_steps (self : t) : nat := length self.

End AgentHistoryList.

(* ===================================================================== *)
(** ** agent/executor.py                                                  *)
(* ===================================================================== *)

(** [_parse_response], which [Agent] and [TutorialAgent] define with the
    same body. The text that the interpreter puts into the message of a
    caught exception is abridged. *)
Definition opt_str_field (v : option Py.JSON) : option (option string) :=
  match v with
  | None | Some Py.JNull => Some None
  | Some (Py.JStr s) => Some (Some s)
  | Some _ => None
  end.

Definition _parse_response `{Py.Runtime} (content : string) : Exn + AgentOutput.t :=
  match Py.json_loads content with
  | None => inl (LLMResponseError "Invalid JSON")
  | Some (Py.JDict data) =>
      let actions := default (Py.JList []) (Py.dict_get "action" data) in
      if negb (Py.truthy actions)
      then inl (LLMResponseError "Failed to parse response: No actions in response")
      else
        match Py.iterate actions with
        | None => inl (LLMResponseError "Failed to parse response: object is not iterable")
        | Some items =>
            let validated_actions :=
              omap (fun action =>
                      match action with
                      | Py.JDict entries => Some entries
                      | _ => None
                      end) items in
            match opt_str_field (Py.dict_get "thinking" data),
                  opt_str_field (Py.dict_get "evaluation_previous_goal" data),
                  opt_str_field (Py.dict_get "memory" data),
                  opt_str_field (Py.dict_get "next_goal" data) with
            | Some thinking, Some evaluation, Some memory, Some next_goal =>
                inr (AgentOutput.mk thinking evaluation memory next_goal
                       validated_actions)
            | _, _, _, _ =>
                inl (LLMResponseError "Failed to parse response: validation error")
            end
        end
  | Some _ =>
      inl (LLMResponseError "Failed to parse response: object has no attribute 'get'")
  end.

(** [ActionResult(error=str(e))]. *)
Definition error_result (e : Exn) : ActionResult.t :=
  ActionResult.mk false None None None (Some (str_of_exn e)) None false.

(** [result.error or result.is_done]. *)
Definition stops_step (result : ActionResult.t) : bool :=
  Py.opt_str_truthy (ActionResult.error result) || ActionResult.is_done result.

Module Agent.

Record t := mk {
  settings : AgentSettings.t;
  state : AgentState.t;
  history : AgentHistoryList.t;
}.

(** [Agent(...)] with the given settings. *)
Definition init (settings : AgentSettings.t) : t :=
  {| settings := settings; state := AgentState.init; history := [] |}.

Definition with_state (s : AgentState.t) (self : t) : t :=
  {| settings := settings self; state := s; history := history self |}.

Section WithEnvironment.
Context `{Py.Runtime} `{Environment}.

(** The loop of [_execute_actions] over the sliced action list. *)
Fixpoint execute_loop (actions : list (list (string * Py.JSON)))
    (results : list ActionResult.t) (w : World) : World * list ActionResult.t :=
  match actions with
  | [] => (w, results)
  | action :: rest =>
      match action with
      | [] => execute_loop rest results w
      | (action_name, params) :: _ =>
          match tools_execute action_name params w with
          | (w, inl e) => (w, (results ++ [error_result e])%list)
          | (w, inr result) =>
              let results := (results ++ [result])%list in
              if stops_step result then (w, results)
              else
                match browser_get_state true w with
                | (w, inl e) => (w, (results ++ [error_result e])%list)
                | (w, inr _) => execute_loop rest results w
                end
          end
      end
  end.

(** [_execute_actions]. *)
Definition _execute_actions (self : t) (actions : list (list (string * Py.JSON)))
    (w : World) : World * list ActionResult.t :=
  let '(w, results) :=
    execute_loop
      (Py.list_slice_to actions (AgentSettings.max_actions_per_step (settings self)))
      [] w in
  (w, match results with [] => [ActionResult.default] | _ => results end).

(** The end of [_execute_step]: the history entry, "Check if done" and
    "Reset failure counter on success". *)
Definition record_step (agent_output : AgentOutput.t)
    (results : list ActionResult.t) (browser_state : BrowserState.t)
    (state : AgentState.t) (history : AgentHistoryList.t)
  : AgentState.t * AgentHistoryList.t :=
  let history_entry :=
    AgentHistory.mk (Some agent_output) results
      (Some (BrowserState.url browser_state))
      (Some (BrowserState.title browser_state)) in
  let history := (history ++ [history_entry])%list in
  let state := AgentState.set_last agent_output results state in
  let state :=
    match head (filter (fun r => ActionResult.is_done r = true) results) with
    | Some result => AgentState.set_done (ActionResult.success result) state
    | None => state
    end in
  let state :=
    if negb (existsb (fun r => Py.opt_str_truthy (ActionResult.error r)) results)
    then AgentState.set_consecutive_failures 0 state
    else state in
  (state, history).

(** [_execute_step]. The message manager only assembles the prompt and is
    not modelled. *)
Definition _execute_step (self : t) (w : World) : World * t * (Exn + unit) :=
  match browser_get_state true w with
  | (w, inl e) => (w, self, inl e)
  | (w, inr browser_state) =>
      match llm_complete w with
      | (w, inl e) => (w, self, inl e)
      | (w, inr content) =>
          match _parse_response content with
          | inl e => (w, self, inl e)
          | inr agent_output =>
              let '(w, results) :=
                _execute_actions self (AgentOutput.action agent_output) w in
              let '(state, history) :=
                record_step agent_output results browser_state
                  (state self) (history self) in
              (w, {| settings := settings self; state := state;
                     history := history |}, inr tt)
          end
      end
  end.

(** How one pass through the body of the [while] loop of [run] ends. *)
Inductive Iteration :=
| Continue (self : t) (w : World)
| Break (self : t) (w : World)
| Raise (e : Exn) (self : t) (w : World)
| Blocked (self : t) (w : World).

(** The body of the [while] loop of [run]. A paused agent sleeps until
    another task clears [is_paused]; with the one thread of control that
    is modelled the pass does not end. *)
Definition loop_body (self : t) (w : World) : Iteration :=
  if AgentState.is_stopped (state self) then Break self w
  else if AgentState.is_paused (state self) then Blocked self w
  else
    let '(w, self, r) := _execute_step self w in
    match r with
    | inl e =>
        let failures := AgentState.consecutive_failures (state self) + 1 in
        let self :=
          with_state (AgentState.set_consecutive_failures failures (state self))
            self in
        if failures >=? AgentSettings.max_failures (settings self)
        then Raise (MaxFailuresReachedError (AgentSettings.max_failures (settings self)))
               self w
        else
          Continue
            (with_state (AgentState.set_n_steps
               (AgentState.n_steps (state self) + 1) (state self)) self) w
    | inr _ =>
        Continue
          (with_state (AgentState.set_n_steps
             (AgentState.n_steps (state self) + 1) (state self)) self) w
    end.

(** How [run] ends. *)
Inductive Outcome :=
| Returned (self : t) (w : World)
| Raised (e : Exn) (self : t) (w : World)
| Paused (self : t) (w : World)
| OutOfFuel.

(** The [while] loop of [run]; [fuel] bounds the number of passes. *)
Fixpoint run_loop (fuel : nat) (max_steps : Z) (self : t) (w : World) : Outcome :=
  if negb (AgentState.is_done (state self)) &&
     (AgentState.n_steps (state self) <? max_steps)
  then
    match fuel with
    | O => OutOfFuel
    | S fuel' =>
        match loop_body self w with
        | Continue self w => run_loop fuel' max_steps self w
        | Break self w => Returned self w
        | Raise e self w => Raised e self w
        | Blocked self w => Paused self w
        end
    end
  else Returned self w.

(** The text that [_force_completion] puts into the final result. *)
Definition completion_text (history : AgentHistoryList.t) : string :=
  match AgentHistoryList.final_result history with
  | Some text => if Py.str_truthy text then text
                 else "Task incomplete - max steps reached"
  | None => "Task incomplete - max steps reached"
  end.

(** [_force_completion]. *)
Definition _force_completion (self : t) (w : World) : World * t * (Exn + unit) :=
  match browser_get_state false w with
  | (w, inl e) => (w, self, inl e)
  | (w, inr browser_state) =>
      let final_result := completion_text (history self) in
      match ActionResult.new
              (ActionResult.mk true (Some false) (Some final_result)
                 (Some "Task incomplete due to step limit") None None false) with
      | inl e => (w, self, inl e)
      | inr done_result =>
          let entry :=
            AgentHistory.mk None [done_result]
              (Some (BrowserState.url browser_state))
              (Some (BrowserState.title browser_state)) in
          (w,
           {| settings := settings self;
              state := AgentState.set_done (Some false) (state self);
              history := (history self ++ [entry])%list |},
           inr tt)
      end
  end.

(** [max_steps or self.settings.max_steps]. *)
Definition effective_max_steps (self : t) (max_steps : option Z) : Z :=
  match max_steps with
  | Some m => if m =? 0 then AgentSettings.max_steps (settings self) else m
  | None => AgentSettings.max_steps (settings self)
  end.

(** [run(max_steps)]: [max_steps or self.settings.max_steps], the loop,
    and the forced completion. The loop makes at most [max_steps] passes,
    which is the fuel given to it. *)
Definition run (self : t) (max_steps : option Z) (w : World) : Outcome :=
  let max_steps := effective_max_steps self max_steps in
  let self := with_state (AgentState.set_n_steps 0 (state self)) self in
  match run_loop (Z.to_nat max_steps) max_steps self w with
  | Returned self w =>
      if (AgentState.n_steps (state self) >=? max_steps) &&
         negb (AgentState.is_done (state self))
      then
        match _force_completion self w with
        | (w, self, inl e) => Raised e self w
        | (w, self, inr _) => Returned self w
        end
      else Returned self w
  | other => other
  end.

End WithEnvironment.

End Agent.

(* ===================================================================== *)
(** ** tutorial/agent.py                                                  *)
(* ===================================================================== *)

Module TutorialAgent.

Record t := mk {
  max_steps : Z;
  max_failures : Z;
  state : AgentState.t;
  history : AgentHistoryList.t;
  _recent_actions : list string;
  _max_repeated_actions : Z;
}.

(** [TutorialAgent(...)]: the loop detection starts with no recent
    action and the threshold 2. *)
Definition init (max_steps max_failures : Z) : t :=
  {| max_steps := max_steps; max_failures := max_failures;
     state := AgentState.init; history := [];
     _recent_actions := []; _max_repeated_actions := 2 |}.

Definition with_state (s : AgentState.t) (self : t) : t :=
  {| max_steps := max_steps self; max_failures := max_failures self;
     state := s; history := history self;
     _recent_actions := _recent_actions self;
     _max_repeated_actions := _max_repeated_actions self |}.

Definition with_recent (recent : list string) (self : t) : t :=
  {| max_steps := max_steps self; max_failures := max_failures self;
     state := state self; history := history self;
     _recent_actions := recent;
     _max_repeated_actions := _max_repeated_actions self |}.

(** [_count_repeated_actions]. *)
Definition _count_repeated_actions (self : t) (action_sig : string) : Z :=
  Z.of_nat (length (filter (fun a => a = action_sig) (_recent_actions self))).

(** [_is_action_repeated]. *)
Definition _is_action_repeated (self : t) (action_sig : string) : bool :=
  _count_repeated_actions self action_sig >=? _max_repeated_actions self.

(** The result appended when the loop detection gives up; the validator
    accepts it, [success] being [False]. *)
Definition stuck_result : ActionResult.t :=
  ActionResult.mk true (Some false)
    (Some "Task incomplete - got stuck in a loop clicking the same element. There may be a popup or overlay blocking the target.")
    None None None false.

(** "Track this action": append, and drop the oldest beyond ten. *)
Definition track (action_sig : string) (recent : list string) : list string :=
  let recent := (recent ++ [action_sig])%list in
  if (10 <? length recent)%nat then tail recent else recent.

Section WithEnvironment.
Context `{Py.Runtime} `{Environment}.

(** The action signature [f"{action_name}:{json.dumps(params, sort_keys=True)}"]. *)
Definition signature (action_name : string) (params : Py.JSON) : string :=
  action_name +:+ ":" +:+ Py.json_dumps_sorted params.

(** The [except Exception as e] branch of the loop: the results with the
    appended one, and whether the loop goes on with the next action. *)
Definition on_exception (e : Exn) (results : list ActionResult.t)
  : list ActionResult.t * bool :=
  let error_str := Py.lower (str_of_exn e) in
  if Py.contains "execution context" error_str || Py.contains "navigation" error_str
  then ((results ++ [ActionResult.default])%list, true)
  else ((results ++ [error_result e])%list, false).

(** The loop of [_execute_and_capture_actions] over [agent_output.action[:4]]. *)
Fixpoint capture_loop (actions : list (list (string * Py.JSON)))
    (results : list ActionResult.t) (self : t) (w : World)
  : World * t * list ActionResult.t :=
  match actions with
  | [] => (w, self, results)
  | action :: rest =>
      match action with
      | [] => capture_loop rest results self w
      | (action_name, params) :: _ =>
          let action_sig := signature action_name params in
          let '(w, forced) :=
            if _is_action_repeated self action_sig
            then
              let w := (browser_send_keys "Escape" w).1 in
              (w, _count_repeated_actions self action_sig
                    >=? _max_repeated_actions self + 2)
            else (w, false) in
          if forced then (w, self, (results ++ [stuck_result])%list)
          else
            let self := with_recent (track action_sig (_recent_actions self)) self in
            match tools_execute action_name params w with
            | (w, inr result) =>
                let results := (results ++ [result])%list in
                match capture_action_state action_name params result w with
                | (w, inr _) =>
                    if stops_step result then (w, self, results)
                    else capture_loop rest results self w
                | (w, inl e) =>
                    let '(results, go_on) := on_exception e results in
                    if go_on then capture_loop rest results self w
                    else (w, self, results)
                end
            | (w, inl e) =>
                let '(results, go_on) := on_exception e results in
                if go_on then capture_loop rest results self w
                else (w, self, results)
            end
      end
  end.

(** [_execute_and_capture_actions]. *)
Definition _execute_and_capture_actions (self : t) (agent_output : AgentOutput.t)
    (w : World) : World * t * list ActionResult.t :=
  let '(w, self, results) :=
    capture_loop (Py.list_slice_to (AgentOutput.action agent_output) 4) [] self w in
  (w, self, match results with [] => [ActionResult.default] | _ => results end).

(** [_execute_step]; its last part is the one of [Agent._execute_step]. *)
Definition _execute_step (self : t) (w : World) : World * t * (Exn + unit) :=
  match browser_get_state true w with
  | (w, inl e) => (w, self, inl e)
  | (w, inr browser_state) =>
      match llm_complete w with
      | (w, inl e) => (w, self, inl e)
      | (w, inr content) =>
          match _parse_response content with
          | inl e => (w, self, inl e)
          | inr agent_output =>
              let '(w, self, results) :=
                _execute_and_capture_actions self agent_output w in
              let '(state, history) :=
                Agent.record_step agent_output results browser_state
                  (state self) (history self) in
              (w, {| max_steps := max_steps self;
                     max_failures := max_failures self;
                     state := state; history := history;
                     _recent_actions := _recent_actions self;
                     _max_repeated_actions := _max_repeated_actions self |},
               inr tt)
          end
      end
  end.

(** How [run] ends: it returns, with the [success] it reports, or raises. *)
Inductive Outcome :=
| Returned (success : bool) (self : t) (w : World)
| Raised (e : Exn) (self : t) (w : World)
| OutOfFuel.

(** The part of [run] from "Main execution loop" to [return workflow]:
    the loop, with [fuel] bounding its passes, and
    [success = self.state.success or False]. *)
Fixpoint main_loop (fuel : nat) (self : t) (w : World) : Outcome :=
  if negb (AgentState.is_done (state self)) &&
     (AgentState.n_steps (state self) <? max_steps self)
  then
    match fuel with
    | O => OutOfFuel
    | S fuel' =>
        if AgentState.is_stopped (state self)
        then Returned (default false (AgentState.success (state self))) self w
        else
          let '(w, self, r) := _execute_step self w in
          match r with
          | inl e =>
              let failures := AgentState.consecutive_failures (state self) + 1 in
              let self :=
                with_state
                  (AgentState.set_consecutive_failures failures (state self))
                  self in
              if failures >=? max_failures self
              then Raised (MaxFailuresReachedError (max_failures self)) self w
              else
                main_loop fuel'
                  (with_state (AgentState.set_n_steps
                     (AgentState.n_steps (state self) + 1) (state self)) self) w
          | inr _ =>
              main_loop fuel'
                (with_state (AgentState.set_n_steps
                   (AgentState.n_steps (state self) + 1) (state self)) self) w
          end
    end
  else Returned (default false (AgentState.success (state self))) self w.

End WithEnvironment.

End TutorialAgent.

(* ===================================================================== *)
(** ** dom/views.py and dom/extractor.py: the layout snapshot             *)
(* ===================================================================== *)

Module DOMSnapshot.

(** An entry of [documents]: the lists that [_build_snapshot_lookup]
    reads, [nodes.backendNodeId] and, under [layout], [nodeIndex],
    [bounds] and [styles]. An absent key is the empty list. *)
Record Document := mkDocument {
  backendNodeId_list : list Z;
  layout_nodeIndex : list Z;
  layout_bounds : list (list Q);
  layout_styles : list (list Z);
}.

Record t := mk {
  documents : list Document;
  strings : list string;
}.

(** [get_string]. *)
Definition get_string (self : t) (index : Z) : string :=
  if (0 <=? index) && (index <? Z.of_nat (length (strings self)))
  then default "" (strings self !! Z.to_nat index)
  else "".

End DOMSnapshot.

Module SnapshotLookup.

(** [xs[i]] for an index already known to be below [len(xs)]: a negative
    index counts from the end, and one below [-len(xs)] raises
    [IndexError] ([None]). *)
Definition index_from {A} (xs : list A) (i : Z) : option A :=
  if 0 <=? i then xs !! Z.to_nat i
  else if - Z.of_nat (length xs) <=? i
       then xs !! Z.to_nat (Z.of_nat (length xs) + i)
       else None.

Definition style_names : list string :=
  ["display"; "visibility"; "opacity"; "position"; "overflow"; "pointer-events"].

(** The names of the fields of the dataclass [ComputedStyles]. *)
Definition field_names : list string :=
  ["display"; "visibility"; "opacity"; "position"; "overflow"; "pointer_events"].

(** The dictionary [styles] built from one row of style indices: position
    [j] of the row, when below [len(style_names)] and holding a
    non-negative index, sets the [j]-th name. *)
Fixpoint styles_of_row (snapshot : DOMSnapshot.t) (j : nat)
    (style_indices : list Z) (styles : gmap string string)
  : gmap string string :=
  match style_indices with
  | [] => styles
  | style_idx :: rest =>
      let styles :=
        match style_names !! j with
        | Some name =>
            if 0 <=? style_idx
            then <[name := DOMSnapshot.get_string snapshot style_idx]> styles
            else styles
        | None => styles
        end in
      styles_of_row snapshot (S j) rest styles
  end.

(** The call of [ComputedStyles] with the dictionary [styles] unpacked
    into keyword arguments, as far as the keyword names go:
    a keyword that is no field of the dataclass raises [TypeError];
    a missing field takes its default. *)
Definition computed_styles_of (styles : gmap string string)
  : Exn + ComputedStyles.t :=
  if bool_decide (Forall (fun k => k ∈ field_names) (map_to_list styles).*1)
  then
    inr {| ComputedStyles.display := default "block" (styles !! "display");
           ComputedStyles.visibility := default "visible" (styles !! "visibility");
           ComputedStyles.opacity := default "1" (styles !! "opacity");
           ComputedStyles.position := default "static" (styles !! "position");
           ComputedStyles.overflow := default "visible" (styles !! "overflow");
           ComputedStyles.pointer_events :=
             default "auto" (styles !! "pointer_events") |}
  else inl (OtherError "TypeError: __init__() got an unexpected keyword argument").

(** The body of the loop over [enumerate(node_indices)] for one row:
    the entry to store under its backend node id, or [None] for
    [continue]. *)
Definition entry_of (snapshot : DOMSnapshot.t) (doc : DOMSnapshot.Document)
    (i : nat) (node_idx : Z) : Exn + option (Z * SnapshotEntry) :=
  let ids := DOMSnapshot.backendNodeId_list doc in
  if node_idx <? Z.of_nat (length ids)
  then
    match index_from ids node_idx with
    | None => inl (OtherError "IndexError: list index out of range")
    | Some backend_node_id =>
        let bounds :=
          match DOMSnapshot.layout_bounds doc !! i with
          | Some (b0 :: b1 :: b2 :: b3 :: _) => Some (DOMRect.mk b0 b1 b2 b3)
          | _ => None
          end in
        match DOMSnapshot.layout_styles doc !! i with
        | Some style_indices =>
            let styles := styles_of_row snapshot 0 style_indices ∅ in
            if bool_decide (styles = ∅)
            then inr (Some (backend_node_id, mkSnapshotEntry bounds None))
            else
              match computed_styles_of styles with
              | inl e => inl e
              | inr cs =>
                  inr (Some (backend_node_id, mkSnapshotEntry bounds (Some cs)))
              end
        | None => inr (Some (backend_node_id, mkSnapshotEntry bounds None))
        end
    end
  else inr None.

(** The loop over the rows of one document. *)
Fixpoint rows_loop (snapshot : DOMSnapshot.t) (doc : DOMSnapshot.Document)
    (i : nat) (node_indices : list Z) (lookup : gmap Z SnapshotEntry)
  : Exn + gmap Z SnapshotEntry :=
  match node_indices with
  | [] => inr lookup
  | node_idx :: rest =>
      match entry_of snapshot doc i node_idx with
      | inl e => inl e
      | inr None => rows_loop snapshot doc (S i) rest lookup
      | inr (Some (backend_node_id, entry)) =>
          rows_loop snapshot doc (S i) rest (<[backend_node_id := entry]> lookup)
      end
  end.

(** The loop over [snapshot.documents]. *)
Fixpoint documents_loop (snapshot : DOMSnapshot.t)
    (docs : list DOMSnapshot.Document) (lookup : gmap Z SnapshotEntry)
  : Exn + gmap Z SnapshotEntry :=
  match docs with
  | [] => inr lookup
  | doc :: rest =>
      match rows_loop snapshot doc 0 (DOMSnapshot.layout_nodeIndex doc) lookup with
      | inl e => inl e
      | inr lookup => documents_loop snapshot rest lookup
      end
  end.

(** [DOMExtractor._build_snapshot_lookup]. *)
Definition _build_snapshot_lookup (snapshot : DOMSnapshot.t)
  : Exn + gmap Z SnapshotEntry :=
  documents_loop snapshot (DOMSnapshot.documents snapshot) ∅.

End SnapshotLookup.

(* ===================================================================== *)
(** ** tools/registry.py: the table of actions                            *)
(* ===================================================================== *)

Module ToolRegistry.

Section Registry.
(** A handler is a Python callable and a parameter model a class; the
    registry only stores them. [_generate_param_model] derives a model
    from the signature of a handler. *)
Context {Handler ParamModel : Type}.
Variable _generate_param_model : string -> Handler -> ParamModel.

(** The dataclass [ActionDefinition] ([tools/views.py]). *)
Record ActionDefinition := mkActionDefinition {
  name : string;
  description : string;
  param_model : ParamModel;
  handler : Handler;
  requires_browser : bool;
  is_terminal : bool;
}.

Record t := mk {
  _actions : gmap string ActionDefinition;
  _exclude_actions : gset string;
}.

(** [ToolRegistry(exclude_actions)]. *)
Definition init (exclude_actions : option (list string)) : t :=
  {| _actions := ∅;
     _exclude_actions := list_to_set (default [] exclude_actions) |}.

(** [register]. *)
Definition register (self : t) (name : string) (handler : Handler)
    (description : string) (param_model : option ParamModel)
    (requires_browser is_terminal : bool) : t :=
  if bool_decide (name ∈ _exclude_actions self) then self
  else
    let param_model :=
      match param_model with
      | Some p => p
      | None => _generate_param_model name handler
      end in
    let definition :=
      {| name := name;
         description :=
           if Py.str_truthy description then description
           else "Execute " +:+ name +:+ " action";
         param_model := param_model;
         handler := handler;
         requires_browser := requires_browser;
         is_terminal := is_terminal |} in
    {| _actions := <[name := definition]> (_actions self);
       _exclude_actions := _exclude_actions self |}.

(** [exclude_action]. *)
Definition exclude_action (self : t) (name : string) : t :=
  {| _actions := delete name (_actions self);
     _exclude_actions := {[name]} ∪ _exclude_actions self |}.

(** [get_action], [__contains__] and [__len__]. *)
Definition get_action (self : t) (name : string) : option ActionDefinition :=
  _actions self !! name.

Definition contains (self : t) (name : string) : bool :=
  bool_decide (is_Some (_actions self !! name)).

Definition len (self : t) : nat := size (_actions self).

(** The start of [execute]: the lookup of the definition, which raises
    [ActionNotFoundError] for a name that is not in the table; [call]
    stands for the rest of the method, which validates the parameters
    and calls the handler of the definition found. *)
Definition execute {R : Type} (self : t) (action_name : string)
    (call : ActionDefinition -> Exn + R) : Exn + R :=
  match _actions self !! action_name with
  | None =>
      inl (OtherError ("Action '" +:+ action_name +:+
                       "' failed: Action '" +:+ action_name +:+
                       "' not found in registry"))
  | Some definition => call definition
  end.

(** A call of [register] or of [exclude_action]. *)
Inductive Call :=
| Register (name : string) (handler : Handler) (description : string)
    (param_model : option ParamModel) (requires_browser is_terminal : bool)
| Exclude (name : string).

Definition call (self : t) (c : Call) : t :=
  match c with
  | Register name handler description param_model requires_browser is_terminal =>
      register self name handler description param_model requires_browser
        is_terminal
  | Exclude name => exclude_action self name
  end.

(** A sequence of calls, the oldest first. *)
Definition calls (self : t) (cs : list Call) : t := foldl call self cs.

End Registry.

End ToolRegistry.

(* ===================================================================== *)
(** ** llm/messages.py: the message history of the message manager        *)
(* ===================================================================== *)

Module MessageHistory.

Section History.
(** A message is a dataclass instance; the history only stores it. *)
Context {Message : Type}.

Record t := mk {
  _messages : list Message;
  _max_messages : option Z;
  _system_message : option Message;
}.

(** [MessageHistory(max_messages)]. *)
Definition init (max_messages : option Z) : t :=
  {| _messages := []; _max_messages := max_messages; _system_message := None |}.

(** [set_system_message]. *)
Definition set_system_message (self : t) (message : Message) : t :=
  {| _messages := _messages self; _max_messages := _max_messages self;
     _system_message := Some message |}.

(** [xs[start:]] on a list. *)
Definition list_slice_from {A} (xs : list A) (start : Z) : list A :=
  if 0 <=? start then drop (Z.to_nat start) xs
  else drop (length xs - Z.to_nat (- start)) xs.

(** [_truncate_if_needed]; [None] and 0 are falsy. *)
Definition _truncate_if_needed (self : t) : t :=
  match _max_messages self with
  | Some m =>
      if negb (m =? 0) && (Z.of_nat (length (_messages self)) >? m)
      then {| _messages := list_slice_from (_messages self) (- m);
              _max_messages := _max_messages self;
              _system_message := _system_message self |}
      else self
  | None => self
  end.

(** [add]. *)
Definition add (self : t) (message : Message) : t :=
  _truncate_if_needed
    {| _messages := (_messages self ++ [message])%list;
       _max_messages := _max_messages self;
       _system_message := _system_message self |}.

(** [get_messages]. *)
Definition get_messages (self : t) : list Message :=
  (match _system_message self with Some m => [m] | None => [] end
   ++ _messages self)%list.

(** [clear]. *)
Definition clear (self : t) : t :=
  {| _messages := []; _max_messages := _max_messages self;
     _system_message := _system_message self |}.

(** [__len__]. *)
Definition len (self : t) : nat := length (_messages self).

End History.

End MessageHistory.

(* ===================================================================== *)
(** ** Concrete inputs used in examples                                   *)
(* ===================================================================== *)

Module Fixtures.

(** A stand-in for the interpreter: [float] reads an optional sign,
    digits and an optional fraction; [format_1f] rounds a non-negative
    rational to one decimal. *)
Fixpoint digits_value (s : string) (acc : Z) : option Z :=
  match s with
  | EmptyString => Some acc
  | String c s' =>
      let n := nat_of_ascii c in
      if (48 <=? n)%nat && (n <=? 57)%nat
      then digits_value s' (10 * acc + Z.of_nat (n - 48))
      else None
  end.

Fixpoint split_dot (s : string) : string * option string :=
  match s with
  | EmptyString => (EmptyString, None)
  | String c s' =>
      if Ascii.eqb c "." then (EmptyString, Some s')
      else let '(a, b) := split_dot s' in (String c a, b)
  end.

Definition parse_decimal (s : string) : option Q :=
  let '(neg, body) :=
    match s with
    | String "-" r => (true, r)
    | _ => (false, s)
    end in
  let '(int_part, frac_part) := split_dot body in
  match int_part with
  | EmptyString => None
  | _ =>
      i ← digits_value int_part 0;
      f ← digits_value (default "" frac_part) 0;
      let scale := Z.pow 10 (Z.of_nat (String.length (default "" frac_part))) in
      let q := (inject_Z i + inject_Z f / inject_Z scale)%Q in
      Some (if neg then (- q)%Q else q)
  end.

Definition format_one_decimal (q : Q) : string :=
  let n := Qfloor (q * 10 + (1 # 2))%Q in
  pretty (n / 10) +:+ "." +:+ pretty (n mod 10).

(** The replies of the stand-in language model, by name. *)
Definition decode (content : string) : option Py.JSON :=
  if String.eqb content "no actions"
  then Some (Py.JDict [("thinking", Py.JStr "stuck"); ("action", Py.JList [])])
  else if String.eqb content "empty entries"
  then Some (Py.JDict [("action", Py.JList [Py.JDict []; Py.JDict []])])
  else if String.eqb content "extract"
  then Some (Py.JDict
         [("action", Py.JList [Py.JDict [("extract", Py.JDict [("query", Py.JStr "price")])]])])
  else if String.eqb content "click 5"
  then Some (Py.JDict
         [("action", Py.JList [Py.JDict [("click", Py.JDict [("index", Py.JNum 5)])]])])
  else None.

(** A stand-in for [json.dumps] that tells the parameter objects of the
    replies above apart. *)
Definition dumps (j : Py.JSON) : string :=
  match j with
  | Py.JDict [("index", Py.JNum q)] => "{index: " +:+ pretty (Qnum q) +:+ "}"
  | Py.JDict [("query", Py.JStr q)] => "{query: " +:+ q +:+ "}"
  | _ => "{}"
  end.

Definition runtime : Py.Runtime :=
  {| Py.json_loads := decode;
     Py.json_dumps_sorted := dumps;
     Py.pyfloat := Q;
     Py.float_of_str := parse_decimal;
     Py.float_le_zero := fun q => Qle_bool q 0;
     Py.format_1f := format_one_decimal |}.

(** A raw text node and a raw element. *)
Definition raw_text (id : Z) (value : string) : RawNode :=
  mkRawNode (Some id) (Some id) (Some 3) (Some "#text") (Some value)
    [] false None None [] None [].

Definition raw_element (id : Z) (name : string) (attrs : list string)
    (cs : list RawNode) : RawNode :=
  mkRawNode (Some id) (Some id) (Some 1) (Some name) None
    attrs false None None cs None [].

Definition raw_document (id : Z) (cs : list RawNode) : RawNode :=
  mkRawNode (Some id) (Some id) (Some 9) (Some "#document") None
    [] false None None cs None [].

(** A page whose only link sits below the fold, with link text [txt]. *)
Definition link_page (txt : string) : RawNode :=
  raw_document 1 [raw_element 2 "A" [] [raw_text 3 txt]].

Definition link_layout : gmap Z SnapshotEntry :=
  {[ 2 := mkSnapshotEntry (Some (DOMRect.mk 0 1000 50 20)) None ]}.

(** A button, and a hidden [div] that wraps another button. *)
Definition hidden_wrapper_page : RawNode :=
  raw_document 1
    [raw_element 2 "BUTTON" ["aria-label"; "Submit"] [];
     raw_element 3 "DIV" [] [raw_element 4 "BUTTON" [] []]].

Definition hidden_wrapper_layout : gmap Z SnapshotEntry :=
  {[ 2 := mkSnapshotEntry (Some (DOMRect.mk 100 200 50 20)) None;
     3 := mkSnapshotEntry None
            (Some (ComputedStyles.mk "none" "visible" "1" "static" "visible" "auto")) ]}.

(** A state scrolled to 800 in a viewport 720 high whose lowest node ends
    at 2000. *)
Definition tall_node : NodeData.t :=
  {| NodeData.node_id := 1; NodeData.backend_node_id := 1;
     NodeData.tag_name := "div"; NodeData.text := "";
     NodeData.attributes := ∅;
     NodeData.bounds := Some (DOMRect.mk 0 1900 10 100);
     NodeData.is_visible := true; NodeData.is_clickable := false;
     NodeData.is_editable := false; NodeData.index := None;
     NodeData.depth := 0; NodeData.accessibility := None |}.

Definition scrolled_state : DOMState.t :=
  {| DOMState.root_node_id := 1;
     DOMState.nodes := [(1, tall_node)];
     DOMState.interactive_elements := [];
     DOMState.selector_map := ∅;
     DOMState.url := ""; DOMState.title := "";
     DOMState.viewport_width := 1280; DOMState.viewport_height := 720;
     DOMState.scroll_x := 0%Q; DOMState.scroll_y := 800%Q |}.

(** An empty state that reports a negative viewport height. *)
Definition negative_viewport_state : DOMState.t :=
  {| DOMState.root_node_id := 0;
     DOMState.nodes := [];
     DOMState.interactive_elements := [];
     DOMState.selector_map := ∅;
     DOMState.url := ""; DOMState.title := "";
     DOMState.viewport_width := 1280; DOMState.viewport_height := -720;
     DOMState.scroll_x := 0%Q; DOMState.scroll_y := 800%Q |}.

(** A snapshot, as the driver builds it, of a page at [url] with one
    button per index of [indices]. *)
Definition button (i : Z) : InteractiveElement.t :=
  InteractiveElement.mk i "button" "" ∅ 0 0 10 10 0 false.

Definition snapshot (url : string) (indices : list Z) : BrowserState.t :=
  BrowserState.mk url "" 1280 720 0 0 1280 720 (button <$> indices) None None.

Definition reply (url : string) (indices : list Z) : BrowserSession.DriverReply :=
  BrowserSession.mkDriverReply (inr (snapshot url indices)) (inr ∅).

(** Three successive forced refreshes of a started session. *)
Definition three_refreshes (r1 r2 r3 : BrowserSession.DriverReply)
  : list (Exn + BrowserState.t) :=
  let '(s1, o1) := BrowserSession.get_state BrowserSession.started true r1 in
  let '(s2, o2) := BrowserSession.get_state s1 true r2 in
  let '(s3, o3) := BrowserSession.get_state s2 true r3 in
  [o1; o2; o3].

(** The indices of the elements that a returned state marks as new. *)
Definition marked_new (o : Exn + BrowserState.t) : list Z :=
  match o with
  | inr st =>
      InteractiveElement.index <$>
        filter (fun e => InteractiveElement.is_new e = true)
          (BrowserState.elements st)
  | inl _ => []
  end.

(** Collaborators that never fail: the page does not change, the model
    always replies [content], and the [n]-th call of the registry (counted
    from 0 by the world) returns [tool n]. *)
Definition environment (content : string) (tool : nat -> Exn + ActionResult.t)
  : Environment :=
  {| World := nat;
     browser_get_state := fun _ w => (w, inr (snapshot "https://a" [1]));
     browser_send_keys := fun _ w => (w, inr tt);
     llm_complete := fun w => (w, inr content);
     tools_execute := fun _ _ w => (S w, tool w);
     capture_action_state := fun _ _ _ w => (w, inr tt) |}.

(** A registry whose first call extracts a text and whose later calls
    fail. *)
Definition extract_then_fail (n : nat) : Exn + ActionResult.t :=
  match n with
  | O => inr (ActionResult.mk false None (Some "Price: 5") None None None false)
  | S _ => inl (OtherError "element not found")
  end.

(** A registry whose calls all succeed without ending the task. *)
Definition always_clicked (n : nat) : Exn + ActionResult.t :=
  inr (ActionResult.mk false None (Some "Clicked element 5") None None None false).

(** A page with two buttons; the second one in document order is laid
    out above the first. *)
Definition two_buttons_page : RawNode :=
  raw_document 1
    [raw_element 2 "BUTTON" [] []; raw_element 3 "BUTTON" [] [];
     raw_element 4 "A" ["href"; "/next"] []].

Definition two_buttons_layout : gmap Z SnapshotEntry :=
  {[ 2 := mkSnapshotEntry (Some (DOMRect.mk 10 300 80 20)) None;
     3 := mkSnapshotEntry (Some (DOMRect.mk 10 100 80 20)) None;
     4 := mkSnapshotEntry (Some (DOMRect.mk 200 100 80 20)) None ]}.

Definition two_buttons_state : DOMState.t :=
  (Extract.extract (H := runtime) (Some two_buttons_page) two_buttons_layout ∅
     (DOMExtractor.init 1280 720)).1.

(** A page whose button has not been laid out: it has no layout entry. *)
Definition unplaced_button_state : DOMState.t :=
  (Extract.extract (H := runtime)
     (Some (raw_document 1 [raw_element 2 "BUTTON" [] []])) ∅ ∅
     (DOMExtractor.init 1280 720)).1.

End Fixtures.

(* ===================================================================== *)
(** * Properties                                                          *)
(* ===================================================================== *)

Section ActionResultFacts.
Import ActionResult.

Lemma new_ok_id fields r : new fields = inr r -> r = fields.
Proof.
  unfold new, validate_success_requires_done.
  destruct (success fields) as [[|]|]; [destruct (negb _)|..]; congruence.
Qed.

(** C1 (amended). The validator guards [success = True] only: a
    constructed result has [success = True] only when [is_done] is true,
    constructing with [success = True] and [is_done = False] raises, and
    every other combination, [success = False] with [is_done = False]
    included, is accepted unchanged. *)
Theorem success_true_requires_done (fields : t) :
  (forall r, new fields = inr r -> success r = Some true -> is_done r = true) /\
  (success fields = Some true -> is_done fields = false ->
   exists msg, new fields = inl (ValueError msg)) /\
  (success fields <> Some true -> new fields = inr fields).
Proof.
  unfold new, validate_success_requires_done.
  destruct (success fields) as [[|]|] eqn:Hs; destruct (is_done fields) eqn:Hd;
    simpl; repeat split; try congruence; eauto.
Qed.

End ActionResultFacts.

Lemma success_true_requires_done_witness :
  exists msg,
    ActionResult.new
      (ActionResult.mk false (Some true) None None None None false)
    = inl (ValueError msg).
Proof.
  apply (proj1 (proj2 (success_true_requires_done
    (ActionResult.mk false (Some true) None None None None false))));
    reflexivity.
Defined.

(** C1 as stated fails: a result with [success = False] and
    [is_done = False] is constructed without error. *)
Lemma success_false_without_done_accepted :
  exists r,
    ActionResult.new
      (ActionResult.mk false (Some false) None None None None false) = inr r /\
    ActionResult.success r <> None /\ ActionResult.is_done r = false.
Proof. eexists. split; [reflexivity|]. split; [discriminate|reflexivity]. Qed.

(* --------------------------------------------------------------------- *)
(** ** The tree builder                                                   *)
(* --------------------------------------------------------------------- *)

Section ExtractorFacts.
Context `{Py.Runtime}.
Import DOMExtractor.

(** The consecutive integers [start], [start + 1], ..., [k] of them. *)
Definition zseq (start : Z) (k : nat) : list Z :=
  (fun i => start + Z.of_nat i) <$> seq 0 k.

Lemma zseq_app start k1 k2 :
  zseq start (k1 + k2) = (zseq start k1 ++ zseq (start + Z.of_nat k1) k2)%list.
Proof.
  unfold zseq. rewrite seq_app, fmap_app. f_equal.
  simpl. replace (seq k1 k2) with (Nat.add k1 <$> seq 0 k2)
    by (rewrite fmap_add_seq; f_equal; lia).
  rewrite <- list_fmap_compose.
  apply list_fmap_ext. intros _ i _. simpl. lia.
Qed.

Lemma zseq_lookup start k i x :
  zseq start k !! i = Some x -> x = start + Z.of_nat i /\ (i < k)%nat.
Proof.
  unfold zseq. rewrite list_lookup_fmap. intros Hx.
  destruct (seq 0 k !! i) as [j|] eqn:Hj; simpl in Hx; [|discriminate].
  apply lookup_seq in Hj as [-> Hlt]. injection Hx as <-. split; [reflexivity|lia].
Qed.

Lemma zseq_NoDup start k : NoDup (zseq start k).
Proof.
  unfold zseq. apply NoDup_fmap_2; [|apply NoDup_seq].
  intros i j Hij. lia.
Qed.

Lemma zseq_sorted start k : StronglySorted Z.lt (zseq start k).
Proof.
  revert start. induction k as [|k IH]; intros start; [constructor|].
  change (S k) with (1 + k)%nat. rewrite zseq_app. simpl.
  replace (start + 0) with start by lia.
  constructor; [apply IH|].
  apply Forall_forall. intros x Hx.
  apply list_elem_of_lookup in Hx as [i Hi].
  apply zseq_lookup in Hi. lia.
Qed.

(** An indexed object is an element that is interactive and visible. *)
Definition sound (n : DOMNode.t) : Prop :=
  DOMNode.index n <> None ->
  DOMNode.is_element n = true /\ DOMNode.is_visible n = true /\
  DOMNode.is_interactive n = true.

(** The visibility flag of an object is the one its styles and bounds give. *)
Definition vis_ok (n : DOMNode.t) : Prop :=
  DOMNode.is_visible n =
  determine_visibility (DOMNode.computed_styles n) (DOMNode.bounds n).

(** What a piece of the walk does to the extractor: it creates the objects
    of [visited] in that order, hands out the next [k] indices in creation
    order, and leaves [sound] and [vis_ok] in place. *)
Record walk (st st' : t) (visited : list RawNode) : Prop := {
  walk_ids :
    DOMNode.node_id <$> objects st' =
    ((DOMNode.node_id <$> objects st) ++ omap nodeId visited)%list;
  walk_idx : exists k : nat,
    omap DOMNode.index (objects st') =
    (omap DOMNode.index (objects st) ++ zseq (_interactive_index st) k)%list
    /\ _interactive_index st' = _interactive_index st + Z.of_nat k;
  walk_sound : Forall sound (objects st) -> Forall sound (objects st');
  walk_vis : Forall vis_ok (objects st) -> Forall vis_ok (objects st');
}.

Lemma walk_refl st : walk st st [].
Proof.
  split; [| |done|done].
  - simpl. by rewrite app_nil_r.
  - exists 0%nat. unfold zseq. simpl. rewrite app_nil_r. split; [done|lia].
Qed.

Lemma walk_trans st1 st2 st3 v1 v2 :
  walk st1 st2 v1 -> walk st2 st3 v2 -> walk st1 st3 (v1 ++ v2).
Proof.
  intros [I1 (k1 & X1 & N1) S1 V1] [I2 (k2 & X2 & N2) S2 V2]. split; auto.
  - rewrite I2, I1, omap_app. by rewrite app_assoc.
  - exists (k1 + k2)%nat. rewrite X2, X1, N2, N1, zseq_app. split.
    + by rewrite app_assoc.
    + lia.
Qed.

(** The fields that an assignment after the store leaves alone. *)
Definition core (n : DOMNode.t) :=
  (DOMNode.node_id n, DOMNode.index n, DOMNode.is_visible n,
   DOMNode.node_type n, DOMNode.tag_name n, DOMNode.attributes n,
   DOMNode.bounds n, DOMNode.computed_styles n).

Lemma core_with_links n c d ty s tx :
  core (DOMNode.with_links n c d ty s tx) = core n.
Proof. reflexivity. Qed.

Lemma core_sound n n' : core n = core n' -> sound n -> sound n'.
Proof.
  unfold core, sound, DOMNode.is_element, DOMNode.is_interactive,
    DOMNode.is_element.
  intros [= E1 E2 E3 E4 E5 E6 E7 E8]. rewrite <- E2, <- E3, <- E4, <- E5, <- E6.
  auto.
Qed.

Lemma core_vis_ok n n' : core n = core n' -> vis_ok n -> vis_ok n'.
Proof.
  unfold core, vis_ok. intros [= E1 E2 E3 E4 E5 E6 E7 E8].
  by rewrite <- E3, <- E7, <- E8.
Qed.

Lemma fmap_alter_same {A B} (g : A -> B) (f : A -> A) (a : nat) (l : list A) :
  (forall x, g (f x) = g x) -> g <$> alter f a l = g <$> l.
Proof.
  intros Hg. revert a. induction l as [|x l IH]; intros [|a]; simpl; [done..| |].
  - by rewrite Hg.
  - f_equal. apply IH.
Qed.

Lemma omap_alter_same {A B} (g : A -> option B) (f : A -> A) (a : nat) (l : list A) :
  (forall x, g (f x) = g x) -> omap g (alter f a l) = omap g l.
Proof.
  intros Hg. revert a. induction l as [|x l IH]; intros [|a]; simpl;
    rewrite ?Hg; try reflexivity.
  destruct (g x); [f_equal|]; apply IH.
Qed.

Lemma Forall_alter_same {A} (P : A -> Prop) (f : A -> A) (a : nat) (l : list A) :
  (forall x, P x -> P (f x)) -> Forall P l -> Forall P (alter f a l).
Proof.
  intros HP HF. revert a. induction HF as [|x l Hx HF IH]; intros [|a]; simpl.
  - constructor.
  - constructor.
  - constructor; [by apply HP|done].
  - constructor; [done|apply IH].
Qed.

Lemma walk_write st a f :
  (forall n, core (f n) = core n) -> walk st (write a f st) [].
Proof.
  intros Hf. split; simpl.
  - rewrite app_nil_r. apply fmap_alter_same.
    intros n. by injection (Hf n).
  - exists 0%nat. unfold zseq. simpl. rewrite app_nil_r. split; [|lia].
    apply omap_alter_same. intros n. by injection (Hf n).
  - apply Forall_alter_same. intros n. apply core_sound. by rewrite Hf.
  - apply Forall_alter_same. intros n. apply core_vis_ok. by rewrite Hf.
Qed.

Lemma walk_create_store sl al node node_id bid parent depth st dn st1 a st2 :
  nodeId node = Some node_id ->
  create_node sl al node node_id bid parent depth st = (dn, st1) ->
  store node_id dn st1 = (a, st2) ->
  walk st st2 [node].
Proof.
  intros Hid Hc Hs. unfold create_node in Hc. unfold store in Hs.
  injection Hs as <- <-.
  match type of Hc with (if ?c then _ else _) = _ => destruct c eqn:Hcond end;
    injection Hc as <- <-; simpl.
  - apply andb_prop in Hcond as [Hcond Hv]. apply andb_prop in Hcond as [He Hi].
    split; simpl.
    + by rewrite fmap_app, Hid.
    + exists 1%nat. rewrite omap_app. simpl. unfold zseq. simpl.
      rewrite Z.add_0_r. split; [done|lia].
    + intros HF. apply Forall_app. split; [done|].
      constructor; [|constructor]. intros _. auto.
    + intros HF. apply Forall_app. split; [done|].
      constructor; [|constructor]. reflexivity.
  - split; simpl.
    + by rewrite fmap_app, Hid.
    + exists 0%nat. rewrite omap_app. simpl. unfold zseq. simpl.
      split; [done|lia].
    + intros HF. apply Forall_app. split; [done|].
      constructor; [|constructor]. intros Hn. by destruct Hn.
    + intros HF. apply Forall_app. split; [done|].
      constructor; [|constructor]. reflexivity.
Qed.

Lemma walk_children f cs :
  Forall (fun c => forall st st' r, f c st = (st', r) -> walk st st' (visit_order c)) cs ->
  forall st st' ids, process_children f cs st = (st', ids) ->
  walk st st' (flat_map visit_order cs).
Proof.
  induction 1 as [|c cs Hc _ IH]; intros st st' ids; simpl.
  - intros [= <- _]. apply walk_refl.
  - destruct (f c st) as [st1 r] eqn:E1.
    destruct (process_children f cs st1) as [st2 ids'] eqn:E2.
    intros [= <- _]. eapply walk_trans; eauto.
Qed.

Lemma walk_shadow_roots f a srs :
  Forall (fun c => forall st st' r, f c st = (st', r) -> walk st st' (visit_order c)) srs ->
  forall st, walk st (process_shadow_roots f a srs st) (flat_map visit_order srs).
Proof.
  induction 1 as [|c cs Hc _ IH]; intros st; simpl.
  - apply walk_refl.
  - destruct (f c st) as [st1 r] eqn:E1.
    eapply walk_trans; [|apply IH].
    rewrite <- (app_nil_r (visit_order c)).
    eapply walk_trans; [eauto|].
    destruct r; [|apply walk_refl].
    apply walk_write. reflexivity.
Qed.

Lemma walk_content_document f a cd :
  (forall d, cd = Some d ->
     forall st st' r, f d st = (st', r) -> walk st st' (visit_order d)) ->
  forall st, walk st (process_content_document f a cd st)
    (match cd with Some d => visit_order d | None => [] end).
Proof.
  intros Hd st. destruct cd as [d|]; simpl; [|apply walk_refl].
  destruct (f d st) as [st1 r] eqn:E1.
  rewrite <- (app_nil_r (visit_order d)).
  eapply walk_trans; [eauto|].
  destruct r; [|apply walk_refl].
  apply walk_write. reflexivity.
Qed.

#[local] Opaque create_node store write aggregate_text.

Lemma walk_process_node sl al node :
  forall parent depth st st' r,
  _process_node sl al node parent depth st = (st', r) ->
  walk st st' (visit_order node).
Proof.
  induction node as [node IHc IHd IHs] using RawNode_nested_ind.
  intros parent depth st st' r.
  destruct node as [nid bid ty nm v at_ sc fr srt cs cd srs]. simpl in *.
  destruct nid as [node_id|]; [|intros [= <- _]; apply walk_refl].
  destruct bid as [backend_node_id|]; [|intros [= <- _]; apply walk_refl].
  match goal with |- context [create_node ?a ?b ?c ?d ?e ?f ?g ?h] =>
    destruct (create_node a b c d e f g h) as [dn st1] eqn:Ecreate end.
  destruct (store node_id dn st1) as [a st2] eqn:Estore.
  match goal with |- context [process_children ?f ?l ?s] =>
    destruct (process_children f l s) as [st3 children_ids] eqn:Echildren end.
  intros [= <- _].
  change (?x :: ?l) with ([x] ++ l)%list.
  eapply walk_trans; [eapply walk_create_store; eauto; reflexivity|].
  eapply walk_trans.
  { eapply walk_children; [|exact Echildren].
    eapply Forall_impl; [exact IHc|]. simpl. intros c Hc s s' r'. apply Hc. }
  rewrite <- (app_nil_l (_ ++ _)%list).
  eapply walk_trans;
    [apply (walk_write _ a (DOMNode.set_children_ids children_ids)); reflexivity|].
  eapply walk_trans.
  { apply (walk_content_document
      (fun c s => _process_node sl al c (Some node_id) (depth + 1) s)).
    intros d Hd s s' r'. by apply IHd. }
  rewrite <- (app_nil_r (flat_map _ _)).
  eapply walk_trans.
  { apply (walk_shadow_roots
      (fun c s => _process_node sl al c (Some node_id) (depth + 1) s)).
    eapply Forall_impl; [exact IHs|]. simpl. intros c Hc s s' r'. apply Hc. }
  destruct (DOMNode.is_element dn); [apply walk_write; reflexivity|apply walk_refl].
Qed.

#[local] Transparent create_node store write aggregate_text.

Lemma walk_build_dom_tree sl al root st :
  walk st (_build_dom_tree root sl al st)
    (match root with Some r => visit_order r | None => [] end).
Proof.
  destruct root as [r|]; simpl; [|apply walk_refl].
  destruct (_process_node sl al r None 0 st) as [st' res] eqn:E.
  simpl. eapply walk_process_node, E.
Qed.

Lemma zseq_one k : zseq 1 k = Z.of_nat <$> seq 1 k.
Proof.
  unfold zseq. replace (seq 1 k) with (Nat.add 1 <$> seq 0 k)
    by (rewrite fmap_add_seq; reflexivity).
  rewrite <- list_fmap_compose.
  apply list_fmap_ext. intros _ i _. simpl. lia.
Qed.

Lemma determine_visibility_false styles bounds :
  determine_visibility styles bounds = false <->
  (exists s, styles = Some s /\
     (ComputedStyles.display s = "none" \/
      ComputedStyles.visibility s = "hidden" \/
      exists f, Py.float_of_str (ComputedStyles.opacity s) = Some f /\
                Py.float_le_zero f = true)) \/
  (exists b, bounds = Some b /\
     (DOMRect.width b <= 0 \/ DOMRect.height b <= 0)%Q).
Proof.
  assert (Hstyle : forall s, ComputedStyles.is_visible s = false <->
     (ComputedStyles.display s = "none" \/
      ComputedStyles.visibility s = "hidden" \/
      exists f, Py.float_of_str (ComputedStyles.opacity s) = Some f /\
                Py.float_le_zero f = true)).
  { intros s. unfold ComputedStyles.is_visible.
    destruct (String.eqb_spec (ComputedStyles.display s) "none") as [Hd|Hd];
      [tauto|].
    destruct (String.eqb_spec (ComputedStyles.visibility s) "hidden") as [Hv|Hv];
      [tauto|].
    destruct (Py.float_of_str (ComputedStyles.opacity s)) as [f|].
    - destruct (Py.float_le_zero f) eqn:Hf.
      + split; [|done]. intros _. right. right. by exists f.
      + split; [done|]. intros [?|[?|(f' & [= <-] & Hf')]]; congruence.
    - split; [done|]. intros [?|[?|(f' & [=] & _)]]; congruence. }
  assert (Hbounds : forall b,
     Qle_bool (DOMRect.width b) 0 || Qle_bool (DOMRect.height b) 0 = true <->
     (DOMRect.width b <= 0 \/ DOMRect.height b <= 0)%Q).
  { intros b. rewrite orb_true_iff, !Qle_bool_iff. tauto. }
  unfold determine_visibility.
  destruct bounds as [b|].
  - destruct (Qle_bool (DOMRect.width b) 0 || Qle_bool (DOMRect.height b) 0)
      eqn:Hb.
    + split; [|done]. intros _. right. exists b. split; [done|]. by apply Hbounds.
    + assert (Hnb : ~ (DOMRect.width b <= 0 \/ DOMRect.height b <= 0)%Q).
      { rewrite <- Hbounds. congruence. }
      destruct styles as [s|].
      * destruct (ComputedStyles.is_visible s) eqn:Hs; simpl.
        -- split; [done|]. intros [(s' & [= <-] & Hs')|(b' & [= <-] & Hb')].
           ++ apply Hstyle in Hs'. congruence.
           ++ tauto.
        -- split; [|done]. intros _. left. exists s. split; [done|]. by apply Hstyle.
      * split; [done|]. intros [(s' & [=] & _)|(b' & [= <-] & Hb')]. tauto.
  - destruct styles as [s|].
    + destruct (ComputedStyles.is_visible s) eqn:Hs; simpl.
      * split; [done|]. intros [(s' & [= <-] & Hs')|(b' & [=] & _)].
        apply Hstyle in Hs'. congruence.
      * split; [|done]. intros _. left. exists s. split; [done|]. by apply Hstyle.
    + split; [done|]. intros [(s' & [=] & _)|(b' & [=] & _)].
Qed.

(** C2. In an extraction pass of a fresh extractor the objects are created
    in the order of the depth-first walk (a node, its children in document
    order, its nested document, its shadow roots); read in that order the
    assigned interaction indices are exactly 1, 2, ..., k, hence unique and
    strictly increasing; and every object that has an index is an element
    node that is visible and interactive. *)
Theorem interaction_indices_in_visit_order
    (sl : gmap Z SnapshotEntry) (al : gmap Z AxEntry) (root : option RawNode)
    (vw vh : Z) :
  let st := _build_dom_tree root sl al (init vw vh) in
  DOMNode.node_id <$> objects st =
    omap nodeId (match root with Some r => visit_order r | None => [] end) /\
  (exists k : nat,
     omap DOMNode.index (objects st) = Z.of_nat <$> seq 1 k /\
     _interactive_index st = 1 + Z.of_nat k) /\
  NoDup (omap DOMNode.index (objects st)) /\
  StronglySorted Z.lt (omap DOMNode.index (objects st)) /\
  Forall (fun n => forall i, DOMNode.index n = Some i ->
            DOMNode.is_element n = true /\ DOMNode.is_visible n = true /\
            DOMNode.is_interactive n = true) (objects st).
Proof.
  intros st.
  destruct (walk_build_dom_tree sl al root (init vw vh))
    as [Hids (k & Hidx & Hnext) Hsound _].
  fold st in Hids, Hidx, Hnext, Hsound. simpl in Hids, Hidx, Hnext.
  split; [exact Hids|]. split; [|split; [|split]].
  - exists k. by rewrite Hidx, zseq_one.
  - rewrite Hidx. apply zseq_NoDup.
  - rewrite Hidx. apply zseq_sorted.
  - eapply Forall_impl; [apply Hsound; constructor|].
    intros n Hn i Hi. apply Hn. congruence.
Qed.

(** C5. Every object created by the tree builder has [is_visible = false]
    exactly when its style data says display "none", or visibility
    "hidden", or an opacity that parses to a number at most 0, or when it
    has bounds of non-positive width or height; an object with neither
    style data nor bounds is visible. *)
Theorem is_visible_false_iff
    (sl : gmap Z SnapshotEntry) (al : gmap Z AxEntry) (root : option RawNode)
    (vw vh : Z) :
  Forall (fun n =>
    (DOMNode.is_visible n = false <->
     (exists s, DOMNode.computed_styles n = Some s /\
        (ComputedStyles.display s = "none" \/
         ComputedStyles.visibility s = "hidden" \/
         exists f, Py.float_of_str (ComputedStyles.opacity s) = Some f /\
                   Py.float_le_zero f = true)) \/
     (exists b, DOMNode.bounds n = Some b /\
        (DOMRect.width b <= 0 \/ DOMRect.height b <= 0)%Q)) /\
    (DOMNode.computed_styles n = None -> DOMNode.bounds n = None ->
     DOMNode.is_visible n = true))
    (objects (_build_dom_tree root sl al (init vw vh))).
Proof.
  destruct (walk_build_dom_tree sl al root (init vw vh)) as [_ _ _ Hvis].
  eapply Forall_impl; [apply Hvis; constructor|].
  intros n Hn. unfold vis_ok in Hn. rewrite Hn. split.
  - apply determine_visibility_false.
  - intros -> ->. reflexivity.
Qed.

End ExtractorFacts.

(** Visibility is decided per node: the button inside a [div] with
    display "none" has no style data of its own and receives the index 2. *)
Example hidden_wrapper_indices :
  DOMNode.index <$>
    DOMExtractor.objects
      (DOMExtractor._build_dom_tree (H := Fixtures.runtime)
         (Some Fixtures.hidden_wrapper_page) Fixtures.hidden_wrapper_layout ∅
         (DOMExtractor.init 1280 720))
  = [None; Some 1; None; Some 2].
Proof. vm_compute. reflexivity. Qed.

(* --------------------------------------------------------------------- *)
(** ** The serializer                                                     *)
(* --------------------------------------------------------------------- *)

Section SerializerFacts.
Context `{Py.Runtime}.
Import DOMSerializer.

Lemma length_substring_le n s : (String.length (substring 0 n s) <= n)%nat.
Proof.
  revert s. induction n as [|n IH]; intros [|c s]; simpl; try lia.
  specialize (IH s). lia.
Qed.

Lemma length_slice_to s n :
  0 <= n -> Z.of_nat (String.length (Py.slice_to s n)) <= n.
Proof.
  intros Hn. unfold Py.slice_to.
  destruct (Z.leb_spec 0 n); [|lia].
  pose proof (length_substring_le (Z.to_nat n) s). lia.
Qed.

Lemma calculate_stats_dom_state self :
  dom_state (_calculate_stats self) = dom_state self.
Proof. reflexivity. Qed.

Lemma calculate_stats_max_length self :
  max_length (_calculate_stats self) = max_length self.
Proof. reflexivity. Qed.

(** For a non-negative [max_length] the returned text is never longer than
    [max_length]. *)
Lemma serialize_length_bound self out self' :
  0 <= max_length self ->
  serialize self = inr (out, self') ->
  Z.of_nat (String.length (SerializedDOM.llm_representation out)) <= max_length self.
Proof.
  intros Hmax. unfold serialize.
  destruct (representation (_calculate_stats self)) as [ex|r]; [discriminate|].
  rewrite calculate_stats_max_length.
  destruct (Z.gtb_spec (Z.of_nat (String.length r)) (max_length self));
    intros [= <- _]; simpl.
  - by apply length_slice_to.
  - lia.
Qed.

(** When the text is cut the result holds the first [max_length]
    characters of the uncut text. *)
Lemma serialize_truncates self r :
  representation (_calculate_stats self) = inr r ->
  Z.of_nat (String.length r) > max_length self ->
  exists out self', serialize self = inr (out, self') /\
    SerializedDOM.llm_representation out = Py.slice_to r (max_length self).
Proof.
  intros Hr Hlong. unfold serialize. rewrite Hr, calculate_stats_max_length.
  destruct (Z.gtb_spec (Z.of_nat (String.length r)) (max_length self)); [|lia].
  eauto.
Qed.

(** C4. Two pages that differ only in the text of their one link, both
    serialized with [max_length = 27]: the text of the first fits, the text
    of the second is longer and is cut, and the two calls return the same
    [SerializedDOM]. Nothing in the returned value tells that the second
    text was truncated. *)
Theorem truncation_leaves_no_flag :
  let page txt :=
    (Extract.extract (Some (Fixtures.link_page txt)) Fixtures.link_layout ∅
       (DOMExtractor.init 1280 720)).1 in
  let fits := init (page "") 27 None in
  let cut := init (page "</a>x") 27 None in
  exists r_fits r_cut out self1 self2,
    representation (_calculate_stats fits) = inr r_fits /\
    representation (_calculate_stats cut) = inr r_cut /\
    Z.of_nat (String.length r_fits) <= max_length fits /\
    Z.of_nat (String.length r_cut) > max_length cut /\
    serialize fits = inr (out, self1) /\
    serialize cut = inr (out, self2) /\
    SerializedDOM.llm_representation out = Py.slice_to r_cut 27.
Proof.
  intros page fits cut.
  destruct (representation (_calculate_stats fits)) as [e1|r1] eqn:E1;
    [vm_compute in E1; discriminate|].
  destruct (representation (_calculate_stats cut)) as [e2|r2] eqn:E2;
    [vm_compute in E2; discriminate|].
  vm_compute in E1. vm_compute in E2.
  injection E1 as <-. injection E2 as <-.
  eexists _, _, _, _, _.
  split; [reflexivity|]. split; [reflexivity|].
  split; [vm_compute; discriminate|]. split; [vm_compute; reflexivity|].
  split; [vm_compute; reflexivity|]. split; [vm_compute; reflexivity|].
  vm_compute. reflexivity.
Qed.

Lemma py_max_l a b : (a <= py_max a b)%Q.
Proof.
  unfold py_max. destruct (Qle_bool b a) eqn:E; [apply Qle_refl|].
  apply Qlt_le_weak, Qnot_le_lt. rewrite <- Qle_bool_iff. congruence.
Qed.

Lemma py_max_r a b : (b <= py_max a b)%Q.
Proof.
  unfold py_max. destruct (Qle_bool b a) eqn:E; [|apply Qle_refl].
  by apply Qle_bool_iff.
Qed.

Lemma py_max_cases a b : py_max a b = a \/ py_max a b = b.
Proof. unfold py_max. destruct (Qle_bool b a); auto. Qed.

Lemma Qgt_bool_true a b : Qgt_bool a b = true <-> (b < a)%Q.
Proof.
  unfold Qgt_bool. rewrite negb_true_iff. split.
  - intros E. apply Qnot_le_lt. rewrite <- Qle_bool_iff. congruence.
  - intros Hlt. destruct (Qle_bool a b) eqn:E; [|done].
    apply Qle_bool_iff in E. by apply Qlt_not_le in Hlt.
Qed.

(** The bottom edges [y + height] of the nodes that have bounds. *)
Definition bottoms (self : t) : list Q :=
  omap (fun node_data =>
          (fun b => (DOMRect.y b + DOMRect.height b)%Q)
            <$> NodeData.bounds node_data)
    (Dict.values (DOMState.nodes (dom_state self))).

Definition height_step (max_y : Q) (node_data : NodeData.t) : Q :=
  match NodeData.bounds node_data with
  | Some bounds => py_max max_y (DOMRect.y bounds + DOMRect.height bounds)%Q
  | None => max_y
  end.

Definition bottoms_of (l : list NodeData.t) : list Q :=
  omap (fun node_data =>
          (fun b => (DOMRect.y b + DOMRect.height b)%Q)
            <$> NodeData.bounds node_data) l.

Lemma page_height_fold (l : list NodeData.t) (start : Q) :
  (start <= foldl height_step start l)%Q /\
  Forall (fun b => (b <= foldl height_step start l)%Q) (bottoms_of l) /\
  (foldl height_step start l = start \/ foldl height_step start l ∈ bottoms_of l).
Proof.
  revert start. induction l as [|nd l IH]; intros start; simpl.
  - split; [apply Qle_refl|]. split; [constructor|by left].
  - destruct (IH (height_step start nd)) as (Hge & Hall & Hin).
    assert (Hstep : (start <= height_step start nd)%Q).
    { unfold height_step. destruct (NodeData.bounds nd);
        [apply py_max_l|apply Qle_refl]. }
    split; [eapply Qle_trans; eauto|].
    unfold bottoms_of. simpl. fold (bottoms_of l).
    destruct (NodeData.bounds nd) as [b|] eqn:Eb; simpl.
    + assert (Hb : (DOMRect.y b + DOMRect.height b <= height_step start nd)%Q).
      { unfold height_step. rewrite Eb. apply py_max_r. }
      split; [constructor; [eapply Qle_trans; eauto|exact Hall]|].
      destruct Hin as [Hin|Hin]; [|right; by right].
      rewrite Hin. unfold height_step. rewrite Eb.
      destruct (py_max_cases start (DOMRect.y b + DOMRect.height b))
        as [->| ->]; [by left|right; left].
    + split; [done|].
      destruct Hin as [Hin|Hin]; [left|by right].
      rewrite Hin. unfold height_step. by rewrite Eb.
Qed.

(** The page-height estimate is the maximum of the viewport height and
    the bottom edges. *)
Lemma page_height_is_max self :
  (inject_Z (DOMState.viewport_height (dom_state self)) <= _get_page_height self)%Q /\
  Forall (fun b => (b <= _get_page_height self)%Q) (bottoms self) /\
  (_get_page_height self = inject_Z (DOMState.viewport_height (dom_state self)) \/
   _get_page_height self ∈ bottoms self).
Proof. apply page_height_fold. Qed.

Lemma serialize_paging self out self' :
  serialize self = inr (out, self') ->
  SerializedDOM.pages_above out = pages_above_of self /\
  SerializedDOM.pages_below out = pages_below_of self /\
  SerializedDOM.has_content_above out = Qgt_bool (pages_above_of self) (1 # 10) /\
  SerializedDOM.has_content_below out = Qgt_bool (pages_below_of self) (1 # 10).
Proof.
  unfold serialize.
  destruct (representation (_calculate_stats self)) as [ex|r]; [discriminate|].
  destruct (Z.of_nat (String.length r) >? max_length (_calculate_stats self));
    intros [= <- _]; simpl; auto.
Qed.

(** C9 (amended). For every serialization that returns: the page height
    is the maximum of the viewport height and the bottom edges of the nodes
    that have bounds; with a positive viewport height, [pages_above] is
    [scroll_y / viewport_height] and [pages_below] is the larger of 0 and
    [(page_height - scroll_y - viewport_height) / viewport_height]; with a
    viewport height of 0 or less both are 0; each flag is true exactly when
    its figure exceeds 1/10; and scroll 800, viewport 720, page height 2000
    give 10/9 (about 1.11) and 2/3 (about 0.67) with both flags true. *)
Theorem paging_figures (self : t) (out : SerializedDOM.t) (self' : t) :
  serialize self = inr (out, self') ->
  let vh := DOMState.viewport_height (dom_state self) in
  let sy := DOMState.scroll_y (dom_state self) in
  let ph := _get_page_height self in
  ((inject_Z vh <= ph)%Q /\ Forall (fun b => (b <= ph)%Q) (bottoms self) /\
   (ph = inject_Z vh \/ ph ∈ bottoms self)) /\
  (0 < vh ->
   SerializedDOM.pages_above out = (sy / inject_Z vh)%Q /\
   SerializedDOM.pages_below out =
     py_max 0 ((ph - sy - inject_Z vh) / inject_Z vh)%Q) /\
  (vh <= 0 ->
   SerializedDOM.pages_above out = 0%Q /\ SerializedDOM.pages_below out = 0%Q /\
   SerializedDOM.has_content_above out = false /\
   SerializedDOM.has_content_below out = false) /\
  (SerializedDOM.has_content_above out = true <->
   (1 # 10 < SerializedDOM.pages_above out)%Q) /\
  (SerializedDOM.has_content_below out = true <->
   (1 # 10 < SerializedDOM.pages_below out)%Q) /\
  (vh = 720 -> (sy == 800)%Q -> (ph == 2000)%Q ->
   (SerializedDOM.pages_above out == 10 # 9)%Q /\
   (SerializedDOM.pages_below out == 2 # 3)%Q /\
   SerializedDOM.has_content_above out = true /\
   SerializedDOM.has_content_below out = true).
Proof.
  intros Hser vh sy ph.
  destruct (serialize_paging _ _ _ Hser) as (Ha & Hb & Hfa & Hfb).
  split; [apply page_height_is_max|].
  assert (Hpos : 0 < vh ->
    SerializedDOM.pages_above out = (sy / inject_Z vh)%Q /\
    SerializedDOM.pages_below out =
      py_max 0 ((ph - sy - inject_Z vh) / inject_Z vh)%Q).
  { intros Hvh. rewrite Ha, Hb. unfold pages_above_of, pages_below_of.
    fold vh sy ph. destruct (Z.ltb_spec 0 vh); [done|lia]. }
  split; [exact Hpos|]. split; [|split; [|split]].
  - intros Hvh. rewrite Hfa, Hfb, Ha, Hb. unfold pages_above_of, pages_below_of.
    fold vh. destruct (Z.ltb_spec 0 vh); [lia|done].
  - rewrite Hfa, Ha. apply Qgt_bool_true.
  - rewrite Hfb, Hb. apply Qgt_bool_true.
  - intros Hvh Hsy Hph.
    assert (Hvh' : 0 < vh) by lia.
    destruct (Hpos Hvh') as [Ea Eb].
    assert (Qa : (SerializedDOM.pages_above out == 10 # 9)%Q).
    { rewrite Ea, Hvh, Hsy. reflexivity. }
    assert (Qx : ((ph - sy - inject_Z vh) / inject_Z vh == 2 # 3)%Q).
    { rewrite Hvh, Hsy, Hph. reflexivity. }
    assert (Qb : (SerializedDOM.pages_below out == 2 # 3)%Q).
    { rewrite Eb. unfold py_max.
      destruct (Qle_bool _ 0) eqn:E; [|exact Qx].
      apply Qle_bool_iff in E. rewrite Qx in E. by apply Qle_not_lt in E. }
    split; [exact Qa|]. split; [exact Qb|].
    rewrite Hfa, Hfb, <- Ha, <- Hb. split; apply Qgt_bool_true.
    + rewrite Qa. reflexivity.
    + rewrite Qb. reflexivity.
Qed.

End SerializerFacts.

Lemma paging_figures_witness :
  let self := DOMSerializer.init Fixtures.scrolled_state 40000 None in
  exists out self',
    DOMSerializer.serialize (H := Fixtures.runtime) self = inr (out, self') /\
    (SerializedDOM.pages_above out == 10 # 9)%Q /\
    (SerializedDOM.pages_below out == 2 # 3)%Q /\
    SerializedDOM.has_content_above out = true /\
    SerializedDOM.has_content_below out = true.
Proof.
  intros self.
  destruct (DOMSerializer.serialize (H := Fixtures.runtime) self)
    as [ex|[out self']] eqn:E; [vm_compute in E; discriminate|].
  exists out, self'. split; [reflexivity|].
  apply (paging_figures (H := Fixtures.runtime) self out self' E);
    vm_compute; reflexivity.
Defined.

(** C9 as stated fails where the viewport height is not positive: with
    scroll 800 and viewport height -720 the quotient is -10/9, and the
    serializer reports 0 pages above. *)
Lemma paging_guard_counterexample :
  let self := DOMSerializer.init Fixtures.negative_viewport_state 40000 None in
  exists out self',
    DOMSerializer.serialize (H := Fixtures.runtime) self = inr (out, self') /\
    ~ (SerializedDOM.pages_above out ==
       DOMState.scroll_y (DOMSerializer.dom_state self) /
       inject_Z (DOMState.viewport_height (DOMSerializer.dom_state self)))%Q.
Proof.
  intros self.
  destruct (DOMSerializer.serialize (H := Fixtures.runtime) self)
    as [ex|[out self']] eqn:E; [vm_compute in E; discriminate|].
  exists out, self'. split; [reflexivity|].
  vm_compute in E. injection E as <- _. vm_compute. discriminate.
Qed.


(* --------------------------------------------------------------------- *)
(** ** New-element marking                                                *)
(* --------------------------------------------------------------------- *)

(** [mark_new_elements] itself compares with the state it is given. *)
Lemma mark_new_elements_spec (self previous : BrowserState.t) :
  BrowserState.url self = BrowserState.url previous ->
  BrowserState.elements (BrowserState.mark_new_elements self (Some previous)) =
  (fun e => InteractiveElement.set_is_new
     (bool_decide (InteractiveElement.index e ∉
        (InteractiveElement.index <$> BrowserState.elements previous))) e)
    <$> BrowserState.elements self.
Proof.
  intros Hurl. unfold BrowserState.mark_new_elements.
  rewrite Hurl, String.eqb_refl. simpl.
  apply list_fmap_ext. intros _ e _. f_equal.
  apply bool_decide_ext. by rewrite elem_of_list_to_set.
Qed.

Lemma mark_new_elements_other_url (self previous : BrowserState.t) :
  BrowserState.url self <> BrowserState.url previous ->
  BrowserState.mark_new_elements self (Some previous) = self.
Proof.
  intros Hurl. unfold BrowserState.mark_new_elements.
  destruct (String.eqb_spec (BrowserState.url self) (BrowserState.url previous));
    [contradiction|reflexivity].
Qed.

(** C3. [get_state] hands [mark_new_elements] the state stored in
    [_previous_state], which at that moment is the snapshot before the
    immediately preceding one. On the same URL, with snapshots holding
    the indices [1], then [1, 2], then [1, 2]: the second state marks
    nothing new although 2 was absent from the first, and the third marks
    2 as new although 2 is present in the second. With URLs a, b, a and
    index 2 only in the third, 2 is marked new although the URL differs
    from that of the preceding snapshot. *)
Theorem new_marks_compare_two_snapshots_back :
  Fixtures.marked_new <$>
    Fixtures.three_refreshes
      (Fixtures.reply "https://a" [1]) (Fixtures.reply "https://a" [1; 2])
      (Fixtures.reply "https://a" [1; 2])
  = [[]; []; [2]]
  /\
  Fixtures.marked_new <$>
    Fixtures.three_refreshes
      (Fixtures.reply "https://a" [1]) (Fixtures.reply "https://b" [1])
      (Fixtures.reply "https://a" [1; 2])
  = [[]; []; [2]].
Proof. split; vm_compute; reflexivity. Qed.


(* --------------------------------------------------------------------- *)
(** ** The step loop of [Agent]                                           *)
(* --------------------------------------------------------------------- *)

Section AgentFacts.
Context `{Py.Runtime} `{Environment}.
Import Agent.

Lemma execute_loop_empty_entries actions results w :
  Forall (fun a => a = []) actions ->
  execute_loop actions results w = (w, results).
Proof. induction 1 as [|a l -> _ IH]; simpl; [reflexivity|exact IH]. Qed.

Lemma list_slice_to_Forall {A} (P : A -> Prop) (l : list A) (n : Z) :
  Forall P l -> Forall P (Py.list_slice_to l n).
Proof. intros Hl. unfold Py.list_slice_to. destruct (0 <=? n); by apply Forall_take. Qed.

(** The loop never runs out of the fuel that [run] gives it. *)
Lemma run_loop_fuel fuel max_steps self w :
  max_steps <= AgentState.n_steps (state self) + Z.of_nat fuel ->
  run_loop fuel max_steps self w <> OutOfFuel.
Proof.
  revert self w. induction fuel as [|fuel IH]; intros self w Hfuel; simpl.
  - destruct (Z.ltb_spec (AgentState.n_steps (state self)) max_steps); [lia|].
    rewrite andb_false_r. discriminate.
  - destruct (negb _ && _); [|discriminate].
    unfold loop_body.
    destruct (AgentState.is_stopped (state self)); [discriminate|].
    destruct (AgentState.is_paused (state self)); [discriminate|].
    destruct (_execute_step self w) as [[w' self'] r] eqn:Estep.
    assert (Hn : AgentState.n_steps (state self') = AgentState.n_steps (state self)).
    { unfold _execute_step in Estep.
      destruct (browser_get_state true w) as [w1 [e|bs]]; [by injection Estep as <- <- <-|].
      destruct (llm_complete w1) as [w2 [e|content]]; [by injection Estep as <- <- <-|].
      destruct (_parse_response content) as [e|out]; [by injection Estep as <- <- <-|].
      destruct (_execute_actions self (AgentOutput.action out) w2) as [w3 results].
      unfold record_step in Estep. injection Estep as <- <- <-. simpl.
      destruct (head _); destruct (negb _); reflexivity. }
    destruct r as [e|[]].
    + destruct (_ >=? _); [discriminate|]. apply IH. simpl. lia.
    + apply IH. simpl. lia.
Qed.

(** C6. A step in which the state refresh and the model call return and
    the reply decodes to an object whose action list is empty (or absent):
    [_parse_response] raises [LLMResponseError], which is recoverable;
    [_execute_step] lets it through without touching the agent; the loop
    body adds exactly 1 to [consecutive_failures] and raises
    [MaxFailuresReachedError] exactly when the new count has reached
    [max_failures]; otherwise it goes on with the next step. *)
Theorem zero_actions_counts_one_failure
    (self : t) (w w1 w2 : World) (browser_state : BrowserState.t)
    (content : string) (data : list (string * Py.JSON)) (fuel : nat)
    (max_steps : Z) :
  browser_get_state true w = (w1, inr browser_state) ->
  llm_complete w1 = (w2, inr content) ->
  Py.json_loads content = Some (Py.JDict data) ->
  default (Py.JList []) (Py.dict_get "action" data) = Py.JList [] ->
  AgentState.is_stopped (state self) = false ->
  AgentState.is_paused (state self) = false ->
  AgentState.is_done (state self) = false ->
  AgentState.n_steps (state self) < max_steps ->
  let failures := AgentState.consecutive_failures (state self) + 1 in
  let counted :=
    with_state (AgentState.set_consecutive_failures failures (state self)) self in
  let next :=
    with_state (AgentState.set_n_steps (AgentState.n_steps (state self) + 1)
                  (state counted)) counted in
  exists msg,
    _parse_response content = inl (LLMResponseError msg) /\
    recoverable (LLMResponseError msg) = Some true /\
    _execute_step self w = (w2, self, inl (LLMResponseError msg)) /\
    AgentState.consecutive_failures (state counted) =
      AgentState.consecutive_failures (state self) + 1 /\
    (AgentSettings.max_failures (settings self) <= failures ->
     loop_body self w =
       Raise (MaxFailuresReachedError (AgentSettings.max_failures (settings self)))
         counted w2 /\
     run_loop (S fuel) max_steps self w =
       Raised (MaxFailuresReachedError (AgentSettings.max_failures (settings self)))
         counted w2) /\
    (failures < AgentSettings.max_failures (settings self) ->
     loop_body self w = Continue next w2 /\
     run_loop (S fuel) max_steps self w = run_loop fuel max_steps next w2).
Proof.
  intros Hbs Hllm Hjson Hact Hstop Hpause Hdone Hsteps failures counted next.
  assert (Hparse : _parse_response content =
    inl (LLMResponseError "Failed to parse response: No actions in response")).
  { unfold _parse_response. rewrite Hjson, Hact. reflexivity. }
  assert (Hstep : _execute_step self w =
    (w2, self, inl (LLMResponseError "Failed to parse response: No actions in response"))).
  { unfold _execute_step. by rewrite Hbs, Hllm, Hparse. }
  assert (Hcond : negb (AgentState.is_done (state self)) &&
                  (AgentState.n_steps (state self) <? max_steps) = true).
  { rewrite Hdone. simpl. by apply Z.ltb_lt. }
  eexists. split; [exact Hparse|]. split; [reflexivity|]. split; [exact Hstep|].
  split; [reflexivity|]. split.
  - intros Hmax.
    assert (Hbody : loop_body self w =
      Raise (MaxFailuresReachedError (AgentSettings.max_failures (settings self)))
        counted w2).
    { unfold loop_body. rewrite Hstop, Hpause, Hstep. simpl.
      fold failures. destruct (Z.geb_spec failures
        (AgentSettings.max_failures (settings self))); [reflexivity|lia]. }
    split; [exact Hbody|]. simpl. by rewrite Hcond, Hbody.
  - intros Hmax.
    assert (Hbody : loop_body self w = Continue next w2).
    { unfold loop_body. rewrite Hstop, Hpause, Hstep. simpl.
      fold failures. destruct (Z.geb_spec failures
        (AgentSettings.max_failures (settings self))); [lia|reflexivity]. }
    split; [exact Hbody|]. simpl. by rewrite Hcond, Hbody.
Qed.

(** C10. A step whose parsed action list holds only empty objects, a
    non-empty such list in particular: [_execute_actions] calls no
    collaborator and returns
    the single default [ActionResult], which has no error and
    [is_done = False]; the step is recorded, returns normally and leaves
    [consecutive_failures] at 0 and [is_done] as it was. *)
Theorem empty_entries_step_resets_failures
    (self : t) (w w1 w2 : World) (browser_state : BrowserState.t)
    (content : string) (agent_output : AgentOutput.t) :
  browser_get_state true w = (w1, inr browser_state) ->
  llm_complete w1 = (w2, inr content) ->
  _parse_response content = inr agent_output ->
  Forall (fun a => a = []) (AgentOutput.action agent_output) ->
  _execute_actions self (AgentOutput.action agent_output) w2 =
    (w2, [ActionResult.default]) /\
  ActionResult.error ActionResult.default = None /\
  ActionResult.is_done ActionResult.default = false /\
  exists self',
    _execute_step self w = (w2, self', inr tt) /\
    AgentState.consecutive_failures (state self') = 0 /\
    AgentState.is_done (state self') = AgentState.is_done (state self) /\
    AgentState.success (state self') = AgentState.success (state self) /\
    history self' =
      (history self ++
       [AgentHistory.mk (Some agent_output) [ActionResult.default]
          (Some (BrowserState.url browser_state))
          (Some (BrowserState.title browser_state))])%list.
Proof.
  intros Hbs Hllm Hparse Hall.
  assert (Hexec : _execute_actions self (AgentOutput.action agent_output) w2 =
    (w2, [ActionResult.default])).
  { unfold _execute_actions.
    rewrite execute_loop_empty_entries by (by apply list_slice_to_Forall).
    reflexivity. }
  split; [exact Hexec|]. split; [reflexivity|]. split; [reflexivity|].
  eexists. split.
  - unfold _execute_step. rewrite Hbs, Hllm, Hparse, Hexec. reflexivity.
  - simpl. auto.
Qed.

(** C7 (amended). When the loop of [run] ends with the step count at
    [max_steps] and no terminal action, and the final state query returns,
    [run] returns without raising; the agent is done with
    [success = False]; the history gains one entry whose single result is
    terminal, unsuccessful, and carries a non-empty text: the extracted
    content of the last result of the last recorded step when that is
    non-empty, otherwise the fallback text. *)
Theorem forced_completion_at_max_steps
    (self final : t) (max_steps_arg : option Z) (w w1 w2 : World)
    (browser_state : BrowserState.t) :
  let max_steps := effective_max_steps self max_steps_arg in
  run_loop (Z.to_nat max_steps) max_steps
    (with_state (AgentState.set_n_steps 0 (state self)) self) w
    = Returned final w1 ->
  max_steps <= AgentState.n_steps (state final) ->
  AgentState.is_done (state final) = false ->
  browser_get_state false w1 = (w2, inr browser_state) ->
  exists (done_result : ActionResult.t) (final' : t),
    run self max_steps_arg w = Returned final' w2 /\
    AgentState.is_done (state final') = true /\
    AgentState.success (state final') = Some false /\
    history final' =
      (history final ++
       [AgentHistory.mk None [done_result]
          (Some (BrowserState.url browser_state))
          (Some (BrowserState.title browser_state))])%list /\
    ActionResult.is_done done_result = true /\
    ActionResult.success done_result = Some false /\
    ActionResult.extracted_content done_result =
      Some (completion_text (history final)) /\
    completion_text (history final) <> "" /\
    (forall text,
       AgentHistoryList.final_result (history final) = Some text ->
       text <> "" -> completion_text (history final) = text) /\
    (AgentHistoryList.final_result (history final) = None \/
     AgentHistoryList.final_result (history final) = Some "" ->
     completion_text (history final) = "Task incomplete - max steps reached").
Proof.
  intros max_steps Hloop Hmax Hdone Hbs.
  eexists _, _. split.
  - unfold run. fold max_steps. rewrite Hloop, Hdone.
    destruct (Z.geb_spec (AgentState.n_steps (state final)) max_steps); [|lia].
    simpl. unfold _force_completion. rewrite Hbs. simpl. reflexivity.
  - simpl. repeat split.
    + unfold completion_text.
      destruct (AgentHistoryList.final_result (history final)) as [[|c text]|];
        simpl; discriminate.
    + intros text Htext Hne. unfold completion_text. rewrite Htext.
      destruct text; [contradiction|reflexivity].
    + unfold completion_text. intros [-> | ->]; reflexivity.
Qed.

End AgentFacts.

Lemma zero_actions_counts_one_failure_witness :
  let env := Fixtures.environment "no actions" Fixtures.always_clicked in
  let self := Agent.init AgentSettings.default in
  exists msg,
    Agent._execute_step (H := Fixtures.runtime) (H0 := env) self 0%nat
      = (0%nat, self, inl (LLMResponseError msg)) /\
    Agent.run_loop (H := Fixtures.runtime) (H0 := env) 1 100 self 0%nat
      = Agent.run_loop (H := Fixtures.runtime) (H0 := env) 0 100
          (Agent.with_state
             (AgentState.mk 1 1 None None false false false None) self) 0%nat.
Proof.
  intros env self.
  destruct (@zero_actions_counts_one_failure Fixtures.runtime env self
              0%nat 0%nat 0%nat (Fixtures.snapshot "https://a" [1])
              "no actions"
              [("thinking", Py.JStr "stuck"); ("action", Py.JList [])]
              0%nat 100
              eq_refl eq_refl eq_refl eq_refl eq_refl eq_refl eq_refl eq_refl)
    as (msg & _ & _ & Hstep & _ & _ & Hgo).
  exists msg. split; [exact Hstep|].
  apply Hgo. reflexivity.
Defined.

Lemma empty_entries_step_resets_failures_witness :
  let env := Fixtures.environment "empty entries" Fixtures.always_clicked in
  let self :=
    Agent.with_state (AgentState.mk 3 2 None None false false false None)
      (Agent.init AgentSettings.default) in
  exists self',
    Agent._execute_step (H := Fixtures.runtime) (H0 := env) self 0%nat
      = (0%nat, self', inr tt) /\
    AgentState.consecutive_failures (Agent.state self') = 0.
Proof.
  intros env self.
  destruct (@empty_entries_step_resets_failures Fixtures.runtime env self
              0%nat 0%nat 0%nat (Fixtures.snapshot "https://a" [1])
              "empty entries" (AgentOutput.mk None None None None [[]; []])
              eq_refl eq_refl eq_refl
              ltac:(repeat constructor))
    as (_ & _ & _ & self' & Hstep & Hzero & _).
  exists self'. split; [exact Hstep|exact Hzero].
Defined.

Lemma forced_completion_at_max_steps_witness :
  let env := Fixtures.environment "extract" Fixtures.extract_then_fail in
  let self :=
    Agent.init (AgentSettings.mk 4 3 2) in
  exists final w,
    Agent.run (H := Fixtures.runtime) (H0 := env) self None 0%nat
      = Agent.Returned final w /\
    AgentState.is_done (Agent.state final) = true /\
    AgentState.success (Agent.state final) = Some false.
Proof.
  intros env self.
  destruct (Agent.run_loop (H := Fixtures.runtime) (H0 := env) 2 2
              (Agent.with_state (AgentState.set_n_steps 0 (Agent.state self)) self)
              0%nat) as [final w1| | |] eqn:Eloop;
    try (vm_compute in Eloop; discriminate).
  destruct (@forced_completion_at_max_steps Fixtures.runtime env self final None
              0%nat w1 w1 (Fixtures.snapshot "https://a" [1]) Eloop)
    as (done_result & final' & Hrun & Hdone & Hsucc & _).
  - vm_compute in Eloop. injection Eloop as <- <-. vm_compute. discriminate.
  - vm_compute in Eloop. injection Eloop as <- <-. reflexivity.
  - reflexivity.
  - exists final', w1. auto.
Defined.

(** C7 as stated fails: with a step budget of 2, a first step that
    extracts "Price: 5" and a second step whose action fails, the history
    holds an extracted content, and the final result carries the fallback
    text. *)
Lemma forced_completion_ignores_earlier_content :
  let env := Fixtures.environment "extract" Fixtures.extract_then_fail in
  let self := Agent.init (AgentSettings.mk 4 3 2) in
  exists final w,
    Agent.run (H := Fixtures.runtime) (H0 := env) self None 0%nat
      = Agent.Returned final w /\
    AgentHistoryList.extracted_content (removelast (Agent.history final))
      = ["Price: 5"] /\
    AgentHistoryList.final_result (Agent.history final)
      = Some "Task incomplete - max steps reached".
Proof.
  intros env self.
  destruct (Agent.run (H := Fixtures.runtime) (H0 := env) self None 0%nat)
    as [final w| | |] eqn:Erun; try (vm_compute in Erun; discriminate).
  exists final, w. split; [reflexivity|].
  vm_compute in Erun. injection Erun as <- <-. split; reflexivity.
Qed.

(* --------------------------------------------------------------------- *)
(** ** The loop detection of [TutorialAgent]                              *)
(* --------------------------------------------------------------------- *)

Section TutorialFacts.
Context `{Py.Runtime} `{Environment}.
Import TutorialAgent.

Lemma count_replicate self (action_sig : string) (k : nat) :
  _recent_actions self = replicate k action_sig ->
  _count_repeated_actions self action_sig = Z.of_nat k.
Proof.
  intros Hrecent. unfold _count_repeated_actions. rewrite Hrecent. f_equal.
  clear Hrecent. induction k as [|k IH]; simpl; [reflexivity|].
  rewrite filter_cons_True by reflexivity. simpl. by rewrite IH.
Qed.

Lemma track_replicate (action_sig : string) (k : nat) :
  (k < 10)%nat ->
  track action_sig (replicate k action_sig) = replicate (S k) action_sig.
Proof.
  intros Hk. unfold track. rewrite <- replicate_S_end.
  rewrite length_replicate.
  destruct (Nat.ltb_spec 10 (S k)); [lia|reflexivity].
Qed.

(** The window never holds more than ten signatures. *)
Lemma track_window (action_sig : string) (recent : list string) :
  (length recent <= 10)%nat -> (length (track action_sig recent) <= 10)%nat.
Proof.
  intros Hlen. unfold track.
  destruct (Nat.ltb_spec 10 (length (recent ++ [action_sig]))) as [Hlt|Hge].
  - rewrite length_app in Hlt. simpl in Hlt.
    destruct recent as [|a recent]; simpl in *; [lia|].
    rewrite length_app. simpl. lia.
  - exact Hge.
Qed.

(** A proposal whose signature is already [threshold + 2] times in the
    window is not executed: after the Escape key the loop appends the
    terminal result and breaks. *)
Lemma stuck_action_not_executed self agent_output w action_name params more rest :
  Py.list_slice_to (AgentOutput.action agent_output) 4
    = ((action_name, params) :: more) :: rest ->
  0 <= _max_repeated_actions self ->
  _max_repeated_actions self + 2
    <= _count_repeated_actions self (signature action_name params) ->
  _execute_and_capture_actions self agent_output w =
    ((browser_send_keys "Escape" w).1, self, [stuck_result]).
Proof.
  intros Hact Hpos Hcount. unfold _execute_and_capture_actions.
  rewrite Hact. simpl. unfold _is_action_repeated.
  destruct (Z.geb_spec (_count_repeated_actions self (signature action_name params))
              (_max_repeated_actions self)); [|lia].
  destruct (Z.geb_spec (_count_repeated_actions self (signature action_name params))
              (_max_repeated_actions self + 2)); [|lia].
  reflexivity.
Qed.

Lemma record_step_not_done agent_output results browser_state state history :
  Forall (fun r => ActionResult.is_done r = false) results ->
  let '(state', history') :=
    Agent.record_step agent_output results browser_state state history in
  AgentState.is_done state' = AgentState.is_done state /\
  AgentState.is_stopped state' = AgentState.is_stopped state /\
  AgentState.n_steps state' = AgentState.n_steps state.
Proof.
  intros Hnot. unfold Agent.record_step.
  assert (Hfilter : filter (fun r => ActionResult.is_done r = true) results = []).
  { induction Hnot as [|r l Hr _ IH]; [reflexivity|].
    rewrite filter_cons_False by congruence. exact IH. }
  rewrite Hfilter. simpl. destruct (negb _); auto.
Qed.

Section StuckRun.
Context (action_name : string) (params : Py.JSON)
  (more : list (string * Py.JSON)) (content : string)
  (agent_output : AgentOutput.t).
Context (Hbs : forall w, exists w' browser_state,
           browser_get_state true w = (w', inr browser_state)).
Context (Hllm : forall w, exists w', llm_complete w = (w', inr content)).
Context (Hparse : _parse_response content = inr agent_output).
Context (Hact : AgentOutput.action agent_output = [(action_name, params) :: more]).
Context (Htool : forall w w' r,
           tools_execute action_name params w = (w', inr r) ->
           ActionResult.is_done r = false).

(** The agent has tracked [k] proposals of the signature and nothing
    else, and is still running in step [n]. *)
Definition tracking (k : nat) (n : Z) (self : t) : Prop :=
  _recent_actions self = replicate k (signature action_name params) /\
  _max_repeated_actions self = 2 /\
  AgentState.is_done (state self) = false /\
  AgentState.is_stopped (state self) = false /\
  AgentState.n_steps (state self) = n.

Lemma on_exception_not_done e results :
  Forall (fun r => ActionResult.is_done r = false) results ->
  Forall (fun r => ActionResult.is_done r = false) (on_exception e results).1 /\
  (on_exception e results).1 <> [].
Proof.
  intros Hres. unfold on_exception. destruct (_ || _); simpl.
  - split; [apply Forall_app; split; [done|by constructor]|].
    by destruct results.
  - split; [apply Forall_app; split; [done|by constructor]|].
    by destruct results.
Qed.

Lemma capture_tracks k self w :
  (k < 4)%nat ->
  _recent_actions self = replicate k (signature action_name params) ->
  _max_repeated_actions self = 2 ->
  exists w' results,
    _execute_and_capture_actions self agent_output w =
      (w', with_recent (replicate (S k) (signature action_name params)) self,
       results) /\
    Forall (fun r => ActionResult.is_done r = false) results.
Proof.
  intros Hk Hrecent Hthreshold. unfold _execute_and_capture_actions.
  rewrite Hact. change (Py.list_slice_to [?a] 4) with [a]. simpl.
  unfold _is_action_repeated. rewrite (count_replicate _ _ k Hrecent), Hthreshold.
  assert (Hgive : (Z.of_nat k >=? 2 + 2) = false).
  { destruct (Z.geb_spec (Z.of_nat k) (2 + 2)); [lia|reflexivity]. }
  rewrite Hgive, Hrecent, track_replicate by lia.
  assert (Hdefault : ActionResult.is_done ActionResult.default = false)
    by reflexivity.
  assert (Herror : forall e, ActionResult.is_done (error_result e) = false)
    by reflexivity.
  destruct (Z.of_nat k >=? 2); simpl;
    (destruct (tools_execute _ _ _) as [w2 [e|result]] eqn:Etool; simpl;
     [unfold on_exception; destruct (_ || _); simpl;
      eexists _, _; (split; [reflexivity|]); repeat constructor
     |]);
    (pose proof (Htool _ _ _ Etool) as Hresult;
     destruct (capture_action_state _ _ _ _) as [w3 [e|[]]]; simpl;
     [unfold on_exception; destruct (_ || _); simpl;
      eexists _, _; (split; [reflexivity|]); repeat constructor; done
     |destruct (stops_step result);
      eexists _, _; (split; [reflexivity|]); repeat constructor; done]).
Qed.

Lemma step_tracks k n self w :
  (k < 4)%nat -> tracking k n self ->
  exists w' self',
    _execute_step self w = (w', self', inr tt) /\
    tracking (S k) n self' /\
    max_steps self' = max_steps self /\
    max_failures self' = max_failures self.
Proof.
  intros Hk (Hrecent & Hthreshold & Hdone & Hstop & Hn).
  unfold _execute_step.
  destruct (Hbs w) as (w1 & browser_state & ->).
  destruct (Hllm w1) as (w2 & ->). rewrite Hparse.
  destruct (capture_tracks k self w2 Hk Hrecent Hthreshold)
    as (w3 & results & -> & Hresults).
  pose proof (record_step_not_done agent_output results browser_state
                (state (with_recent (replicate (S k) (signature action_name params)) self))
                (history (with_recent (replicate (S k) (signature action_name params)) self))
                Hresults) as Hrec.
  destruct (Agent.record_step _ _ _ _ _) as [state' history'].
  destruct Hrec as (Hd & Hs & Hsteps). simpl in Hd, Hs, Hsteps.
  eexists _, _. split; [reflexivity|]. unfold tracking. simpl.
  repeat split; congruence.
Qed.

Lemma step_gives_up n self w :
  tracking 4 n self ->
  exists w' self',
    _execute_step self w = (w', self', inr tt) /\
    AgentState.is_done (state self') = true /\
    AgentState.success (state self') = Some false /\
    AgentState.n_steps (state self') = n /\
    (AgentHistory.results <$> last (history self')) = Some [stuck_result] /\
    _recent_actions self' = replicate 4 (signature action_name params) /\
    max_steps self' = max_steps self.
Proof.
  intros (Hrecent & Hthreshold & Hdone & Hstop & Hn).
  unfold _execute_step.
  destruct (Hbs w) as (w1 & browser_state & ->).
  destruct (Hllm w1) as (w2 & ->). rewrite Hparse.
  rewrite (stuck_action_not_executed self agent_output w2 action_name params more []).
  - simpl. eexists _, _. split; [reflexivity|]. simpl.
    rewrite last_snoc. simpl. repeat split; try done.
  - by rewrite Hact.
  - lia.
  - rewrite (count_replicate _ _ 4 Hrecent), Hthreshold. lia.
Qed.

(** From [k] tracked proposals the loop takes [4 - k] further steps that
    execute the action and one step that gives up. *)
Lemma main_loop_stuck (m : nat) :
  forall (k : nat) (n : Z) (self : t) (w : World) (fuel : nat),
  (k + m = 4)%nat -> tracking k n self ->
  n + Z.of_nat m + 1 <= max_steps self -> (m + 1 <= fuel)%nat ->
  exists final w',
    main_loop fuel self w = Returned false final w' /\
    AgentState.is_done (state final) = true /\
    AgentState.success (state final) = Some false /\
    AgentState.n_steps (state final) = n + Z.of_nat m + 1 /\
    (AgentHistory.results <$> last (history final)) = Some [stuck_result] /\
    _recent_actions final = replicate 4 (signature action_name params).
Proof.
  induction m as [|m IH]; intros k n self w fuel Hkm Htrack Hsteps Hfuel.
  - assert (k = 4%nat) as -> by lia.
    destruct fuel as [|fuel]; [lia|].
    destruct (step_gives_up n self w Htrack)
      as (w' & self' & Hstep & Hd & Hs & Hn & Hlast & Hrec & Hmax).
    destruct Htrack as (_ & _ & Hdone & Hstop & Hn0).
    simpl. rewrite Hdone, Hstop, Hstep. simpl.
    destruct (Z.ltb_spec (AgentState.n_steps (state self)) (max_steps self)); [|lia].
    simpl. destruct fuel; simpl; rewrite Hd; simpl;
      eexists _, _; (split; [rewrite Hs; reflexivity|]); simpl;
      repeat split; try done; lia.
  - destruct fuel as [|fuel]; [lia|].
    destruct (step_tracks k n self w ltac:(lia) Htrack)
      as (w' & self' & Hstep & Htrack' & Hmax & _).
    destruct Htrack as (_ & _ & Hdone & Hstop & Hn0).
    simpl. rewrite Hdone, Hstop, Hstep. simpl.
    destruct (Z.ltb_spec (AgentState.n_steps (state self)) (max_steps self)); [|lia].
    simpl.
    destruct (IH (S k) (n + 1)
                (with_state (AgentState.set_n_steps
                   (AgentState.n_steps (state self') + 1) (state self')) self')
                w' fuel) as (final & w'' & Hloop & Hrest); try lia.
    + destruct Htrack' as (? & ? & ? & ? & ?). unfold tracking. simpl.
      repeat split; try done. lia.
    + simpl. lia.
    + exists final, w''. split; [exact Hloop|].
      destruct Hrest as (? & ? & Hfinal & ? & ?).
      repeat split; try done. lia.
Qed.

End StuckRun.

(** C8. With the threshold [t] of the detector, a proposal whose
    signature already occurs [t + 2] times in the window of recent
    signatures is not executed: the Escape key is sent and the step's
    result is the terminal [Done(false)] result with its message. The
    window never exceeds ten signatures. And a fresh agent (threshold 2)
    with a budget of at least 5 steps, whose model proposes the same single
    action in every step while the state refresh and the model call
    return and the action never ends the task, executes the action four
    times and gives up in the fifth step: the run returns after 5 steps,
    done, with [success = False] and the terminal result last in the
    history. *)
Theorem repeated_action_forces_done
    (action_name : string) (params : Py.JSON) (more : list (string * Py.JSON))
    (content : string) (agent_output : AgentOutput.t)
    (max_steps max_failures : Z) (w : World) :
  (forall w, exists w' browser_state,
     browser_get_state true w = (w', inr browser_state)) ->
  (forall w, exists w', llm_complete w = (w', inr content)) ->
  _parse_response content = inr agent_output ->
  AgentOutput.action agent_output = [(action_name, params) :: more] ->
  (forall w w' r, tools_execute action_name params w = (w', inr r) ->
     ActionResult.is_done r = false) ->
  5 <= max_steps ->
  (forall (self : t) (w0 : World),
     0 <= _max_repeated_actions self ->
     _max_repeated_actions self + 2
       <= _count_repeated_actions self (signature action_name params) ->
     _execute_and_capture_actions self agent_output w0 =
       ((browser_send_keys "Escape" w0).1, self, [stuck_result]) /\
     ActionResult.is_done stuck_result = true /\
     ActionResult.success stuck_result = Some false /\
     ActionResult.extracted_content stuck_result <> None) /\
  (forall (action_sig : string) (recent : list string),
     (length recent <= 10)%nat -> (length (track action_sig recent) <= 10)%nat) /\
  exists final w',
    main_loop (Z.to_nat max_steps) (init max_steps max_failures) w
      = Returned false final w' /\
    AgentState.is_done (state final) = true /\
    AgentState.success (state final) = Some false /\
    AgentState.n_steps (state final) = 5 /\
    (AgentHistory.results <$> last (history final)) = Some [stuck_result] /\
    _recent_actions final = replicate 4 (signature action_name params).
Proof.
  intros Hbs Hllm Hparse Hact Htool Hmax. split; [|split].
  - intros self w0 Hpos Hcount. split; [|by repeat split].
    apply (stuck_action_not_executed self agent_output w0 action_name params more []);
      [by rewrite Hact|done|done].
  - apply track_window.
  - destruct (main_loop_stuck action_name params more content agent_output
                Hbs Hllm Hparse Hact Htool 4 0 0 (init max_steps max_failures) w
                (Z.to_nat max_steps)) as (final & w' & Hloop & Hrest).
    + reflexivity.
    + by repeat split.
    + simpl. lia.
    + lia.
    + exists final, w'. split; [exact Hloop|exact Hrest].
Qed.

End TutorialFacts.

Lemma repeated_action_forces_done_witness :
  let env := Fixtures.environment "click 5" Fixtures.always_clicked in
  exists final w',
    TutorialAgent.main_loop (H := Fixtures.runtime) (H0 := env) 20
      (TutorialAgent.init 20 3) 0%nat
      = TutorialAgent.Returned false final w' /\
    AgentState.n_steps (TutorialAgent.state final) = 5.
Proof.
  intros env.
  destruct (@repeated_action_forces_done Fixtures.runtime env
              "click" (Py.JDict [("index", Py.JNum 5)]) [] "click 5"
              (AgentOutput.mk None None None None
                 [[("click", Py.JDict [("index", Py.JNum 5)])]])
              20 3 0%nat)
    as (_ & _ & final & w' & Hloop & _ & _ & Hsteps & _).
  - intros w. eexists _, _. reflexivity.
  - intros w. eexists. reflexivity.
  - reflexivity.
  - reflexivity.
  - intros w w' r [= _ <-]. reflexivity.
  - lia.
  - exists final, w'. split; [exact Hloop|exact Hsteps].
Defined.

(* --------------------------------------------------------------------- *)
(** ** More on the serializer                                             *)
(* --------------------------------------------------------------------- *)

Section SerializerOrder.
Import DOMSerializer.

(** The key that [sort_key] gives an element that has bounds. *)
Definition key_of (e : NodeData.t) : Q * Q :=
  match NodeData.bounds e with
  | Some b => (DOMRect.y b, DOMRect.x b)
  | None => (0%Q, 0%Q)
  end.

(** [k1 <= k2] on key tuples: not [k2 < k1]. *)
Definition key_le (k1 k2 : Q * Q) : Prop := key_lt k2 k1 = false.

Lemma Qgt_bool_false a b : Qgt_bool a b = false <-> (a <= b)%Q.
Proof.
  unfold Qgt_bool. rewrite negb_false_iff. apply Qle_bool_iff.
Qed.

Lemma key_lt_asym k1 k2 : key_lt k1 k2 = true -> key_lt k2 k1 = false.
Proof.
  unfold key_lt. destruct k1 as [y1 x1], k2 as [y2 x2]. simpl.
  destruct (Qeq_bool y1 y2) eqn:E.
  - apply Qeq_bool_iff in E.
    assert (E' : Qeq_bool y2 y1 = true) by (apply Qeq_bool_iff; by symmetry).
    rewrite E'. rewrite Qgt_bool_true, Qgt_bool_false. apply Qlt_le_weak.
  - assert (E' : Qeq_bool y2 y1 = false).
    { destruct (Qeq_bool y2 y1) eqn:E2; [|done].
      apply Qeq_bool_iff in E2. symmetry in E2. apply Qeq_bool_iff in E2.
      congruence. }
    rewrite E'. rewrite Qgt_bool_true, Qgt_bool_false. apply Qlt_le_weak.
Qed.

Lemma with_keys_inr l kl :
  with_keys l = inr kl ->
  kl.*2 = l /\ Forall (fun p => p.1 = key_of p.2) kl /\
  Forall (fun e => NodeData.bounds e <> None) l.
Proof.
  revert kl. induction l as [|e l IH]; intros kl; simpl.
  - intros [= <-]. repeat split; constructor.
  - unfold sort_key. destruct (NodeData.bounds e) as [b|] eqn:Eb; [|discriminate].
    destruct (with_keys l) as [ex|kl']; [discriminate|].
    intros [= <-]. destruct (IH kl' eq_refl) as (H1 & H2 & H3).
    split; [by rewrite fmap_cons, H1|]. split; constructor; auto.
    + unfold key_of. simpl. by rewrite Eb.
    + congruence.
Qed.

Lemma with_keys_inl l :
  (exists ex, with_keys l = inl ex) <->
  Exists (fun e => NodeData.bounds e = None) l.
Proof.
  induction l as [|e l IH]; simpl.
  - split; [intros [ex [=]]|intros Hex; inversion Hex].
  - unfold sort_key. destruct (NodeData.bounds e) as [b|] eqn:Eb.
    + destruct (with_keys l) as [ex|kl] eqn:Ek.
      * split; [intros _|eauto]. apply Exists_cons_tl, IH. eauto.
      * split; [intros [ex [=]]|].
        intros Hex. inversion Hex as [? ? Hn|? ? Hl]; subst; [congruence|].
        apply IH in Hl as [ex [=]].
    + split; [intros _; by apply Exists_cons_hd|eauto].
Qed.

Lemma with_keys_inl_attribute_error l ex :
  with_keys l = inl ex -> exists msg, ex = AttributeError msg.
Proof.
  induction l as [|e l IH]; simpl; [discriminate|].
  unfold sort_key. destruct (NodeData.bounds e); [|intros [= <-]; eauto].
  destruct (with_keys l); [|discriminate]. intros [= <-]. by apply IH.
Qed.

Lemma insert_by_key_perm e l : insert_by_key e l ≡ₚ e :: l.
Proof.
  induction l as [|h t IH]; simpl; [done|].
  destruct (key_lt h.1 e.1); [|done].
  rewrite IH. apply Permutation_swap.
Qed.

Lemma insert_by_key_sorted e l :
  Sorted (fun a b => key_le a.1 b.1) l ->
  Sorted (fun a b => key_le a.1 b.1) (insert_by_key e l).
Proof.
  induction 1 as [|h t Ht IH Hhd]; simpl.
  - repeat constructor.
  - destruct (key_lt h.1 e.1) eqn:E.
    + constructor; [exact IH|].
      destruct t as [|h' t']; simpl.
      * constructor. unfold key_le. by apply key_lt_asym.
      * destruct (key_lt h'.1 e.1).
        -- constructor. by inversion Hhd.
        -- constructor. unfold key_le. by apply key_lt_asym.
    + constructor; [by constructor|]. constructor. exact E.
Qed.

Lemma insert_by_key_head e l :
  Sorted (fun a b => key_le a.1 b.1) (e :: l) -> insert_by_key e l = e :: l.
Proof.
  intros Hs. destruct l as [|h t]; simpl; [done|].
  inversion Hs as [|? ? _ Hhd]; subst. inversion Hhd as [|? ? Hle]; subst.
  unfold key_le in Hle. by rewrite Hle.
Qed.

Lemma foldr_insert_sorted l :
  Sorted (fun a b => key_le a.1 b.1) (foldr insert_by_key [] l).
Proof.
  induction l as [|e l IH]; simpl; [constructor|by apply insert_by_key_sorted].
Qed.

Lemma foldr_insert_perm l : foldr insert_by_key [] l ≡ₚ l.
Proof.
  induction l as [|e l IH]; simpl; [done|].
  by rewrite insert_by_key_perm, IH.
Qed.

Lemma foldr_insert_id l :
  Sorted (fun a b => key_le a.1 b.1) l -> foldr insert_by_key [] l = l.
Proof.
  induction l as [|e l IH]; intros Hs; simpl; [done|].
  rewrite IH by (by inversion Hs). by apply insert_by_key_head.
Qed.

(** The visible interactive elements of the state of a serializer. *)
Definition visible_elements_of (self : t) : list NodeData.t :=
  filter (fun node_data => NodeData.is_visible node_data = true)
    (Dict.values (DOMState.interactive_elements (dom_state self))).

(** [_get_sorted_elements] raises exactly when a visible interactive
    element has no bounds, and what it raises then is [AttributeError]. *)
Lemma sorted_elements_raise_iff_no_bounds (self : t) :
  ((exists ex, _get_sorted_elements self = inl ex) <->
   Exists (fun e => NodeData.bounds e = None) (visible_elements_of self)) /\
  (forall ex, _get_sorted_elements self = inl ex ->
     exists msg, ex = AttributeError msg).
Proof.
  unfold _get_sorted_elements. fold (visible_elements_of self). split.
  - rewrite <- with_keys_inl.
    destruct (with_keys (visible_elements_of self)) as [ex|kl].
    + split; eauto.
    + split; intros [ex [=]].
  - intros ex.
    destruct (with_keys (visible_elements_of self)) as [ex'|kl] eqn:E;
      [|discriminate].
    intros [= <-]. by eapply with_keys_inl_attribute_error.
Qed.

(** X3. When [_get_sorted_elements] returns, the result is a rearrangement
    of the visible interactive elements in which no element is followed by
    one with a smaller [(y, x)] key; and elements that already are in that
    order are returned as they are. *)
Theorem sorted_elements_sorted (self : t) (l : list NodeData.t) :
  _get_sorted_elements self = inr l ->
  l ≡ₚ visible_elements_of self /\
  Sorted (fun a b => key_le (key_of a) (key_of b)) l /\
  (Sorted (fun a b => key_le (key_of a) (key_of b)) (visible_elements_of self) ->
   l = visible_elements_of self).
Proof.
  unfold _get_sorted_elements. fold (visible_elements_of self).
  destruct (with_keys (visible_elements_of self)) as [ex|kl] eqn:E;
    [discriminate|].
  intros [= <-]. apply with_keys_inr in E as (Hsnd & Hkeys & _).
  unfold sorted_by_key.
  assert (Hmap : forall ks : list ((Q * Q) * NodeData.t),
    Forall (fun p => p.1 = key_of p.2) ks ->
    (Sorted (fun a b => key_le a.1 b.1) ks <->
     Sorted (fun a b => key_le (key_of a) (key_of b)) ks.*2)).
  { induction 1 as [|p ks Hp Hks IH]; simpl.
    - split; constructor.
    - split; intros Hs; inversion Hs as [|? ? Ht Hhd]; subst;
        (constructor; [by apply IH|]);
        destruct Hks as [|q ks Hq Hks]; simpl in *; constructor;
        inversion Hhd; subst; congruence. }
  split; [|split].
  - rewrite <- Hsnd. apply fmap_Permutation, foldr_insert_perm.
  - apply Hmap; [|apply foldr_insert_sorted].
    eapply Forall_forall. intros p Hp.
    rewrite foldr_insert_perm in Hp.
    by eapply Forall_forall in Hkeys.
  - intros Hs. rewrite <- Hsnd in Hs |- *. apply Hmap in Hs; [|done].
    by rewrite foldr_insert_id.
Qed.

End SerializerOrder.

Lemma sorted_elements_sorted_witness :
  let self := DOMSerializer.init Fixtures.two_buttons_state 40000 None in
  exists l,
    DOMSerializer._get_sorted_elements self = inr l /\
    NodeData.index <$> l = [Some 2; Some 3; Some 1].
Proof.
  intros self.
  destruct (DOMSerializer._get_sorted_elements self) as [ex|l] eqn:E;
    [vm_compute in E; discriminate|].
  exists l. split; [reflexivity|].
  pose proof (sorted_elements_sorted self l E) as _.
  vm_compute in E. injection E as <-. reflexivity.
Defined.

Section SerializerStats.
Context `{Py.Runtime}.
Import DOMSerializer.

(** The number of nodes of [l] for which [P] holds. *)
Definition count_nodes (P : NodeData.t -> Prop) `{!forall x, Decision (P x)}
    (l : list NodeData.t) : Z :=
  Z.of_nat (length (filter P l)).

Definition is_link (node_data : NodeData.t) : Prop :=
  Py.lower (NodeData.tag_name node_data) = "a".

Definition is_frame (node_data : NodeData.t) : Prop :=
  Py.lower (NodeData.tag_name node_data) ∈ ["iframe"; "frame"].

Lemma calculate_stats_counts (self : t) :
  let l := Dict.values (DOMState.nodes (dom_state self)) in
  let s := stats self in
  let s' := stats (_calculate_stats self) in
  st_total_elements s' = st_total_elements s + Z.of_nat (length l) /\
  st_visible_elements s' =
    st_visible_elements s + count_nodes (fun n => NodeData.is_visible n = true) l /\
  st_interactive_elements s' =
    st_interactive_elements s + count_nodes (fun n => NodeData.index n <> None) l /\
  st_links_count s' = st_links_count s + count_nodes is_link l /\
  st_iframes_count s' = st_iframes_count s + count_nodes is_frame l /\
  st_scroll_containers s' = st_scroll_containers s.
Proof.
  unfold _calculate_stats. simpl.
  generalize (stats self) as s.
  generalize (Dict.values (DOMState.nodes (dom_state self))) as l.
  unfold count_nodes, is_link, is_frame.
  induction l as [|n l IH]; intros s; simpl foldl.
  - simpl. repeat split; lia.
  - match goal with |- context [foldl ?f ?s0 l] =>
      destruct (IH s0) as (H1 & H2 & H3 & H4 & H5 & H6) end.
    rewrite H1, H2, H3, H4, H5, H6. clear IH H1 H2 H3 H4 H5 H6.
    rewrite !filter_cons. simpl length.
    destruct (NodeData.is_visible n); destruct (NodeData.index n);
      destruct (String.eqb_spec (Py.lower (NodeData.tag_name n)) "a") as [Ea|Ea];
      repeat (match goal with
              | |- context [decide ?P] => destruct (decide P)
              | |- context [bool_decide ?P] => destruct (bool_decide_reflect P)
              end);
      try congruence; try contradiction;
      try (exfalso; match goal with Hn : ~ _ |- _ => apply Hn; congruence end);
      try (exfalso; rewrite Ea in *;
           match goal with
           | Hin : _ ∈ _ |- _ =>
               apply list_elem_of_In in Hin; simpl in Hin;
               destruct Hin as [?|[?|[]]]; discriminate
           end);
      simpl; repeat split; lia.
Qed.

Lemma serialize_stats self out self' :
  serialize self = inr (out, self') ->
  self' = _calculate_stats self /\
  SerializedDOM.total_elements out = st_total_elements (stats self') /\
  SerializedDOM.visible_elements out = st_visible_elements (stats self') /\
  SerializedDOM.interactive_elements out = st_interactive_elements (stats self') /\
  SerializedDOM.links_count out = st_links_count (stats self') /\
  SerializedDOM.iframes_count out = st_iframes_count (stats self').
Proof.
  unfold serialize.
  destruct (representation (_calculate_stats self)) as [ex|r]; [discriminate|].
  destruct (Z.of_nat (String.length r) >? max_length (_calculate_stats self));
    intros [= <- <-]; simpl; auto 10.
Qed.

(** X4. Every call of [serialize] that returns adds the counts of the
    state's node table to the running statistics of the serializer and
    reports the sums: all nodes, the visible ones, the ones with an index,
    the links and the frames. The statistics are not reset between calls,
    so a second call on the same serializer reports each count once more. *)
Theorem serialize_stats_accumulate (self : t) (out : SerializedDOM.t) (self' : t) :
  serialize self = inr (out, self') ->
  let l := Dict.values (DOMState.nodes (dom_state self)) in
  SerializedDOM.total_elements out =
    st_total_elements (stats self) + Z.of_nat (length l) /\
  SerializedDOM.visible_elements out =
    st_visible_elements (stats self)
    + count_nodes (fun n => NodeData.is_visible n = true) l /\
  SerializedDOM.interactive_elements out =
    st_interactive_elements (stats self)
    + count_nodes (fun n => NodeData.index n <> None) l /\
  SerializedDOM.links_count out = st_links_count (stats self) + count_nodes is_link l /\
  SerializedDOM.iframes_count out =
    st_iframes_count (stats self) + count_nodes is_frame l /\
  (forall out2 self2, serialize self' = inr (out2, self2) ->
     SerializedDOM.total_elements out2 =
       SerializedDOM.total_elements out + Z.of_nat (length l) /\
     SerializedDOM.interactive_elements out2 =
       SerializedDOM.interactive_elements out
       + count_nodes (fun n => NodeData.index n <> None) l).
Proof.
  intros Hser l.
  destruct (serialize_stats _ _ _ Hser) as (-> & E1 & E2 & E3 & E4 & E5).
  destruct (calculate_stats_counts self) as (C1 & C2 & C3 & C4 & C5 & _).
  rewrite E1, E2, E3, E4, E5.
  repeat (split; [assumption|]).
  intros out2 self2 Hser2.
  destruct (serialize_stats _ _ _ Hser2) as (-> & F1 & _ & F3 & _).
  destruct (calculate_stats_counts (_calculate_stats self)) as (D1 & _ & D3 & _).
  rewrite F1, F3, D1, D3. split; reflexivity.
Qed.

(** X5. An element yields the empty line exactly when it has no index, so
    the filter on empty lines in [serialize] drops no indexed element. *)
Theorem serialize_element_empty_iff (self : t) (element : NodeData.t) :
  _serialize_element self element = "" <-> NodeData.index element = None.
Proof.
  unfold _serialize_element.
  destruct (NodeData.index element) as [i|]; [|done].
  split; [|discriminate]. intros Hline. exfalso.
  assert (Hlen : forall a b : string,
    String.length (a +:+ b) = (String.length a + String.length b)%nat).
  { induction a as [|c a IH]; intros b; simpl; [done|]. by rewrite IH. }
  apply (f_equal String.length) in Hline.
  rewrite !Hlen in Hline. simpl in Hline. lia.
Qed.

End SerializerStats.

Lemma serialize_stats_accumulate_witness :
  let self := DOMSerializer.init Fixtures.two_buttons_state 40000 None in
  exists out self',
    DOMSerializer.serialize (H := Fixtures.runtime) self = inr (out, self') /\
    SerializedDOM.total_elements out = 4 /\
    SerializedDOM.interactive_elements out = 3 /\
    SerializedDOM.links_count out = 1.
Proof.
  intros self.
  destruct (DOMSerializer.serialize (H := Fixtures.runtime) self)
    as [ex|[out self']] eqn:E; [vm_compute in E; discriminate|].
  exists out, self'. split; [reflexivity|].
  destruct (serialize_stats_accumulate (H := Fixtures.runtime) self out self' E)
    as (E1 & _ & E3 & E4 & _).
  rewrite E1, E3, E4. vm_compute. auto.
Defined.

Section SerializerRaises.
Context `{Py.Runtime}.
Import DOMSerializer.

(** X2. [serialize] raises exactly when the state holds a visible
    interactive element without bounds (the sort key cannot be read from
    [None]); the exception is [AttributeError]. An element that was indexed
    before it was laid out therefore makes its state unserializable. *)
Theorem serialize_raises_iff_no_bounds (self : t) :
  ((exists ex, serialize self = inl ex) <->
   Exists (fun e => NodeData.bounds e = None) (visible_elements_of self)) /\
  (forall ex, serialize self = inl ex -> exists msg, ex = AttributeError msg).
Proof.
  destruct (sorted_elements_raise_iff_no_bounds (_calculate_stats self))
    as [Hiff Herr].
  change (visible_elements_of (_calculate_stats self))
    with (visible_elements_of self) in Hiff.
  unfold serialize, representation.
  destruct (_get_sorted_elements (_calculate_stats self)) as [ex|l] eqn:E.
  - split.
    + rewrite <- Hiff. split; eauto.
    + intros ex' [= <-]. by apply Herr.
  - split.
    + rewrite <- Hiff. split; [|intros [ex [=]]].
      destruct (_ >? _); intros [ex [=]].
    + destruct (_ >? _); intros ex [=].
Qed.

End SerializerRaises.

Example unplaced_button_not_serializable :
  exists msg,
    DOMSerializer.serialize (H := Fixtures.runtime)
      (DOMSerializer.init Fixtures.unplaced_button_state 40000 None)
    = inl (AttributeError msg).
Proof. eexists. vm_compute. reflexivity. Qed.

(* --------------------------------------------------------------------- *)
(** ** The layout snapshot lookup                                         *)
(* --------------------------------------------------------------------- *)

Section SnapshotLookupFacts.
Import SnapshotLookup.

Lemma styles_of_row_keys snapshot j row acc k :
  is_Some (styles_of_row snapshot j row acc !! k) ->
  is_Some (acc !! k) \/ k ∈ style_names.
Proof.
  revert j acc. induction row as [|idx row IH]; intros j acc; simpl; [auto|].
  intros Hk. apply IH in Hk as [Hk|Hk]; [|by right].
  destruct (style_names !! j) as [name|] eqn:Ej; [|by left].
  destruct (0 <=? idx); [|by left].
  destruct (decide (name = k)) as [->|Hne].
  - right. eapply list_elem_of_lookup_2, Ej.
  - left. by rewrite lookup_insert_ne in Hk.
Qed.

Lemma styles_of_row_pointer snapshot j row acc :
  is_Some (styles_of_row snapshot j row acc !! "pointer-events") <->
  is_Some (acc !! "pointer-events") \/
  exists p idx, row !! p = Some idx /\ 0 <= idx /\
    style_names !! (j + p)%nat = Some "pointer-events".
Proof.
  revert j acc. induction row as [|idx row IH]; intros j acc; simpl.
  - split; [auto|]. intros [?|(p & i & Hp & _)]; [done|]. by destruct p.
  - rewrite IH. clear IH. split.
    + intros [Hacc|(p & i & Hp & Hi & Hn)].
      * destruct (style_names !! j) as [name|] eqn:Ej; [|by left].
        destruct (Z.leb_spec 0 idx); [|by left].
        destruct (decide (name = "pointer-events")) as [->|Hne].
        -- right. exists 0%nat, idx. rewrite Nat.add_0_r. auto.
        -- left. by rewrite lookup_insert_ne in Hacc.
      * right. exists (S p), i. rewrite <- Nat.add_succ_comm. auto.
    + intros [Hacc|(p & i & Hp & Hi & Hn)].
      * left. destruct (style_names !! j) as [name|]; [|done].
        destruct (0 <=? idx); [|done].
        destruct (decide (name = "pointer-events")) as [->|Hne].
        -- rewrite lookup_insert_eq. eauto.
        -- by rewrite lookup_insert_ne.
      * destruct p as [|p]; simpl in Hp.
        -- injection Hp as ->. rewrite Nat.add_0_r in Hn. left.
           rewrite Hn. destruct (Z.leb_spec 0 i); [|lia].
           rewrite lookup_insert_eq. eauto.
        -- right. exists p, i. rewrite Nat.add_succ_comm. auto.
Qed.

(** The row sets the key "pointer-events" exactly when its sixth entry is
    a non-negative index. *)
Lemma row_sets_pointer_events snapshot row :
  is_Some (styles_of_row snapshot 0 row ∅ !! "pointer-events") <->
  exists idx, row !! 5%nat = Some idx /\ 0 <= idx.
Proof.
  rewrite styles_of_row_pointer. split.
  - intros [Hempty|(p & idx & Hp & Hi & Hn)].
    + rewrite lookup_empty in Hempty. by destruct Hempty.
    + simpl in Hn.
      do 6 (destruct p as [|p]; [try discriminate; eauto|]). discriminate.
  - intros (idx & Hp & Hi). right. exists 5%nat, idx. auto.
Qed.

Lemma computed_styles_of_row snapshot row :
  match computed_styles_of (styles_of_row snapshot 0 row ∅) with
  | inl _ => exists idx, row !! 5%nat = Some idx /\ 0 <= idx
  | inr cs =>
      ComputedStyles.pointer_events cs = "auto" /\
      ~ exists idx, row !! 5%nat = Some idx /\ 0 <= idx
  end.
Proof.
  set (styles := styles_of_row snapshot 0 row ∅).
  assert (Hkeys : forall k, is_Some (styles !! k) -> k ∈ style_names).
  { intros k Hk. apply styles_of_row_keys in Hk as [Hk|Hk]; [|done].
    rewrite lookup_empty in Hk. by destruct Hk. }
  unfold computed_styles_of. case_bool_decide as Hall.
  - assert (Hno : ~ is_Some (styles !! "pointer-events")).
    { intros [v Hv]. rewrite Forall_forall in Hall.
      assert (Hin : "pointer-events" ∈ (map_to_list styles).*1).
      { apply list_elem_of_fmap. exists ("pointer-events", v). split; [done|].
        by apply elem_of_map_to_list. }
      apply Hall in Hin. apply list_elem_of_In in Hin. simpl in Hin.
      repeat (destruct Hin as [Hin|Hin]; [discriminate|]). done. }
    simpl. split.
    + destruct (styles !! "pointer_events") as [v|] eqn:Ev; [|done].
      assert (Hin : "pointer_events" ∈ style_names) by (apply Hkeys; eauto).
      apply list_elem_of_In in Hin. simpl in Hin.
      repeat (destruct Hin as [Hin|Hin]; [discriminate|]). done.
    + by rewrite <- (row_sets_pointer_events snapshot).
  - apply (row_sets_pointer_events snapshot). fold styles.
    destruct (styles !! "pointer-events") as [v|] eqn:Ev; [eauto|].
    exfalso. apply Hall. apply Forall_forall. intros k Hk.
    apply list_elem_of_fmap in Hk as ([k' v'] & -> & Hkv).
    apply elem_of_map_to_list in Hkv. simpl.
    assert (Hin : k' ∈ style_names) by (apply Hkeys; eauto).
    apply list_elem_of_In in Hin. simpl in Hin.
    destruct Hin as [<-|[<-|[<-|[<-|[<-|[<-|[]]]]]]];
      try (apply list_elem_of_In; simpl; tauto).
    congruence.
Qed.

(** A row of the layout that makes [_build_snapshot_lookup] raise: its
    node index is in range and its style list names a pointer-events
    string. *)
Definition sets_pointer_events (doc : DOMSnapshot.Document) (i : nat) : Prop :=
  exists node_idx row idx,
    DOMSnapshot.layout_nodeIndex doc !! i = Some node_idx /\
    0 <= node_idx < Z.of_nat (length (DOMSnapshot.backendNodeId_list doc)) /\
    DOMSnapshot.layout_styles doc !! i = Some row /\
    row !! 5%nat = Some idx /\ 0 <= idx.

(** Every style entry of the lookup leaves [pointer_events] at its
    default. *)
Definition pointer_default (lookup : gmap Z SnapshotEntry) : Prop :=
  forall id entry cs,
    lookup !! id = Some entry -> entry_styles entry = Some cs ->
    ComputedStyles.pointer_events cs = "auto".

Lemma entry_of_cases snapshot doc i node_idx :
  match entry_of snapshot doc i node_idx with
  | inl _ => True
  | inr None => True
  | inr (Some (_, entry)) =>
      (forall cs, entry_styles entry = Some cs ->
         ComputedStyles.pointer_events cs = "auto") /\
      ~ (0 <= node_idx /\
         exists row idx, DOMSnapshot.layout_styles doc !! i = Some row /\
           row !! 5%nat = Some idx /\ 0 <= idx)
  end.
Proof.
  unfold entry_of.
  destruct (_ <? _); [|done].
  destruct (index_from _ _) as [bid|]; [|done].
  destruct (DOMSnapshot.layout_styles doc !! i) as [row|] eqn:Erow.
  - case_bool_decide as Hempty.
    + split; [discriminate|]. intros (_ & row' & idx & [= <-] & Hrow).
      assert (Hp : is_Some (styles_of_row snapshot 0 row ∅ !! "pointer-events"))
        by (apply row_sets_pointer_events; eauto).
      rewrite Hempty, lookup_empty in Hp. by destruct Hp.
    + pose proof (computed_styles_of_row snapshot row) as Hcs.
      destruct (computed_styles_of _) as [e|cs]; [done|].
      destruct Hcs as [Hauto Hno]. split.
      * by intros cs' [= <-].
      * intros (_ & row' & idx & [= <-] & Hrow). apply Hno. eauto.
  - split; [discriminate|]. by intros (_ & row' & idx & [=] & _).
Qed.

Lemma rows_loop_spec snapshot doc node_indices :
  forall i lookup,
  match rows_loop snapshot doc i node_indices lookup with
  | inl _ => True
  | inr lookup' =>
      (pointer_default lookup -> pointer_default lookup') /\
      forall p node_idx row idx,
        node_indices !! p = Some node_idx ->
        0 <= node_idx < Z.of_nat (length (DOMSnapshot.backendNodeId_list doc)) ->
        DOMSnapshot.layout_styles doc !! (i + p)%nat = Some row ->
        row !! 5%nat = Some idx -> ~ 0 <= idx
  end.
Proof.
  induction node_indices as [|node_idx rest IH]; intros i lookup; simpl.
  - split; [done|]. intros p ? ? ? Hp. by destruct p.
  - pose proof (entry_of_cases snapshot doc i node_idx) as Hentry.
    destruct (entry_of snapshot doc i node_idx) as [e|[[bid entry]|]] eqn:E;
      [done| |].
    + specialize (IH (S i) (<[bid := entry]> lookup)).
      destruct (rows_loop _ _ _ _ _) as [e|lookup']; [done|].
      destruct IH as [IHd IHr]. destruct Hentry as [Hauto Hno]. split.
      * intros Hd. apply IHd. intros id entry' cs Hid Hcs.
        destruct (decide (bid = id)) as [->|Hne].
        -- rewrite lookup_insert_eq in Hid. injection Hid as <-. by apply Hauto.
        -- rewrite lookup_insert_ne in Hid by done. by eapply Hd.
      * intros [|p] node_idx' row idx Hp Hrange Hrow Hidx Hpos.
        -- injection Hp as <-. rewrite Nat.add_0_r in Hrow.
           apply Hno. split; [lia|eauto].
        -- rewrite <- Nat.add_succ_comm in Hrow.
           by eapply (IHr p node_idx' row idx).
    + specialize (IH (S i) lookup).
      destruct (rows_loop _ _ _ _ _) as [e|lookup']; [done|].
      destruct IH as [IHd IHr]. split; [done|].
      intros [|p] node_idx' row idx Hp Hrange Hrow Hidx Hpos.
      * injection Hp as <-. unfold entry_of in E.
        destruct (Z.ltb_spec node_idx
          (Z.of_nat (length (DOMSnapshot.backendNodeId_list doc)))); [|lia].
        destruct (index_from _ _); [|discriminate].
        destruct (DOMSnapshot.layout_styles doc !! i); [|discriminate].
        case_bool_decide; [discriminate|].
        destruct (computed_styles_of _); discriminate.
      * rewrite <- Nat.add_succ_comm in Hrow.
        by eapply (IHr p node_idx' row idx).
Qed.

Lemma documents_loop_spec snapshot docs :
  forall lookup,
  match documents_loop snapshot docs lookup with
  | inl _ => True
  | inr lookup' =>
      (pointer_default lookup -> pointer_default lookup') /\
      Forall (fun doc => forall i, ~ sets_pointer_events doc i) docs
  end.
Proof.
  induction docs as [|doc docs IH]; intros lookup; simpl.
  - split; [done|constructor].
  - pose proof (rows_loop_spec snapshot doc (DOMSnapshot.layout_nodeIndex doc)
                  0%nat lookup) as Hrows.
    destruct (rows_loop _ _ _ _ _) as [e|lookup1]; [done|].
    specialize (IH lookup1).
    destruct (documents_loop snapshot docs lookup1) as [e|lookup2]; [done|].
    destruct Hrows as [Hd1 Hr1]. destruct IH as [Hd2 Hr2]. split; [auto|].
    constructor; [|done].
    intros i (node_idx & row & idx & Hn & Hrange & Hrow & Hidx & Hpos).
    by eapply (Hr1 i node_idx row idx).
Qed.

(** X6. [_build_snapshot_lookup] passes a style named "pointer-events" to
    [ComputedStyles], whose field is [pointer_events]. So it raises
    whenever some layout row with a node index in range lists a sixth,
    non-negative style index; and whenever it returns, no row does, and
    every style entry of the lookup has [pointer_events] at its default
    "auto": the pointer-events style of the page is never taken over. *)
Theorem snapshot_lookup_pointer_events (snapshot : DOMSnapshot.t) :
  (Exists (fun doc => exists i, sets_pointer_events doc i)
     (DOMSnapshot.documents snapshot) ->
   exists e, _build_snapshot_lookup snapshot = inl e) /\
  (forall lookup, _build_snapshot_lookup snapshot = inr lookup ->
     pointer_default lookup /\
     Forall (fun doc => forall i, ~ sets_pointer_events doc i)
       (DOMSnapshot.documents snapshot)).
Proof.
  unfold _build_snapshot_lookup.
  pose proof (documents_loop_spec snapshot (DOMSnapshot.documents snapshot) ∅)
    as Hspec.
  destruct (documents_loop _ _ _) as [e|lookup].
  - split; [eauto|discriminate].
  - destruct Hspec as [Hd Hr]. split.
    + intros Hex. exfalso. apply Exists_exists in Hex as (doc & Hdoc & i & Hi).
      rewrite Forall_forall in Hr. by eapply Hr.
    + intros lookup' [= <-]. split; [|done].
      apply Hd. intros id entry cs Hid. by rewrite lookup_empty in Hid.
Qed.

End SnapshotLookupFacts.

(** The reply to the capture request of [_get_dom_snapshot], which asks
    for six styles per node, for a page of one node. *)
Lemma snapshot_lookup_pointer_events_witness :
  exists e,
    SnapshotLookup._build_snapshot_lookup
      (DOMSnapshot.mk
         [DOMSnapshot.mkDocument [7] [0] [[0; 0; 10; 10]%Q] [[0; 1; 2; 3; 4; 5]]]
         ["block"; "visible"; "1"; "static"; "visible"; "auto"])
    = inl e.
Proof.
  apply snapshot_lookup_pointer_events. constructor.
  exists 0%nat, 0, [0; 1; 2; 3; 4; 5], 5. simpl. repeat split; lia.
Defined.

(* --------------------------------------------------------------------- *)
(** ** The cut at [max_length]                                            *)
(* --------------------------------------------------------------------- *)

Section SerializerCut.
Context `{Py.Runtime}.
Import DOMSerializer.

Lemma length_substring_0 n s :
  String.length (substring 0 n s) = Nat.min n (String.length s).
Proof.
  revert s. induction n as [|n IH]; intros [|c s]; simpl; try reflexivity.
  by rewrite IH.
Qed.

Lemma prefix_substring_0 n s : String.prefix (substring 0 n s) s = true.
Proof.
  revert s. induction n as [|n IH]; intros [|c s]; simpl; try reflexivity.
  destruct (ascii_dec c c); [apply IH|congruence].
Qed.

Lemma prefix_refl s : String.prefix s s = true.
Proof.
  induction s as [|c s IH]; simpl; [reflexivity|].
  destruct (ascii_dec c c); [apply IH|congruence].
Qed.

(** X1. The text that [serialize] returns is a prefix of the text built
    from the state. With a non-negative [max_length] it holds
    [min(len, max_length)] characters: it is never longer than
    [max_length] and is cut only when the built text is. A negative
    [max_length] raises nothing: it drops the last [-max_length]
    characters of the built text. *)
Theorem serialize_text_is_cut_prefix (self : t) (out : SerializedDOM.t) (self' : t) :
  serialize self = inr (out, self') ->
  exists r,
    representation (_calculate_stats self) = inr r /\
    String.prefix (SerializedDOM.llm_representation out) r = true /\
    (0 <= max_length self ->
     Z.of_nat (String.length (SerializedDOM.llm_representation out)) =
     Z.min (Z.of_nat (String.length r)) (max_length self)) /\
    (max_length self < 0 ->
     Z.of_nat (String.length (SerializedDOM.llm_representation out)) =
     Z.max 0 (Z.of_nat (String.length r) + max_length self)).
Proof.
  unfold serialize.
  destruct (representation (_calculate_stats self)) as [ex|r]; [discriminate|].
  rewrite calculate_stats_max_length.
  destruct (Z.gtb_spec (Z.of_nat (String.length r)) (max_length self)) as [Hgt|Hle];
    intros [= <- _]; simpl; exists r; (split; [reflexivity|]).
  - unfold Py.slice_to. destruct (Z.leb_spec 0 (max_length self)).
    + split; [apply prefix_substring_0|]. rewrite length_substring_0. lia.
    + split; [apply prefix_substring_0|]. rewrite length_substring_0. lia.
  - split; [apply prefix_refl|]. lia.
Qed.

End SerializerCut.

Lemma serialize_text_is_cut_prefix_witness :
  let self :=
    DOMSerializer.init
      (Extract.extract (H := Fixtures.runtime)
         (Some (Fixtures.link_page "</a>x")) Fixtures.link_layout ∅
         (DOMExtractor.init 1280 720)).1 27 None in
  exists out self' r,
    DOMSerializer.serialize (H := Fixtures.runtime) self = inr (out, self') /\
    DOMSerializer.representation (H := Fixtures.runtime)
      (DOMSerializer._calculate_stats self) = inr r /\
    String.length r = 32%nat /\
    String.length (SerializedDOM.llm_representation out) = 27%nat.
Proof.
  intros self.
  destruct (DOMSerializer.serialize (H := Fixtures.runtime) self)
    as [ex|[out self']] eqn:E; [vm_compute in E; discriminate|].
  destruct (serialize_text_is_cut_prefix (H := Fixtures.runtime) self out self' E)
    as (r & Hr & _ & Hlen & _).
  exists out, self', r. split; [reflexivity|]. split; [exact Hr|].
  assert (Hr32 : String.length r = 32%nat).
  { vm_compute in Hr. injection Hr as <-. reflexivity. }
  split; [exact Hr32|].
  specialize (Hlen ltac:(vm_compute; discriminate)).
  rewrite Hr32 in Hlen. change (DOMSerializer.max_length self) with 27 in Hlen. lia.
Defined.

(* --------------------------------------------------------------------- *)
(** ** The selector map and the node registry of the extractor            *)
(* --------------------------------------------------------------------- *)

Section ExtractorInvariants.
Context `{Py.Runtime}.
Import DOMExtractor.

(** An assignment made to an object after it was stored: it touches the
    links to other nodes and the text, nothing else. *)
Definition link_update (f : DOMNode.t -> DOMNode.t) : Prop :=
  forall n, exists c d ty s tx, f n = DOMNode.with_links n c d ty s tx.

Lemma link_update_children v : link_update (DOMNode.set_children_ids v).
Proof. intros n. by eexists _, _, _, _, _. Qed.

Lemma link_update_content_document v :
  link_update (DOMNode.set_content_document_id v).
Proof. intros n. by eexists _, _, _, _, _. Qed.

Lemma link_update_shadow_root i ty : link_update (DOMNode.set_shadow_root i ty).
Proof. intros n. by eexists _, _, _, _, _. Qed.

Lemma link_update_text v : link_update (DOMNode.set_text_content v).
Proof. intros n. by eexists _, _, _, _, _. Qed.

(** A property of the extractor that the creation of an object and the
    later assignments keep is kept by the whole walk. *)
Section Preserved.
Variables (sl : gmap Z SnapshotEntry) (al : gmap Z AxEntry).
Variable P : t -> Prop.
Hypothesis P_store : forall node node_id bid parent depth st,
  P st ->
  P (store node_id (create_node sl al node node_id bid parent depth st).1
       (create_node sl al node node_id bid parent depth st).2).2.
Hypothesis P_write : forall a f st, link_update f -> P st -> P (write a f st).

Lemma preserved_children f cs :
  Forall (fun c => forall st, P st -> P (f c st).1) cs ->
  forall st, P st -> P (process_children f cs st).1.
Proof.
  induction 1 as [|c cs Hc _ IH]; intros st HP; simpl; [done|].
  specialize (Hc st HP). destruct (f c st) as [st1 r]. simpl in Hc.
  specialize (IH st1 Hc). by destruct (process_children f cs st1) as [st2 ids].
Qed.

Lemma preserved_shadow_roots f a srs :
  Forall (fun c => forall st, P st -> P (f c st).1) srs ->
  forall st, P st -> P (process_shadow_roots f a srs st).
Proof.
  induction 1 as [|c cs Hc _ IH]; intros st HP; simpl; [done|].
  specialize (Hc st HP). destruct (f c st) as [st1 r]. simpl in Hc.
  apply IH. destruct r; [|done].
  apply P_write; [apply link_update_shadow_root|done].
Qed.

Lemma preserved_content_document f a cd :
  (forall d, cd = Some d -> forall st, P st -> P (f d st).1) ->
  forall st, P st -> P (process_content_document f a cd st).
Proof.
  intros Hd st HP. destruct cd as [d|]; simpl; [|done].
  specialize (Hd d eq_refl st HP). destruct (f d st) as [st1 r]. simpl in Hd.
  destruct r; [|done].
  apply P_write; [apply link_update_content_document|done].
Qed.

#[local] Opaque create_node store write aggregate_text.

Lemma preserved_process_node node :
  forall parent depth st,
  P st -> P (_process_node sl al node parent depth st).1.
Proof.
  induction node as [node IHc IHd IHs] using RawNode_nested_ind.
  intros parent depth st HP.
  destruct node as [nid bid ty nm v at_ sc fr srt cs cd srs]. simpl in *.
  destruct nid as [node_id|]; [|done].
  destruct bid as [backend_node_id|]; [|done].
  match goal with |- context [create_node ?a ?b ?c ?d ?e ?f ?g ?h] =>
    pose proof (P_store c d e f g h HP) as H1;
    destruct (create_node a b c d e f g h) as [dn st1] end.
  simpl in H1.
  destruct (store node_id dn st1) as [a st2]. simpl in H1.
  match goal with |- context [process_children ?f ?l ?s] =>
    pose proof (preserved_children f l) as H2;
    destruct (process_children f l s) as [st3 children_ids] eqn:Echildren end.
  assert (H3 : P st3).
  { assert (Hcs : Forall (fun c => forall s, P s ->
        P (_process_node sl al c (Some node_id) (depth + 1) s).1) cs).
    { eapply Forall_impl; [exact IHc|]. simpl. intros c Hc s. apply Hc. }
    specialize (H2 Hcs st2 H1). by rewrite Echildren in H2. }
  clear H2. simpl.
  match goal with |- P (if _ then write a ?g ?s else ?s) =>
    assert (H4 : P s) end.
  { apply preserved_shadow_roots.
    { eapply Forall_impl; [exact IHs|]. simpl. intros c Hc s. apply Hc. }
    apply preserved_content_document.
    { intros d Hd s. by apply IHd. }
    apply P_write; [apply link_update_children|done]. }
  destruct (DOMNode.is_element dn); [|done].
  apply P_write; [apply link_update_text|done].
Qed.

#[local] Transparent create_node store write aggregate_text.

Lemma preserved_build_dom_tree root st :
  P st -> P (_build_dom_tree root sl al st).
Proof.
  intros HP. destruct root as [r|]; simpl; [|done].
  by apply preserved_process_node.
Qed.

End Preserved.

End ExtractorInvariants.

Section SelectorMapFacts.
Context `{Py.Runtime}.
Import DOMExtractor.

Lemma elem_of_alter_inv {A} (f : A -> A) (a : nat) (l : list A) (x : A) :
  x ∈ alter f a l -> x ∈ l \/ exists y, y ∈ l /\ x = f y.
Proof.
  revert a. induction l as [|z l IH]; intros [|a]; simpl; intros Hx.
  - by left.
  - by left.
  - apply elem_of_cons in Hx as [->|Hx].
    + right. exists z. split; [left|done].
    + left. by right.
  - apply elem_of_cons in Hx as [->|Hx]; [left; left|].
    apply IH in Hx as [Hx|(y & Hy & ->)]; [left; by right|].
    right. exists y. split; [by right|done].
Qed.

Lemma elem_of_alter_fwd {A} (f : A -> A) (a : nat) (l : list A) (y : A) :
  y ∈ l -> y ∈ alter f a l \/ f y ∈ alter f a l.
Proof.
  revert a. induction l as [|z l IH]; intros [|a]; simpl; intros Hy;
    try by left.
  - apply elem_of_cons in Hy as [->|Hy]; [right; left|left; by right].
  - apply elem_of_cons in Hy as [->|Hy]; [left; left|].
    destruct (IH a Hy); [left|right]; by right.
Qed.

(** The selector map and the indexed objects agree: an object with index
    [i] has its selector information stored under [i], every index in use
    is below the counter, and every key of the map is the index of an
    object. *)
Definition selectors_ok (st : t) : Prop :=
  (forall n i, n ∈ objects st -> DOMNode.index n = Some i ->
     i < _interactive_index st /\
     _selector_map st !! i = Some (DOMNode.to_selector_info n)) /\
  (forall i, is_Some (_selector_map st !! i) ->
     exists n, n ∈ objects st /\ DOMNode.index n = Some i).

Lemma selectors_ok_init vw vh : selectors_ok (init vw vh).
Proof.
  split; simpl.
  - intros n i Hn. by apply elem_of_nil in Hn.
  - intros i Hi. rewrite lookup_empty in Hi. by destruct Hi.
Qed.

Lemma selectors_ok_store sl al node node_id bid parent depth st :
  selectors_ok st ->
  selectors_ok
    (store node_id (create_node sl al node node_id bid parent depth st).1
       (create_node sl al node node_id bid parent depth st).2).2.
Proof.
  intros [Hobj Hkey]. unfold store, create_node.
  match goal with |- context [if ?c then _ else _] => destruct c end; simpl.
  - split; simpl.
    + intros n i Hn Hi. apply elem_of_app in Hn as [Hn|Hn].
      * destruct (Hobj n i Hn Hi) as [Hlt Hsel]. split; [lia|].
        rewrite lookup_insert_ne by lia. done.
      * apply list_elem_of_singleton in Hn as ->. simpl in Hi.
        injection Hi as <-. split; [lia|].
        by rewrite lookup_insert_eq.
    + intros i Hi.
      destruct (decide (_interactive_index st = i)) as [<-|Hne].
      * eexists. split; [apply elem_of_app; right; apply list_elem_of_singleton;
                         reflexivity|reflexivity].
      * rewrite lookup_insert_ne in Hi by done.
        destruct (Hkey i Hi) as (n & Hn & Hidx).
        exists n. split; [apply elem_of_app; by left|done].
  - split; simpl.
    + intros n i Hn Hi. apply elem_of_app in Hn as [Hn|Hn]; [by apply Hobj|].
      apply list_elem_of_singleton in Hn as ->. discriminate.
    + intros i Hi. destruct (Hkey i Hi) as (n & Hn & Hidx).
      exists n. split; [apply elem_of_app; by left|done].
Qed.

Lemma selectors_ok_write a f st :
  link_update f -> selectors_ok st -> selectors_ok (write a f st).
Proof.
  intros Hf [Hobj Hkey]. split; simpl.
  - intros n i Hn Hi.
    apply elem_of_alter_inv in Hn as [Hn|(y & Hy & ->)]; [by apply Hobj|].
    destruct (Hf y) as (c & d & ty & s & tx & Hfy). rewrite Hfy in Hi |- *.
    exact (Hobj y i Hy Hi).
  - intros i Hi. destruct (Hkey i Hi) as (n & Hn & Hidx).
    destruct (elem_of_alter_fwd f a _ n Hn) as [Hn'|Hn'].
    + by exists n.
    + exists (f n). split; [done|].
      destruct (Hf n) as (c & d & ty & s & tx & Hfn). by rewrite Hfn.
Qed.

Lemma selectors_ok_build root sl al st :
  selectors_ok st -> selectors_ok (_build_dom_tree root sl al st).
Proof.
  apply preserved_build_dom_tree.
  - intros. by apply selectors_ok_store.
  - intros. by apply selectors_ok_write.
Qed.

Lemma elem_of_zseq start k x :
  x ∈ zseq start k <-> start <= x < start + Z.of_nat k.
Proof.
  unfold zseq. rewrite list_elem_of_fmap. split.
  - intros (i & -> & Hi). apply elem_of_seq in Hi. lia.
  - intros Hx. exists (Z.to_nat (x - start)). split; [lia|].
    apply elem_of_seq. lia.
Qed.

Lemma elem_of_omap_index (l : list DOMNode.t) i :
  i ∈ omap DOMNode.index l <-> exists n, n ∈ l /\ DOMNode.index n = Some i.
Proof. apply list_elem_of_omap. Qed.

(** X7. After a pass of a fresh extractor, the selector map has exactly
    the keys 1, ..., k that were handed out, and the entry under [i] is the
    selector information of the object that carries the index [i], read
    from the object as it is at the end of the pass. *)
Theorem selector_map_matches_indexed_nodes
    (sl : gmap Z SnapshotEntry) (al : gmap Z AxEntry) (root : option RawNode)
    (vw vh : Z) :
  let st := _build_dom_tree root sl al (init vw vh) in
  forall i,
    (is_Some (_selector_map st !! i) <-> 1 <= i < _interactive_index st) /\
    (forall info,
       _selector_map st !! i = Some info <->
       exists n, n ∈ objects st /\ DOMNode.index n = Some i /\
                 info = DOMNode.to_selector_info n).
Proof.
  intros st i.
  destruct (selectors_ok_build root sl al _ (selectors_ok_init vw vh))
    as [Hobj Hkey]. fold st in Hobj, Hkey.
  destruct (walk_build_dom_tree sl al root (init vw vh))
    as [_ (k & Hidx & Hnext) _ _]. fold st in Hidx, Hnext.
  simpl in Hidx, Hnext.
  assert (Hrange : (exists n, n ∈ objects st /\ DOMNode.index n = Some i) <->
                   1 <= i < _interactive_index st).
  { rewrite <- elem_of_omap_index, Hidx, elem_of_zseq. lia. }
  split.
  - rewrite <- Hrange. split; [apply Hkey|].
    intros (n & Hn & Hi). destruct (Hobj n i Hn Hi) as [_ ->]. eauto.
  - intros info. split.
    + intros Hinfo. destruct (Hkey i) as (n & Hn & Hi); [eauto|].
      exists n. split; [done|]. split; [done|].
      destruct (Hobj n i Hn Hi) as [_ Hsel]. congruence.
    + intros (n & Hn & Hi & ->). by destruct (Hobj n i Hn Hi).
Qed.

End SelectorMapFacts.

Section RegistryFacts.
Context `{Py.Runtime}.
Import DOMExtractor.

Lemma dict_get_set_eq {V} (k : Z) (v : V) (d : Dict.t V) :
  Dict.get k (Dict.set k v d) = Some v.
Proof.
  induction d as [|[k' v'] d IH]; simpl.
  - by rewrite decide_True.
  - destruct (decide (k' = k)); simpl.
    + by rewrite decide_True.
    + by rewrite decide_False.
Qed.

Lemma dict_get_set_ne {V} (k k' : Z) (v : V) (d : Dict.t V) :
  k <> k' -> Dict.get k' (Dict.set k v d) = Dict.get k' d.
Proof.
  intros Hne. induction d as [|[k0 v0] d IH]; simpl.
  - by rewrite decide_False.
  - destruct (decide (k0 = k)) as [->|]; simpl.
    + by rewrite !decide_False.
    + destruct (decide (k0 = k')); [done|apply IH].
Qed.

Lemma dict_set_fresh {V} (k : Z) (v : V) (d : Dict.t V) :
  k ∉ d.*1 -> Dict.set k v d = (d ++ [(k, v)])%list.
Proof.
  induction d as [|[k' v'] d IH]; simpl; intros Hk; [done|].
  apply not_elem_of_cons in Hk as [Hne Hk].
  rewrite decide_False by congruence. f_equal. by apply IH.
Qed.

(** With pairwise distinct node ids, [_nodes] lists the objects in
    creation order. *)
Definition registry_ok (st : t) : Prop :=
  NoDup (DOMNode.node_id <$> objects st) ->
  _nodes st =
  zip (DOMNode.node_id <$> objects st) (seq 0 (length (objects st))).

Lemma registry_ok_init vw vh : registry_ok (init vw vh).
Proof. intros _. reflexivity. Qed.

Lemma registry_ok_store sl al node node_id bid parent depth st :
  registry_ok st ->
  registry_ok
    (store node_id (create_node sl al node node_id bid parent depth st).1
       (create_node sl al node node_id bid parent depth st).2).2.
Proof.
  intros Hreg. unfold store, create_node.
  match goal with |- context [if ?c then _ else _] => destruct c end; simpl;
    unfold registry_ok; simpl;
    rewrite fmap_app, length_app, seq_app; simpl;
    intros Hnd; apply NoDup_app in Hnd as (Hnd & Hfresh & _);
    (rewrite zip_with_app by (by rewrite length_fmap, length_seq)); simpl;
    rewrite <- (Hreg Hnd);
    apply dict_set_fresh;
    rewrite (Hreg Hnd), fst_zip by (by rewrite length_fmap, length_seq);
    intros Hin; apply (Hfresh _ Hin); by left.
Qed.

Lemma registry_ok_write a f st :
  link_update f -> registry_ok st -> registry_ok (write a f st).
Proof.
  intros Hf Hreg. unfold registry_ok. simpl.
  rewrite length_alter.
  rewrite (fmap_alter_same DOMNode.node_id f a).
  - exact Hreg.
  - intros n. destruct (Hf n) as (c & d & ty & s & tx & ->). reflexivity.
Qed.

Lemma registry_ok_build root sl al st :
  registry_ok st -> registry_ok (_build_dom_tree root sl al st).
Proof.
  apply preserved_build_dom_tree.
  - intros. by apply registry_ok_store.
  - intros. by apply registry_ok_write.
Qed.

Lemma omap_lookup_seq {A} (pre l : list A) :
  omap (fun a => (pre ++ l)%list !! a) (seq (length pre) (length l)) = l.
Proof.
  revert pre. induction l as [|x l IH]; intros pre; simpl; [done|].
  rewrite list_lookup_middle by done. f_equal.
  specialize (IH (pre ++ [x])%list).
  rewrite length_app, <- app_assoc in IH. simpl in IH.
  by rewrite Nat.add_1_r in IH.
Qed.

Lemma nodes_values_subset st n : n ∈ Extract.nodes_values st -> n ∈ objects st.
Proof.
  unfold Extract.nodes_values. intros Hn.
  apply list_elem_of_omap in Hn as (a & _ & Ha).
  by eapply list_elem_of_lookup_2.
Qed.

(** After a pass of a fresh extractor over a tree with pairwise distinct
    node ids, [_nodes.values()] is the list of all objects. *)
Lemma nodes_values_all sl al root vw vh :
  NoDup (omap nodeId (match root with Some r => visit_order r | None => [] end)) ->
  Extract.nodes_values (_build_dom_tree root sl al (init vw vh)) =
  objects (_build_dom_tree root sl al (init vw vh)).
Proof.
  intros Hnd.
  pose proof (registry_ok_build root sl al _ (registry_ok_init vw vh)) as Hreg.
  destruct (walk_build_dom_tree sl al root (init vw vh)) as [Hids _ _ _].
  simpl in Hids. unfold registry_ok in Hreg. rewrite Hids in Hreg.
  specialize (Hreg Hnd). unfold Extract.nodes_values, Dict.values.
  rewrite Hreg, snd_zip.
  - apply (omap_lookup_seq []).
  - rewrite length_seq, <- Hids, length_fmap. done.
Qed.

Lemma head_filter_Some {A} (P : A -> Prop) `{forall x, Decision (P x)}
    (l : list A) (x : A) :
  head (filter P l) = Some x -> x ∈ l /\ P x.
Proof.
  intros Hx. apply head_Some_elem_of in Hx. by apply list_elem_of_filter in Hx as [? ?].
Qed.

Lemma head_filter_is_Some {A} (P : A -> Prop) `{forall x, Decision (P x)}
    (l : list A) (x : A) :
  x ∈ l -> P x -> is_Some (head (filter P l)).
Proof.
  intros Hx HP.
  assert (Hin : x ∈ filter P l) by (by apply list_elem_of_filter).
  destruct (filter P l); [by apply elem_of_nil in Hin|simpl; eauto].
Qed.

(** X8. [get_node_by_index] after a pass of a fresh extractor: the node
    it returns carries the index asked for, is visible and interactive,
    and is the node whose selector information the selector map holds
    under that index. When the node ids of the tree are pairwise distinct,
    every index that was handed out is found. *)
Theorem get_node_by_index_round_trip
    (sl : gmap Z SnapshotEntry) (al : gmap Z AxEntry) (root : option RawNode)
    (vw vh : Z) :
  let st := _build_dom_tree root sl al (init vw vh) in
  (forall i n, Extract.get_node_by_index st i = Some n ->
     DOMNode.index n = Some i /\
     1 <= i < _interactive_index st /\
     _selector_map st !! i = Some (DOMNode.to_selector_info n) /\
     DOMNode.is_visible n = true /\ DOMNode.is_interactive n = true) /\
  (NoDup (omap nodeId
            (match root with Some r => visit_order r | None => [] end)) ->
   forall i, 1 <= i < _interactive_index st ->
     is_Some (Extract.get_node_by_index st i)).
Proof.
  intros st.
  destruct (selectors_ok_build root sl al _ (selectors_ok_init vw vh))
    as [Hobj Hkey]. fold st in Hobj, Hkey.
  destruct (walk_build_dom_tree sl al root (init vw vh))
    as [_ (k & Hidx & Hnext) Hsound _]. fold st in Hidx, Hnext, Hsound.
  simpl in Hidx, Hnext.
  assert (Hs : Forall sound (objects st)) by (apply Hsound; constructor).
  split.
  - intros i n Hget. unfold Extract.get_node_by_index in Hget.
    apply head_filter_Some in Hget as [Hn Hi].
    apply nodes_values_subset in Hn.
    destruct (Hobj n i Hn Hi) as [Hlt Hsel].
    split; [done|]. split.
    + split; [|done].
      assert (Hin : i ∈ omap DOMNode.index (objects st))
        by (apply elem_of_omap_index; eauto).
      rewrite Hidx in Hin. apply elem_of_zseq in Hin. lia.
    + split; [done|].
      rewrite Forall_forall in Hs. destruct (Hs n Hn) as (_ & ? & ?); [congruence|done].
  - intros Hnd i Hi. unfold Extract.get_node_by_index.
    unfold st. rewrite nodes_values_all by done. fold st.
    assert (Hin : i ∈ omap DOMNode.index (objects st)).
    { rewrite Hidx. apply elem_of_zseq. lia. }
    apply elem_of_omap_index in Hin as (n & Hn & Hidx').
    by eapply head_filter_is_Some.
Qed.

(** The two dictionary comprehensions of [extract]. *)
Definition index_step (d : Dict.t NodeData.t) (n : DOMNode.t) : Dict.t NodeData.t :=
  match DOMNode.index n with
  | Some i => Dict.set i (Extract._node_to_dict n) d
  | None => d
  end.

Lemma get_foldl_index_inv l d0 i d :
  Dict.get i (foldl index_step d0 l) = Some d ->
  Dict.get i d0 = Some d \/
  exists n, n ∈ l /\ DOMNode.index n = Some i /\ d = Extract._node_to_dict n.
Proof.
  induction l as [|x l IH] using rev_ind; simpl; [by left|].
  rewrite foldl_app. simpl. unfold index_step at 1.
  destruct (DOMNode.index x) as [j|] eqn:Ej.
  - destruct (decide (j = i)) as [->|Hne].
    + rewrite dict_get_set_eq. intros [= <-]. right. exists x.
      split; [apply elem_of_app; right; by left|done].
    + rewrite dict_get_set_ne by done. intros Hd.
      destruct (IH Hd) as [?|(n & Hn & ? & ?)]; [by left|].
      right. exists n. split; [apply elem_of_app; by left|done].
  - intros Hd. destruct (IH Hd) as [?|(n & Hn & ? & ?)]; [by left|].
    right. exists n. split; [apply elem_of_app; by left|done].
Qed.

Lemma get_foldl_index_some l d0 i n :
  n ∈ l -> DOMNode.index n = Some i ->
  is_Some (Dict.get i (foldl index_step d0 l)).
Proof.
  induction l as [|x l IH] using rev_ind; intros Hn Hi;
    [by apply elem_of_nil in Hn|].
  rewrite foldl_app. simpl. unfold index_step at 1.
  destruct (DOMNode.index x) as [j|] eqn:Ej.
  - destruct (decide (j = i)) as [->|Hne].
    + rewrite dict_get_set_eq. eauto.
    + rewrite dict_get_set_ne by done. apply IH; [|done].
      apply elem_of_app in Hn as [Hn|Hn]; [done|].
      apply list_elem_of_singleton in Hn as ->. congruence.
  - apply IH; [|done].
    apply elem_of_app in Hn as [Hn|Hn]; [done|].
    apply list_elem_of_singleton in Hn as ->. congruence.
Qed.

(** X9. In the [DOMState] that [extract] builds with a fresh extractor,
    an interactive element found under an index carries that index, is
    visible, and the selector map has an entry under the same index with
    the same backend node, tag, attributes and bounds. When the node ids
    of the tree are pairwise distinct, every key of the selector map is
    also a key of the interactive elements. *)
Theorem extract_index_resolves
    (sl : gmap Z SnapshotEntry) (al : gmap Z AxEntry) (root : option RawNode)
    (vw vh : Z) :
  let state := (Extract.extract root sl al (init vw vh)).1 in
  (forall i d, DOMState.get_interactive_element state i = Some d ->
     NodeData.index d = Some i /\ NodeData.is_visible d = true /\
     exists info, DOMState.get_selector state i = Some info /\
       sel_backend_node_id info = NodeData.backend_node_id d /\
       sel_tag_name info = NodeData.tag_name d /\
       sel_attributes info = NodeData.attributes d /\
       sel_bounds info = NodeData.bounds d) /\
  (NoDup (omap nodeId
            (match root with Some r => visit_order r | None => [] end)) ->
   forall i, is_Some (DOMState.get_selector state i) ->
     is_Some (DOMState.get_interactive_element state i)).
Proof.
  intros state.
  set (st := _build_dom_tree root sl al (init vw vh)).
  destruct (selectors_ok_build root sl al _ (selectors_ok_init vw vh))
    as [Hobj Hkey]. fold st in Hobj, Hkey.
  destruct (walk_build_dom_tree sl al root (init vw vh))
    as [_ _ Hsound _]. fold st in Hsound.
  assert (Hs : Forall sound (objects st)) by (apply Hsound; constructor).
  assert (Hie : DOMState.interactive_elements state =
                foldl index_step [] (Extract.nodes_values st)) by reflexivity.
  assert (Hsm : DOMState.selector_map state = _selector_map st) by reflexivity.
  unfold DOMState.get_interactive_element, DOMState.get_selector.
  rewrite Hie, Hsm. split.
  - intros i d Hd.
    apply get_foldl_index_inv in Hd as [Hd|(n & Hn & Hi & ->)]; [discriminate|].
    apply nodes_values_subset in Hn.
    destruct (Hobj n i Hn Hi) as [_ Hsel]. simpl.
    split; [done|]. split.
    + rewrite Forall_forall in Hs. destruct (Hs n Hn) as (_ & ? & _); [congruence|done].
    + exists (DOMNode.to_selector_info n). by rewrite Hsel.
  - intros Hnd i Hi. destruct (Hkey i Hi) as (n & Hn & Hidx).
    unfold st. rewrite nodes_values_all by done. fold st.
    by eapply get_foldl_index_some.
Qed.

(** A later pass over an extractor that is not fresh. *)
Section SecondPass.
Variable st0 : t.
Hypothesis st0_keys : forall i,
  is_Some (_selector_map st0 !! i) -> i < _interactive_index st0.

Definition keeps_selectors (st : t) : Prop :=
  _selector_map st0 ⊆ _selector_map st /\
  _interactive_index st0 <= _interactive_index st.

Lemma keeps_selectors_store sl al node node_id bid parent depth st :
  keeps_selectors st ->
  keeps_selectors
    (store node_id (create_node sl al node node_id bid parent depth st).1
       (create_node sl al node node_id bid parent depth st).2).2.
Proof.
  intros [Hsub Hle]. unfold store, create_node.
  match goal with |- context [if ?c then _ else _] => destruct c end; simpl;
    (split; simpl; [|lia || done]); [|done].
  apply insert_subseteq_r; [|done].
  destruct (_selector_map st0 !! _interactive_index st) eqn:E; [|done].
  assert (_interactive_index st < _interactive_index st0)
    by (apply st0_keys; eauto).
  lia.
Qed.

Lemma keeps_selectors_build root sl al :
  keeps_selectors (_build_dom_tree root sl al st0).
Proof.
  apply preserved_build_dom_tree.
  - intros. by apply keeps_selectors_store.
  - intros a f st _ HP. exact HP.
  - split; [done|lia].
Qed.

End SecondPass.

(** X10. [_build_dom_tree] resets neither the counter nor the selector
    map. A second pass over the same extractor numbers its interactive
    elements from where the first pass stopped, not from 1, and the
    selector map afterwards still holds every entry of the first pass. *)
Theorem second_pass_keeps_stale_selectors
    (sl1 sl2 : gmap Z SnapshotEntry) (al1 al2 : gmap Z AxEntry)
    (root1 root2 : option RawNode) (vw vh : Z) :
  let st1 := _build_dom_tree root1 sl1 al1 (init vw vh) in
  let st2 := _build_dom_tree root2 sl2 al2 st1 in
  _selector_map st1 ⊆ _selector_map st2 /\
  exists k1 k2 : nat,
    omap DOMNode.index (objects st1) = zseq 1 k1 /\
    omap DOMNode.index (objects st2) =
      (zseq 1 k1 ++ zseq (1 + Z.of_nat k1) k2)%list /\
    (forall i, is_Some (_selector_map st2 !! i) <->
               1 <= i < 1 + Z.of_nat k1 + Z.of_nat k2).
Proof.
  intros st1 st2.
  destruct (selectors_ok_build root1 sl1 al1 _ (selectors_ok_init vw vh))
    as [Hobj1 Hkey1]. fold st1 in Hobj1, Hkey1.
  destruct (selectors_ok_build root2 sl2 al2 st1 (conj Hobj1 Hkey1))
    as [Hobj2 Hkey2]. fold st2 in Hobj2, Hkey2.
  destruct (walk_build_dom_tree sl1 al1 root1 (init vw vh))
    as [_ (k1 & Hidx1 & Hnext1) _ _]. fold st1 in Hidx1, Hnext1.
  simpl in Hidx1, Hnext1.
  destruct (walk_build_dom_tree sl2 al2 root2 st1)
    as [_ (k2 & Hidx2 & Hnext2) _ _]. fold st2 in Hidx2, Hnext2.
  split.
  - apply (keeps_selectors_build st1).
    intros i Hi. destruct (Hkey1 i Hi) as (n & Hn & Hidx).
    by destruct (Hobj1 n i Hn Hidx).
  - exists k1, k2. split; [done|]. split; [by rewrite Hidx2, Hidx1, Hnext1|].
    intros i. split.
    + intros Hi. destruct (Hkey2 i Hi) as (n & Hn & Hidx).
      assert (Hin : i ∈ omap DOMNode.index (objects st2))
        by (apply elem_of_omap_index; eauto).
      rewrite Hidx2, Hidx1, Hnext1 in Hin.
      apply elem_of_app in Hin as [Hin|Hin]; apply elem_of_zseq in Hin; lia.
    + intros Hi.
      assert (Hin : i ∈ omap DOMNode.index (objects st2)).
      { rewrite Hidx2, Hidx1, Hnext1. apply elem_of_app.
        rewrite !elem_of_zseq. lia. }
      apply elem_of_omap_index in Hin as (n & Hn & Hidx).
      destruct (Hobj2 n i Hn Hidx) as [_ ->]. eauto.
Qed.

End RegistryFacts.

Lemma get_node_by_index_round_trip_witness :
  is_Some
    (Extract.get_node_by_index
       (DOMExtractor._build_dom_tree (H := Fixtures.runtime)
          (Some Fixtures.two_buttons_page) Fixtures.two_buttons_layout ∅
          (DOMExtractor.init 1280 720)) 3).
Proof.
  apply (proj2 (get_node_by_index_round_trip (H := Fixtures.runtime)
                  Fixtures.two_buttons_layout ∅
                  (Some Fixtures.two_buttons_page) 1280 720)).
  - apply (bool_decide_unpack _). vm_compute. exact I.
  - split; vm_compute; [discriminate|reflexivity].
Defined.

Lemma extract_index_resolves_witness :
  is_Some (DOMState.get_interactive_element Fixtures.two_buttons_state 3).
Proof.
  apply (proj2 (extract_index_resolves (H := Fixtures.runtime)
                  Fixtures.two_buttons_layout ∅
                  (Some Fixtures.two_buttons_page) 1280 720)).
  - apply (bool_decide_unpack _). vm_compute. exact I.
  - vm_compute. eauto.
Defined.

(* --------------------------------------------------------------------- *)
(** ** The text of a node record                                          *)
(* --------------------------------------------------------------------- *)

Section NodeTextFacts.
Context `{Py.Runtime}.

Lemma string_length_app (a b : string) :
  String.length (a +:+ b) = (String.length a + String.length b)%nat.
Proof. induction a as [|c a IH]; simpl; [done|]. by rewrite IH. Qed.

Lemma get_text_length (n : DOMNode.t) :
  String.length (DOMNode.get_text n) =
  Nat.min (String.length (Py.strip (DOMNode.text_content n))) 100.
Proof.
  unfold DOMNode.get_text.
  destruct (Nat.ltb_spec 100 (String.length (Py.strip (DOMNode.text_content n)))).
  - rewrite string_length_app, length_substring_0.
    change (String.length "...") with 3%nat. lia.
  - lia.
Qed.

Lemma Forall_values_set {V} (Q : V -> Prop) (k : Z) (v : V) (d : Dict.t V) :
  Q v -> Forall Q (Dict.values d) -> Forall Q (Dict.values (Dict.set k v d)).
Proof.
  intros Hv. unfold Dict.values.
  induction d as [|[k' v'] d IH]; simpl; intros Hd.
  - by constructor.
  - inversion Hd; subst.
    destruct (decide (k' = k)); simpl; constructor; auto.
Qed.

Lemma Forall_values_foldl {A V} (Q : V -> Prop) (step : Dict.t V -> A -> Dict.t V)
    (l : list A) (d0 : Dict.t V) :
  (forall d x, Forall Q (Dict.values d) -> Forall Q (Dict.values (step d x))) ->
  Forall Q (Dict.values d0) -> Forall Q (Dict.values (foldl step d0 l)).
Proof.
  intros Hstep. revert d0. induction l as [|x l IH]; intros d0 Hd; simpl; auto.
Qed.

(** X11. Every node record of the [DOMState] built by [extract], in
    [nodes] and in [interactive_elements], carries a text of at most 100
    characters, whatever the text of the page and whatever the extractor
    held before. *)
Theorem extract_text_at_most_100
    (sl : gmap Z SnapshotEntry) (al : gmap Z AxEntry) (root : option RawNode)
    (self : DOMExtractor.t) :
  let state := (Extract.extract root sl al self).1 in
  Forall (fun d => (String.length (NodeData.text d) <= 100)%nat)
    (Dict.values (DOMState.nodes state)) /\
  Forall (fun d => (String.length (NodeData.text d) <= 100)%nat)
    (Dict.values (DOMState.interactive_elements state)).
Proof.
  intros state.
  assert (Hd : forall n,
    (String.length (NodeData.text (Extract._node_to_dict n)) <= 100)%nat).
  { intros n. simpl. rewrite get_text_length. lia. }
  split; simpl; apply Forall_values_foldl; try constructor.
  - intros d x Hq. by apply Forall_values_set.
  - intros d x Hq. destruct (DOMNode.index x); [|done].
    by apply Forall_values_set.
Qed.

End NodeTextFacts.

(* --------------------------------------------------------------------- *)
(** ** Describing an extracted element                                    *)
(* --------------------------------------------------------------------- *)

Section DescriptionFacts.
Context `{Py.Runtime}.
Import DOMExtractor.

(** The data that an object takes from the two lookup tables. *)
Definition lookup_data_ok (sl : gmap Z SnapshotEntry) (al : gmap Z AxEntry)
    (n : DOMNode.t) : Prop :=
  DOMNode.bounds n = sl !! DOMNode.backend_node_id n ≫= entry_bounds /\
  DOMNode.computed_styles n = sl !! DOMNode.backend_node_id n ≫= entry_styles /\
  DOMNode.accessibility n =
    (fun e => AccessibilityInfo.mk (ax_role e) (ax_name e) (ax_description e))
      <$> al !! DOMNode.backend_node_id n.

Lemma lookup_data_build sl al root vw vh :
  Forall (lookup_data_ok sl al) (objects (_build_dom_tree root sl al (init vw vh))).
Proof.
  apply (preserved_build_dom_tree sl al
           (fun st => Forall (lookup_data_ok sl al) (objects st))).
  - intros node node_id bid parent depth st HP. unfold store, create_node.
    match goal with |- context [if ?c then _ else _] => destruct c end; simpl;
      (apply Forall_app; split; [done|]); constructor; try constructor;
      by repeat split.
  - intros a f st Hf HP. simpl. apply Forall_alter_same; [|done].
    intros n Hn. destruct (Hf n) as (c & d & ty & s & tx & ->). exact Hn.
  - constructor.
Qed.

Lemma dict_get_values {V} (k : Z) (d : Dict.t V) (v : V) :
  Dict.get k d = Some v -> v ∈ Dict.values d.
Proof.
  unfold Dict.values. induction d as [|[k' v'] d IH]; simpl; [done|].
  destruct (decide (k' = k)).
  - intros [= ->]. left.
  - intros Hv. right. by apply IH.
Qed.

(** Whether [attrs.get("aria-label")] is truthy. *)
Definition has_label (element : NodeData.t) : bool :=
  Py.opt_str_truthy (NodeData.attributes element !! "aria-label").

Lemma description_raises (element : NodeData.t) :
  match get_element_description element with
  | inl ex =>
      (exists msg, ex = AttributeError msg) /\
      NodeData.accessibility element = None /\ has_label element = false
  | inr _ =>
      NodeData.accessibility element <> None \/ has_label element = true
  end.
Proof.
  unfold get_element_description, has_label, Py.opt_str_truthy.
  destruct (NodeData.attributes element !! "aria-label") as [s|].
  - destruct (Py.str_truthy s).
    + repeat match goal with |- context [if ?c then _ else _] => destruct c end;
        by right.
    + destruct (NodeData.accessibility element) as [[role name]|].
      * repeat match goal with |- context [if ?c then _ else _] => destruct c end;
          by left.
      * split; [eauto|done].
  - destruct (NodeData.accessibility element) as [[role name]|].
    + repeat match goal with |- context [if ?c then _ else _] => destruct c end;
        by left.
    + split; [eauto|done].
Qed.

Lemma Forall_values_foldl_elem {A V} (Q : V -> Prop)
    (step : Dict.t V -> A -> Dict.t V) (l : list A) (d0 : Dict.t V) :
  (forall d x, x ∈ l -> Forall Q (Dict.values d) -> Forall Q (Dict.values (step d x))) ->
  Forall Q (Dict.values d0) -> Forall Q (Dict.values (foldl step d0 l)).
Proof.
  revert d0. induction l as [|x l IH]; intros d0 Hstep Hd; simpl; [done|].
  apply IH.
  - intros d y Hy. apply Hstep. by right.
  - apply Hstep; [left|done].
Qed.

(** X12. [get_element_description] reads [.get("name")] from the
    ["accessibility"] entry of the record, which [_node_to_dict] sets to
    [None] for a node without accessibility data. It therefore raises
    [AttributeError] exactly for a record without accessibility data and
    without a non-empty [aria-label]. In particular, when the
    accessibility tree is empty, it raises for every node record of the
    extracted state that has no non-empty [aria-label], and returns for
    the others. *)
Theorem description_needs_accessibility
    (sl : gmap Z SnapshotEntry) (root : option RawNode) (vw vh : Z) :
  (forall element,
     (exists ex, get_element_description element = inl ex) <->
     NodeData.accessibility element = None /\ has_label element = false) /\
  let state := (Extract.extract root sl ∅ (init vw vh)).1 in
  forall id d, DOMState.get_node state id = Some d ->
    if has_label d
    then exists text, get_element_description d = inr text
    else exists msg, get_element_description d = inl (AttributeError msg).
Proof.
  split.
  - intros element. pose proof (description_raises element) as Hd.
    destruct (get_element_description element) as [ex|text].
    + split; [intros _; tauto|eauto].
    + split; [intros [ex [=]]|].
      intros [Hax Hlabel]. destruct Hd; congruence.
  - intros state id d Hget.
    assert (Hax : NodeData.accessibility d = None).
    { apply dict_get_values in Hget. revert d Hget. apply Forall_forall.
      simpl. apply Forall_values_foldl_elem; [|constructor].
      intros dict n Hn Hq. apply Forall_values_set; [|done]. simpl.
      apply nodes_values_subset in Hn.
      pose proof (lookup_data_build sl ∅ root vw vh) as Hdata.
      rewrite Forall_forall in Hdata.
      destruct (Hdata n Hn) as (_ & _ & ->). by rewrite lookup_empty. }
    pose proof (description_raises d) as Hd.
    destruct (get_element_description d) as [ex|text].
    + destruct Hd as [[msg Hmsg] [_ Hlabel]]. rewrite Hlabel, Hmsg. eauto.
    + destruct Hd as [Hd|Hlabel]; [congruence|]. rewrite Hlabel. eauto.
Qed.

End DescriptionFacts.

Lemma description_needs_accessibility_witness :
  exists d msg,
    DOMState.get_node Fixtures.two_buttons_state 2 = Some d /\
    get_element_description d = inl (AttributeError msg).
Proof.
  destruct (DOMState.get_node Fixtures.two_buttons_state 2) as [d|] eqn:E;
    [|vm_compute in E; discriminate].
  pose proof (proj2 (description_needs_accessibility (H := Fixtures.runtime)
                       Fixtures.two_buttons_layout
                       (Some Fixtures.two_buttons_page) 1280 720) 2 d E) as Hd.
  assert (Hl : has_label d = false).
  { vm_compute in E. injection E as <-. reflexivity. }
  rewrite Hl in Hd. destruct Hd as [msg Hmsg].
  exists d, msg. split; [reflexivity|exact Hmsg].
Defined.

(* --------------------------------------------------------------------- *)
(** ** The state cache of the browser session                             *)
(* --------------------------------------------------------------------- *)

Section SessionFacts.
Import BrowserSession.


End SessionFacts.


Section SessionMarks.
Import BrowserSession.

Lemma get_state_refresh (self self' : t) (driver : DriverReply)
    (state : BrowserState.t) :
  get_state self true driver = (self', inr state) ->
  exists reply,
    reply_state driver = inr reply /\
    state = match _previous_state self with
            | Some previous => BrowserState.mark_new_elements reply (Some previous)
            | None => reply
            end /\
    _current_state self' = Some state /\
    _previous_state self' = _current_state self.
Proof.
  unfold get_state. destruct (_is_active self); simpl; [|discriminate].
  destruct (reply_state driver) as [e|reply]; [discriminate|].
  destruct (reply_selector_map driver) as [e|selector_map]; [discriminate|].
  intros [= <- <-]. exists reply. by repeat split.
Qed.

(** X14. The state that a refresh is marked against is the one stored in
    [_previous_state], which the preceding refresh has set to the state
    before it. So of three successive refreshes that return, the third
    state is the driver's state marked against the first returned state,
    whatever the second one was; and in a session without a current state
    the first two refreshes return the driver's states as they are. *)
Theorem refresh_marks_against_state_two_back
    (self self1 self2 self3 : t) (d1 d2 d3 : DriverReply)
    (s1 s2 s3 : BrowserState.t) :
  get_state self true d1 = (self1, inr s1) ->
  get_state self1 true d2 = (self2, inr s2) ->
  get_state self2 true d3 = (self3, inr s3) ->
  (exists r3, reply_state d3 = inr r3 /\
     s3 = BrowserState.mark_new_elements r3 (Some s1)) /\
  (_current_state self = None -> reply_state d2 = inr s2) /\
  (_previous_state self = None -> reply_state d1 = inr s1).
Proof.
  intros H1 H2 H3.
  apply get_state_refresh in H1 as (r1 & Hr1 & Hs1 & Hc1 & Hp1).
  apply get_state_refresh in H2 as (r2 & Hr2 & Hs2 & Hc2 & Hp2).
  apply get_state_refresh in H3 as (r3 & Hr3 & Hs3 & Hc3 & Hp3).
  rewrite Hp2, Hc1 in Hs3. rewrite Hp1 in Hs2.
  split; [eauto|]. split.
  - intros Hnone. rewrite Hnone in Hs2. congruence.
  - intros Hnone. rewrite Hnone in Hs1. congruence.
Qed.

End SessionMarks.

Lemma refresh_marks_against_state_two_back_witness :
  let o1 := BrowserSession.get_state BrowserSession.started true
              (Fixtures.reply "https://a" [1]) in
  let o2 := BrowserSession.get_state o1.1 true
              (Fixtures.reply "https://a" [1; 2]) in
  let o3 := BrowserSession.get_state o2.1 true
              (Fixtures.reply "https://a" [1; 2]) in
  exists s1 s3,
    o1.2 = inr s1 /\ o3.2 = inr s3 /\
    s3 = BrowserState.mark_new_elements (Fixtures.snapshot "https://a" [1; 2])
           (Some s1) /\
    Fixtures.marked_new o3.2 = [2].
Proof.
  intros o1 o2 o3.
  assert (E1 : BrowserSession.get_state BrowserSession.started true
                 (Fixtures.reply "https://a" [1])
               = (o1.1, inr (Fixtures.snapshot "https://a" [1])))
    by (vm_compute; reflexivity).
  assert (E2 : BrowserSession.get_state o1.1 true
                 (Fixtures.reply "https://a" [1; 2])
               = (o2.1, inr (Fixtures.snapshot "https://a" [1; 2])))
    by (vm_compute; reflexivity).
  assert (E3 : BrowserSession.get_state o2.1 true
                 (Fixtures.reply "https://a" [1; 2])
               = (o3.1,
                  inr (BrowserState.mark_new_elements
                         (Fixtures.snapshot "https://a" [1; 2])
                         (Some (Fixtures.snapshot "https://a" [1])))))
    by (vm_compute; reflexivity).
  destruct (refresh_marks_against_state_two_back _ _ _ _ _ _ _ _ _ _ E1 E2 E3)
    as ((r3 & Hr3 & Hs3) & _).
  simpl in Hr3. injection Hr3 as <-.
  eexists _, _. split; [vm_compute; reflexivity|].
  split; [vm_compute; reflexivity|]. split; [vm_compute; reflexivity|].
  vm_compute. reflexivity.
Defined.

(* --------------------------------------------------------------------- *)
(** ** Marking and paging of a browser state                              *)
(* --------------------------------------------------------------------- *)

Section BrowserStateFacts.
Import BrowserState.

(** X15. [mark_new_elements] against a state of the same URL sets
    [is_new] of every element to whether its index is absent from that
    state, and changes nothing else: the indices, in their order, stay.
    Against a state of another URL, or against [None], it changes nothing
    at all, so marks set earlier stay. Marked against itself, a state has
    no new element. *)
Theorem mark_new_elements_marks (self previous : t) :
  InteractiveElement.index <$> elements (mark_new_elements self (Some previous))
    = InteractiveElement.index <$> elements self /\
  (url self = url previous ->
   Forall (fun e =>
     InteractiveElement.is_new e = true <->
     InteractiveElement.index e ∉ InteractiveElement.index <$> elements previous)
     (elements (mark_new_elements self (Some previous)))) /\
  (url self <> url previous -> mark_new_elements self (Some previous) = self) /\
  mark_new_elements self None = self /\
  Forall (fun e => InteractiveElement.is_new e = false)
    (elements (mark_new_elements self (Some self))).
Proof.
  split; [|split; [|split; [|split]]].
  - unfold mark_new_elements.
    destruct (negb (url self =? url previous)%string); [done|].
    simpl. rewrite <- list_fmap_compose. by apply list_fmap_ext.
  - intros Hurl. rewrite mark_new_elements_spec by done.
    apply Forall_fmap, Forall_forall. intros e _. simpl.
    by rewrite bool_decide_eq_true.
  - apply mark_new_elements_other_url.
  - reflexivity.
  - rewrite mark_new_elements_spec by done.
    apply Forall_fmap, Forall_forall. intros e He. simpl.
    apply bool_decide_eq_false. intros Hnot. apply Hnot.
    apply list_elem_of_fmap. by exists e.
Qed.

Lemma Qdiv_gt_tenth (x v : Q) :
  (0 < v)%Q -> ((1 # 10) < x / v <-> (1 # 10) * v < x)%Q.
Proof.
  intros Hv.
  assert (Hx : (x / v * v == x)%Q).
  { rewrite Qmult_comm. apply Qmult_div_r.
    intros E. rewrite E in Hv. by apply Qlt_irrefl in Hv. }
  rewrite <- (Qmult_lt_r _ _ v Hv), Hx. reflexivity.
Qed.


End BrowserStateFacts.


Lemma mark_new_elements_marks_witness :
  Forall (fun e =>
    InteractiveElement.is_new e = true <->
    InteractiveElement.index e ∉ [1])
    (BrowserState.elements
       (BrowserState.mark_new_elements (Fixtures.snapshot "https://a" [1; 2])
          (Some (Fixtures.snapshot "https://a" [1])))).
Proof.
  apply (proj1 (proj2 (mark_new_elements_marks
                         (Fixtures.snapshot "https://a" [1; 2])
                         (Fixtures.snapshot "https://a" [1])))).
  reflexivity.
Defined.

(* --------------------------------------------------------------------- *)
(** ** The results of a step and the end of a run                         *)
(* --------------------------------------------------------------------- *)

Section AgentRunFacts.
Context `{Py.Runtime} `{Environment}.
Import Agent.

Lemma execute_loop_shape actions :
  forall results w,
  exists added,
    (execute_loop actions results w).2 = (results ++ added)%list /\
    Forall (fun r => stops_step r = false) (removelast added) /\
    (length added <= S (length actions))%nat.
Proof.
  induction actions as [|action rest IH]; intros results w; simpl.
  - exists []. rewrite app_nil_r. split; [done|]. split; [constructor|simpl; lia].
  - destruct action as [|[action_name params] entries].
    + destruct (IH results w) as (added & E & Hq & Hlen).
      exists added. split; [done|]. split; [done|lia].
    + destruct (tools_execute action_name params w) as [w1 [e|result]]; simpl.
      * exists [error_result e]. split; [done|]. split; [constructor|simpl; lia].
      * destruct (stops_step result) eqn:Hstop; simpl.
        -- exists [result]. split; [done|]. split; [constructor|simpl; lia].
        -- destruct (browser_get_state true w1) as [w2 [e|bs]]; simpl.
           ++ exists [result; error_result e]. rewrite <- app_assoc.
              split; [done|]. split; [|simpl; lia].
              simpl. by repeat constructor.
           ++ destruct (IH (results ++ [result])%list w2) as (added & E & Hq & Hlen).
              exists (result :: added). rewrite E, <- app_assoc.
              split; [done|]. split; [|simpl; lia].
              destruct added; simpl; [constructor|]. by constructor.
Qed.

Lemma length_list_slice_to {A} (l : list A) (n : Z) :
  (length (Py.list_slice_to l n) <= length l)%nat.
Proof.
  unfold Py.list_slice_to. destruct (0 <=? n); rewrite length_take; lia.
Qed.

Lemma execute_actions_results (self : t) actions w :
  let results := (_execute_actions self actions w).2 in
  results <> [] /\
  Forall (fun r => stops_step r = false) (removelast results) /\
  (length results <= S (length actions))%nat.
Proof.
  unfold _execute_actions.
  destruct (execute_loop_shape
              (Py.list_slice_to actions
                 (AgentSettings.max_actions_per_step (settings self))) [] w)
    as (added & E & Hq & Hlen).
  pose proof (length_list_slice_to actions
                (AgentSettings.max_actions_per_step (settings self))) as Hslice.
  destruct (execute_loop _ _ _) as [w' results]. simpl in E. subst results.
  simpl. destruct added as [|r added]; simpl.
  - split; [done|]. split; [constructor|lia].
  - split; [done|]. split; [exact Hq|simpl in Hlen; lia].
Qed.

Lemma stops_step_false r :
  stops_step r = false ->
  Py.opt_str_truthy (ActionResult.error r) = false /\ ActionResult.is_done r = false.
Proof. unfold stops_step. by intros [? ?]%orb_false_elim. Qed.

Lemma done_is_last (l : list ActionResult.t) (r : ActionResult.t) :
  Forall (fun r => stops_step r = false) (removelast l) ->
  head (filter (fun r => ActionResult.is_done r = true) l) = Some r ->
  last l = Some r /\ ActionResult.is_done r = true.
Proof.
  induction l as [|x [|y l] IH]; simpl.
  - discriminate.
  - intros _. rewrite filter_cons, filter_nil.
    case_decide as Hx; simpl; [|discriminate]. by intros [= <-].
  - intros Hq. inversion Hq as [|? ? Hx Hq']; subst.
    apply stops_step_false in Hx as [_ Hx].
    rewrite filter_cons. case_decide as Hd; [congruence|].
    intros Hh. by apply IH.
Qed.

(** X17. The results of [_execute_actions]: the list is never empty, it
    has at most one entry more than there are actions, and every result
    before the last one carries neither an error nor [is_done]. So a
    result that ends the task or reports a failure is always the last of
    its step, and a result with [is_done] can only be the last one. *)
Theorem execute_actions_stops_at_first_failure
    (self : t) (actions : list (list (string * Py.JSON))) (w : World) :
  let results := (_execute_actions self actions w).2 in
  results <> [] /\
  (length results <= S (length actions))%nat /\
  Forall (fun r =>
            Py.opt_str_truthy (ActionResult.error r) = false /\
            ActionResult.is_done r = false) (removelast results) /\
  (forall r, head (filter (fun r => ActionResult.is_done r = true) results)
             = Some r -> last results = Some r).
Proof.
  intros results.
  destruct (execute_actions_results self actions w) as (Hne & Hq & Hlen).
  fold results in Hne, Hq, Hlen.
  split; [done|]. split; [done|]. split.
  - eapply Forall_impl; [exact Hq|]. intros r. apply stops_step_false.
  - intros r Hr. by destruct (done_is_last results r Hq Hr).
Qed.

(** The history and the state agree on how the task ended. *)
Definition agree (self : t) : Prop :=
  AgentHistoryList.is_done (history self) = true /\
  AgentHistoryList.is_successful (history self) = AgentState.success (state self).

Lemma agree_snoc settings st (hist : AgentHistoryList.t) entry r :
  last (AgentHistory.results entry) = Some r ->
  ActionResult.is_done r = true ->
  AgentState.success st = ActionResult.success r ->
  agree {| settings := settings; state := st; history := (hist ++ [entry])%list |}.
Proof.
  intros Hlast Hdone Hsucc.
  unfold agree, AgentHistoryList.is_successful, AgentHistoryList.is_done. simpl.
  rewrite last_snoc, Hlast, Hdone. by split.
Qed.

Lemma execute_step_inv (self : t) (w w' : World) (self' : t) (r : Exn + unit) :
  _execute_step self w = (w', self', r) ->
  settings self' = settings self /\
  AgentState.n_steps (state self') = AgentState.n_steps (state self) /\
  AgentState.is_stopped (state self') = AgentState.is_stopped (state self) /\
  AgentState.is_paused (state self') = AgentState.is_paused (state self) /\
  match r with
  | inl e => self' = self
  | inr _ =>
      length (history self') = S (length (history self)) /\
      (AgentState.is_done (state self') = true /\ agree self' \/
       AgentState.is_done (state self') = AgentState.is_done (state self))
  end.
Proof.
  unfold _execute_step.
  destruct (browser_get_state true w) as [w1 [e|bs]];
    [by intros [= <- <- <-]|].
  destruct (llm_complete w1) as [w2 [e|content]]; [by intros [= <- <- <-]|].
  destruct (_parse_response content) as [e|out]; [by intros [= <- <- <-]|].
  destruct (execute_actions_results self (AgentOutput.action out) w2)
    as (Hne & Hq & _).
  destruct (_execute_actions self (AgentOutput.action out) w2) as [w3 results].
  simpl in Hne, Hq. unfold record_step.
  pose proof (done_is_last results) as Hlast.
  destruct (head (filter (fun r => ActionResult.is_done r = true) results))
    as [r'|] eqn:Ehead.
  - destruct (Hlast r' Hq eq_refl) as [Hl Hd].
    intros [= <- <- <-]. simpl.
    destruct (negb _); simpl; (repeat split; try done;
      [by rewrite length_app, Nat.add_1_r|left; split; [done|]];
      by eapply agree_snoc).
  - intros [= <- <- <-]. simpl.
    destruct (negb _); simpl; (repeat split; try done;
      [by rewrite length_app, Nat.add_1_r|by right]).
Qed.

Lemma agree_with_n_steps (self : t) v :
  agree self -> agree (with_state (AgentState.set_n_steps v (state self)) self).
Proof. done. Qed.

(** What the loop of [run] leaves behind. *)
Lemma run_loop_outcome fuel max_steps :
  forall self w,
  AgentState.is_stopped (state self) = false ->
  AgentState.is_paused (state self) = false ->
  (AgentState.is_done (state self) = true -> agree self) ->
  match run_loop fuel max_steps self w with
  | Returned self' w' =>
      settings self' = settings self /\
      (AgentState.is_done (state self') = true -> agree self') /\
      (AgentState.is_done (state self') = true \/
       max_steps <= AgentState.n_steps (state self')) /\
      AgentState.n_steps (state self) <= AgentState.n_steps (state self') /\
      AgentState.n_steps (state self') <=
        Z.max max_steps (AgentState.n_steps (state self)) /\
      (length (history self') <=
       length (history self) +
       Z.to_nat (AgentState.n_steps (state self') - AgentState.n_steps (state self)))%nat
  | Raised e self' w' =>
      e = MaxFailuresReachedError (AgentSettings.max_failures (settings self)) /\
      AgentState.is_done (state self') = false /\
      AgentSettings.max_failures (settings self) <=
        AgentState.consecutive_failures (state self')
  | Paused _ _ => False
  | OutOfFuel => True
  end.
Proof.
  assert (Hhere : forall self : t,
    (AgentState.is_done (state self) = true -> agree self) ->
    AgentState.is_done (state self) = true \/
      max_steps <= AgentState.n_steps (state self) ->
    settings self = settings self /\
    (AgentState.is_done (state self) = true -> agree self) /\
    (AgentState.is_done (state self) = true \/
     max_steps <= AgentState.n_steps (state self)) /\
    AgentState.n_steps (state self) <= AgentState.n_steps (state self) /\
    AgentState.n_steps (state self) <=
      Z.max max_steps (AgentState.n_steps (state self)) /\
    (length (history self) <=
     length (history self) +
     Z.to_nat (AgentState.n_steps (state self) - AgentState.n_steps (state self)))%nat).
  { intros self Ha Hd. split; [done|]. split; [done|]. split; [done|].
    split; [lia|]. split; lia. }
  induction fuel as [|fuel IH]; intros self w Hstop Hpause Hagree; simpl.
  - destruct (AgentState.is_done (state self)) eqn:Hdone; simpl.
    + apply Hhere; [by rewrite Hdone|left; by rewrite Hdone].
    + destruct (Z.ltb_spec (AgentState.n_steps (state self)) max_steps); [done|].
      apply Hhere; [by rewrite Hdone|by right].
  - destruct (AgentState.is_done (state self)) eqn:Hdone; simpl.
    { apply Hhere; [by rewrite Hdone|left; by rewrite Hdone]. }
    destruct (Z.ltb_spec (AgentState.n_steps (state self)) max_steps) as [Hlt|Hge].
    2: { apply Hhere; [by rewrite Hdone|by right]. }
    unfold loop_body. rewrite Hstop, Hpause.
    destruct (_execute_step self w) as [[w1 self1] r] eqn:Estep.
    apply execute_step_inv in Estep as (Hset & Hn & Hs & Hp & Hr).
    destruct r as [e|[]].
    + subst self1. simpl.
      destruct (_ >=? _) eqn:Hmax.
      * simpl. split; [done|]. split; [done|]. lia.
      * specialize (IH
          (with_state
             (AgentState.set_n_steps
                (AgentState.n_steps
                   (state
                      (with_state
                         (AgentState.set_consecutive_failures
                            (AgentState.consecutive_failures (state self) + 1)
                            (state self)) self)) + 1)
                (state
                   (with_state
                      (AgentState.set_consecutive_failures
                         (AgentState.consecutive_failures (state self) + 1)
                         (state self)) self)))
             (with_state
                (AgentState.set_consecutive_failures
                   (AgentState.consecutive_failures (state self) + 1)
                   (state self)) self)) w1).
        simpl in IH. specialize (IH Hstop Hpause).
        rewrite Hdone in IH. specialize (IH ltac:(discriminate)).
        destruct (run_loop fuel max_steps _ w1) as [self' w'|e' self' w'|self' w'|];
          [|done|done|done].
        destruct IH as (Hs' & Ha' & Hd' & Hn1 & Hn2 & Hl').
        split; [done|]. split; [done|]. split; [done|].
        split; [lia|]. split; lia.
    + destruct Hr as [Hlen Hr].
      specialize (IH
        (with_state
           (AgentState.set_n_steps (AgentState.n_steps (state self1) + 1)
              (state self1)) self1) w1).
      simpl in IH.
      assert (Ha1 : AgentState.is_done (state self1) = true -> agree self1).
      { intros Hd1. destruct Hr as [[_ Ha]|Hd]; [done|congruence]. }
      specialize (IH ltac:(by rewrite Hs) ltac:(by rewrite Hp) Ha1).
      destruct (run_loop fuel max_steps _ w1) as [self' w'|e' self' w'|self' w'|];
        [|by rewrite Hset in IH|done|done].
      destruct IH as (Hs' & Ha' & Hd' & Hn1 & Hn2 & Hl').
      split; [congruence|]. split; [done|]. split; [done|].
      split; [lia|]. split; lia.
Qed.

Lemma effective_fuel (m : Z) : m <= 0 + Z.of_nat (Z.to_nat m).
Proof. lia. Qed.

(** How [run] ends for an agent that is neither stopped, paused nor
    done. *)
Lemma run_outcome (self : t) (max_steps : option Z) (w : World) :
  AgentState.is_stopped (state self) = false ->
  AgentState.is_paused (state self) = false ->
  AgentState.is_done (state self) = false ->
  let m := effective_max_steps self max_steps in
  match run self max_steps w with
  | Returned self' w' =>
      AgentState.is_done (state self') = true /\ agree self' /\
      0 <= AgentState.n_steps (state self') <= Z.max 0 m /\
      (length (history self') <=
       length (history self) + Z.to_nat (AgentState.n_steps (state self')) + 1)%nat
  | Raised e self' w' =>
      AgentState.is_done (state self') = false /\
      (e = MaxFailuresReachedError (AgentSettings.max_failures (settings self)) /\
       AgentSettings.max_failures (settings self) <=
         AgentState.consecutive_failures (state self') \/
       m <= AgentState.n_steps (state self'))
  | Paused _ _ => False
  | OutOfFuel => False
  end.
Proof.
  intros Hstop Hpause Hdone m. unfold run. fold m.
  set (self0 := with_state (AgentState.set_n_steps 0 (state self)) self).
  pose proof (run_loop_outcome (Z.to_nat m) m self0 w Hstop Hpause) as Hloop.
  pose proof (run_loop_fuel (Z.to_nat m) m self0 w (effective_fuel m)) as Hfuel.
  simpl in Hloop. rewrite Hdone in Hloop. specialize (Hloop ltac:(discriminate)).
  destruct (run_loop (Z.to_nat m) m self0 w) as [self1 w1|e self1 w1|self1 w1|];
    [| |done|done].
  - destruct Hloop as (Hset & Hagree & Hend & Hn1 & Hn2 & Hlen).
    destruct (Z.geb_spec (AgentState.n_steps (state self1)) m) as [Hge|Hlt]; simpl.
    + destruct (AgentState.is_done (state self1)) eqn:Hd1; simpl.
      * split; [done|]. split; [by apply Hagree|]. split; [lia|lia].
      * unfold _force_completion.
        destruct (browser_get_state false w1) as [w2 [e|bs]].
        -- split; [done|]. right. lia.
        -- simpl. split; [done|]. split; [by eapply agree_snoc|].
           split; [lia|]. rewrite length_app. simpl. lia.
    + destruct Hend as [Hd1|Hd1]; [|lia].
      rewrite Hd1. simpl. split; [done|]. split; [by apply Hagree|].
      split; [lia|lia].
  - destruct Hloop as (He & Hd & Hf). split; [done|]. by left.
Qed.

(** X18. [run] on an agent that is neither stopped, paused nor done
    never ends without a verdict: when it returns, [state.is_done] is
    true, the last result of the last history entry has [is_done], and
    [is_successful()] of the history equals [state.success]; the step
    counter lies between 0 and the step limit, and the history has grown
    by at most one entry per counted step plus one. When it raises, the
    agent is not done, and either the error is [MaxFailuresReachedError]
    with the failure count at the limit, or the step limit was reached
    and the forced completion failed. *)
Theorem run_ends_with_verdict (self : t) (max_steps : option Z) (w : World) :
  AgentState.is_stopped (state self) = false ->
  AgentState.is_paused (state self) = false ->
  AgentState.is_done (state self) = false ->
  let m := effective_max_steps self max_steps in
  (forall self' w', run self max_steps w = Returned self' w' ->
     AgentState.is_done (state self') = true /\
     AgentHistoryList.is_done (history self') = true /\
     AgentHistoryList.is_successful (history self') =
       AgentState.success (state self') /\
     0 <= AgentState.n_steps (state self') <= Z.max 0 m /\
     (length (history self') <=
      length (history self) + Z.to_nat (AgentState.n_steps (state self')) + 1)%nat) /\
  (forall e self' w', run self max_steps w = Raised e self' w' ->
     AgentState.is_done (state self') = false /\
     (e = MaxFailuresReachedError (AgentSettings.max_failures (settings self)) /\
      AgentSettings.max_failures (settings self) <=
        AgentState.consecutive_failures (state self') \/
      m <= AgentState.n_steps (state self'))) /\
  (exists self' w', run self max_steps w = Returned self' w' \/
     exists e, run self max_steps w = Raised e self' w').
Proof.
  intros Hstop Hpause Hdone m.
  pose proof (run_outcome self max_steps w Hstop Hpause Hdone) as Hrun.
  fold m in Hrun.
  destruct (run self max_steps w) as [self1 w1|e self1 w1|self1 w1|];
    [| |done|done].
  - split; [|split]; [|discriminate|eauto].
    intros self' w' [= <- <-]. destruct Hrun as (? & [? ?] & ? & ?). auto.
  - split; [|split]; [discriminate| |eauto].
    intros e' self' w' [= <- <- <-]. exact Hrun.
Qed.

Lemma execute_step_returns (self : t) (w : World) :
  (forall f w, exists w' s, browser_get_state f w = (w', inr s)) ->
  (forall w, exists w' c o,
     llm_complete w = (w', inr c) /\ _parse_response c = inr o) ->
  exists w' self', _execute_step self w = (w', self', inr tt).
Proof.
  intros Hb Hl. unfold _execute_step.
  destruct (Hb true w) as (w1 & bs & ->).
  destruct (Hl w1) as (w2 & c & o & -> & ->).
  destruct (_execute_actions self (AgentOutput.action o) w2) as [w3 results].
  destruct (record_step o results bs (state self) (history self)). eauto.
Qed.

Lemma run_loop_no_raise fuel max_steps :
  (forall f w, exists w' s, browser_get_state f w = (w', inr s)) ->
  (forall w, exists w' c o,
     llm_complete w = (w', inr c) /\ _parse_response c = inr o) ->
  forall self w e self' w', run_loop fuel max_steps self w <> Raised e self' w'.
Proof.
  intros Hb Hl. induction fuel as [|fuel IH]; intros self w e self' w'; simpl.
  - destruct (_ && _); discriminate.
  - destruct (_ && _); [|discriminate].
    unfold loop_body.
    destruct (AgentState.is_stopped (state self)); [discriminate|].
    destruct (AgentState.is_paused (state self)); [discriminate|].
    destruct (execute_step_returns self w Hb Hl) as (w1 & self1 & ->).
    apply IH.
Qed.

(** X19. Failing actions alone never abort a run. When every state
    refresh returns and every reply of the model parses, [run] on an
    agent that is neither stopped, paused nor done returns, with
    [is_done] set, whatever the actions do: an action that raises or
    reports an error is recorded in the history and never counted
    towards [max_failures]. *)
Theorem action_failures_never_abort_run
    (self : t) (max_steps : option Z) (w : World) :
  (forall f w, exists w' s, browser_get_state f w = (w', inr s)) ->
  (forall w, exists w' c o,
     llm_complete w = (w', inr c) /\ _parse_response c = inr o) ->
  AgentState.is_stopped (state self) = false ->
  AgentState.is_paused (state self) = false ->
  AgentState.is_done (state self) = false ->
  exists self' w',
    run self max_steps w = Returned self' w' /\
    AgentState.is_done (state self') = true /\
    AgentHistoryList.is_done (history self') = true.
Proof.
  intros Hb Hl Hstop Hpause Hdone.
  pose proof (run_outcome self max_steps w Hstop Hpause Hdone) as Hrun.
  simpl in Hrun.
  destruct (run self max_steps w) as [self1 w1|e self1 w1|self1 w1|] eqn:Erun;
    [| |done|done].
  - exists self1, w1. destruct Hrun as (? & [? ?] & _). auto.
  - exfalso. unfold run in Erun.
    destruct (run_loop _ _ _ w) as [self2 w2|e2 self2 w2|self2 w2|] eqn:Eloop;
      try discriminate.
    + destruct (_ && _); [|discriminate].
      unfold _force_completion in Erun.
      destruct (Hb false w2) as (w3 & bs & Ebs). rewrite Ebs in Erun.
      simpl in Erun. discriminate.
    + by eapply run_loop_no_raise in Eloop.
Qed.

End AgentRunFacts.

Lemma run_ends_with_verdict_witness :
  let env := Fixtures.environment "extract" Fixtures.extract_then_fail in
  let self := Agent.init (AgentSettings.mk 4 3 2) in
  exists final w,
    Agent.run (H := Fixtures.runtime) (H0 := env) self None 0%nat
      = Agent.Returned final w /\
    AgentHistoryList.is_done (Agent.history final) = true /\
    AgentHistoryList.is_successful (Agent.history final) = Some false.
Proof.
  intros env self.
  destruct (Agent.run (H := Fixtures.runtime) (H0 := env) self None 0%nat)
    as [final w| | |] eqn:Erun; try (vm_compute in Erun; discriminate).
  destruct (run_ends_with_verdict (H := Fixtures.runtime) (H0 := env) self None
              0%nat eq_refl eq_refl eq_refl) as (Hret & _ & _).
  destruct (Hret final w Erun) as (_ & Hdone & Hsucc & _).
  exists final, w. split; [reflexivity|]. split; [exact Hdone|].
  rewrite Hsucc. vm_compute in Erun. injection Erun as <- <-. reflexivity.
Defined.

Lemma action_failures_never_abort_run_witness :
  let env :=
    Fixtures.environment "extract" (fun _ => inl (OtherError "element not found")) in
  let self := Agent.init (AgentSettings.mk 4 3 5) in
  exists final w,
    Agent.run (H := Fixtures.runtime) (H0 := env) self None 0%nat
      = Agent.Returned final w /\
    AgentState.is_done (Agent.state final) = true /\
    AgentHistoryList.is_done (Agent.history final) = true.
Proof.
  intros env self.
  apply (action_failures_never_abort_run (H := Fixtures.runtime) (H0 := env)).
  - intros f w. eexists _, _. reflexivity.
  - intros w. eexists _, _, _. split; [reflexivity|]. vm_compute. reflexivity.
  - reflexivity.
  - reflexivity.
  - reflexivity.
Defined.

(* --------------------------------------------------------------------- *)
(** ** The errors of a history                                            *)
(* --------------------------------------------------------------------- *)

Section HistoryFacts.
Import AgentHistoryList.

Lemma head_omap_is_Some {A B} (f : A -> option B) (l : list A) :
  is_Some (head (omap f l)) <-> Exists (fun x => is_Some (f x)) l.
Proof.
  induction l as [|x l IH]; simpl.
  - split; [intros [? [=]]|intros Hex; inversion Hex].
  - destruct (f x) as [y|] eqn:E; simpl.
    + split; [|eauto]. intros _. left. rewrite E. eauto.
    + rewrite IH. split; [by right|].
      intros Hex. inversion Hex as [? ? Hx|]; subst; [|done].
      rewrite E in Hx. by destruct Hx.
Qed.

(** X20. [errors()] has one entry per step, and [has_errors()] holds
    exactly when some result of some step carries a non-empty error
    text. A result whose error is the empty string has [has_error] true
    but is not counted. *)
Theorem has_errors_iff_truthy_error (self : t) :
  length (errors self) = number_of_steps self /\
  (has_errors self = true <->
   exists r e, r ∈ action_results self /\
     ActionResult.error r = Some e /\ e <> "") /\
  (has_errors self = true ->
   Exists (fun r => ActionResult.has_error r = true) (action_results self)) /\
  (forall r, ActionResult.error r = Some "" ->
     ActionResult.has_error r = true /\
     has_errors [AgentHistory.mk None [r] None None] = false).
Proof.
  assert (Htruthy : forall r : ActionResult.t,
    is_Some (match ActionResult.error r with
             | Some e => if Py.str_truthy e then Some e else None
             | None => None
             end) <->
    exists e, ActionResult.error r = Some e /\ e <> "").
  { intros r. destruct (ActionResult.error r) as [[|c e]|]; simpl.
    - split; [intros [? [=]]|intros (e & [= <-] & He); done].
    - split; [|eauto]. intros _. eexists. split; [reflexivity|discriminate].
    - split; [intros [? [=]]|intros (e & [=] & _)]. }
  assert (Hiff : has_errors self = true <->
    exists r e, r ∈ action_results self /\
      ActionResult.error r = Some e /\ e <> "").
  { unfold has_errors, errors, action_results.
    rewrite existsb_exists. split.
    - intros (o & Ho & Hsome). apply list_elem_of_In in Ho.
      apply list_elem_of_fmap in Ho as (h & -> & Hh).
      assert (Hs : is_Some (head (omap (fun r =>
                match ActionResult.error r with
                | Some e => if Py.str_truthy e then Some e else None
                | None => None
                end) (AgentHistory.results h)))).
      { destruct (head _); [eauto|discriminate]. }
      apply head_omap_is_Some, Exists_exists in Hs as (r & Hr & Hre).
      apply Htruthy in Hre as (e & He & Hne).
      exists r, e. split; [|done].
      apply list_elem_of_In, in_flat_map. exists h.
      split; [by apply list_elem_of_In|first [done|by apply list_elem_of_In]].
    - intros (r & e & Hr & He & Hne).
      apply list_elem_of_In, in_flat_map in Hr as (h & Hh & Hr).
      eexists. split.
      + apply list_elem_of_In, list_elem_of_fmap. exists h.
        split; [reflexivity|by apply list_elem_of_In].
      + assert (Hs : is_Some (head (omap (fun r =>
                  match ActionResult.error r with
                  | Some e => if Py.str_truthy e then Some e else None
                  | None => None
                  end) (AgentHistory.results h)))).
        { apply head_omap_is_Some, Exists_exists. exists r.
          split; [first [done|by apply list_elem_of_In]|]. apply Htruthy. eauto. }
        by destruct Hs as [? ->]. }
  split; [apply length_fmap|]. split; [exact Hiff|]. split.
  - intros Herr. apply Hiff in Herr as (r & e & Hr & He & _).
    apply Exists_exists. exists r. split; [first [done|by apply list_elem_of_In]|].
    unfold ActionResult.has_error. by rewrite He.
  - intros r Hr. unfold ActionResult.has_error, has_errors, errors. simpl.
    by rewrite Hr.
Qed.

End HistoryFacts.

(* --------------------------------------------------------------------- *)
(** ** The window of recent actions of [TutorialAgent]                     *)
(* --------------------------------------------------------------------- *)

Section TutorialWindow.
Context `{Py.Runtime} `{Environment}.
Import TutorialAgent.

(** The window holds at most ten signatures, and none of them more than
    [_max_repeated_actions + 2] times. *)
Definition window_ok (self : t) : Prop :=
  (length (_recent_actions self) <= 10)%nat /\
  forall action_sig,
    _count_repeated_actions self action_sig <= _max_repeated_actions self + 2.

Lemma count_tail (action_sig : string) (recent : list string) :
  (length (filter (fun a => a = action_sig) (tail recent)) <=
   length (filter (fun a => a = action_sig) recent))%nat.
Proof.
  destruct recent as [|a recent]; simpl; [done|].
  rewrite filter_cons. case_decide; simpl; lia.
Qed.

Lemma count_track (action_sig a : string) (recent : list string) :
  (length (filter (fun x => x = action_sig) (track a recent)) <=
   length (filter (fun x => x = action_sig) recent) +
   (if decide (a = action_sig) then 1 else 0))%nat.
Proof.
  assert (Happ : length (filter (fun x => x = action_sig) (recent ++ [a])%list) =
    (length (filter (fun x => x = action_sig) recent) +
     (if decide (a = action_sig) then 1 else 0))%nat).
  { rewrite filter_app, length_app, filter_cons, filter_nil.
    by case_decide. }
  unfold track. destruct (10 <? _)%nat.
  - etrans; [apply count_tail|]. by rewrite Happ.
  - by rewrite Happ.
Qed.

Lemma window_ok_track (self : t) (a : string) :
  window_ok self ->
  _count_repeated_actions self a < _max_repeated_actions self + 2 ->
  window_ok (with_recent (track a (_recent_actions self)) self).
Proof.
  intros [Hlen Hcount] Ha. split; simpl.
  - by apply track_window.
  - intros action_sig. unfold _count_repeated_actions in *. simpl.
    pose proof (count_track action_sig a (_recent_actions self)) as Ht.
    specialize (Hcount action_sig).
    destruct (decide (a = action_sig)) as [->|]; lia.
Qed.

Ltac window_step IH Hrest :=
  match goal with
  | |- window_ok (TutorialAgent.capture_loop ?r ?res ?s ?w).1.2 /\ _ =>
      destruct (IH res s w Hrest) as [? ?]; split; [done|done]
  end.

Lemma capture_loop_window actions :
  forall results self w,
  window_ok self ->
  window_ok (capture_loop actions results self w).1.2 /\
  _max_repeated_actions (capture_loop actions results self w).1.2 =
    _max_repeated_actions self.
Proof.
  induction actions as [|action rest IH]; intros results self w Hok; simpl;
    [done|].
  destruct action as [|[action_name params] entries]; [by apply IH|].
  set (action_sig := signature action_name params).
  assert (Hrest :
    _count_repeated_actions self action_sig < _max_repeated_actions self + 2 ->
    window_ok (with_recent (track action_sig (_recent_actions self)) self)).
  { by apply window_ok_track. }
  unfold _is_action_repeated.
  destruct (Z.geb_spec (_count_repeated_actions self action_sig)
              (_max_repeated_actions self)) as [Hrep|Hnot].
  - destruct (Z.geb_spec (_count_repeated_actions self action_sig)
                (_max_repeated_actions self + 2)) as [Hforced|Hfree]; [done|].
    specialize (Hrest Hfree).
    destruct (tools_execute action_name params _) as [w0 [e|result]].
    + destruct (on_exception e results) as [results0 [|]]; [window_step IH Hrest|done].
    + destruct (capture_action_state action_name params result w0)
        as [w1 [e|[]]].
      * destruct (on_exception e _) as [results0 [|]]; [window_step IH Hrest|done].
      * destruct (stops_step result); [done|window_step IH Hrest].
  - specialize (Hrest ltac:(lia)).
    destruct (tools_execute action_name params _) as [w0 [e|result]].
    + destruct (on_exception e results) as [results0 [|]]; [window_step IH Hrest|done].
    + destruct (capture_action_state action_name params result w0)
        as [w1 [e|[]]].
      * destruct (on_exception e _) as [results0 [|]]; [window_step IH Hrest|done].
      * destruct (stops_step result); [done|window_step IH Hrest].
Qed.

Lemma execute_step_window (self : t) (w : World) :
  window_ok self ->
  window_ok (_execute_step self w).1.2 /\
  _max_repeated_actions (_execute_step self w).1.2 = _max_repeated_actions self.
Proof.
  intros Hok. unfold _execute_step.
  destruct (browser_get_state true w) as [w1 [e|bs]]; [done|].
  destruct (llm_complete w1) as [w2 [e|content]]; [done|].
  destruct (_parse_response content) as [e|out]; [done|].
  unfold _execute_and_capture_actions.
  pose proof (capture_loop_window (Py.list_slice_to (AgentOutput.action out) 4)
                [] self w2 Hok) as [Hw Hthr].
  destruct (capture_loop _ _ _ _) as [[w3 self3] results]. simpl in Hw, Hthr.
  destruct (Agent.record_step _ _ _ _ _) as [state' history']. simpl.
  split; [exact Hw|exact Hthr].
Qed.

Lemma main_loop_window fuel :
  forall self w,
  window_ok self ->
  match main_loop fuel self w with
  | Returned _ self' _ | Raised _ self' _ =>
      window_ok self' /\ _max_repeated_actions self' = _max_repeated_actions self
  | OutOfFuel => True
  end.
Proof.
  induction fuel as [|fuel IH]; intros self w Hok; simpl.
  - by destruct (_ && _).
  - destruct (_ && _); [|done].
    destruct (AgentState.is_stopped (state self)); [done|].
    destruct (execute_step_window self w Hok) as [Hok1 Hthr1].
    destruct (_execute_step self w) as [[w1 self1] r]. simpl in Hok1, Hthr1.
    destruct r as [e|[]].
    + destruct (_ >=? _); [done|].
      match goal with |- match main_loop fuel ?s ?w with _ => _ end =>
        specialize (IH s w Hok1); destruct (main_loop fuel s w) end;
        [| |done];
        (destruct IH as [? Hthr]; split; [done|]; simpl in Hthr; congruence).
    + match goal with |- match main_loop fuel ?s ?w with _ => _ end =>
        specialize (IH s w Hok1); destruct (main_loop fuel s w) end;
        [| |done];
        (destruct IH as [? Hthr]; split; [done|]; simpl in Hthr; congruence).
Qed.

(** X21. The loop detection keeps its window bounded. One pass of
    [_execute_and_capture_actions] over a window of at most ten
    signatures, none of them present more than
    [_max_repeated_actions + 2] times, leaves such a window. Hence in
    every run of a new [TutorialAgent] the window never holds more than
    ten signatures and none more than four times: no action is executed a
    fifth time while its four earlier executions are in the window. *)
Theorem tutorial_window_bounded :
  (forall (self : t) (agent_output : AgentOutput.t) (w : World),
     (length (_recent_actions self) <= 10)%nat ->
     (forall action_sig,
        _count_repeated_actions self action_sig <= _max_repeated_actions self + 2) ->
     let self' := (_execute_and_capture_actions self agent_output w).1.2 in
     (length (_recent_actions self') <= 10)%nat /\
     forall action_sig,
       _count_repeated_actions self' action_sig <= _max_repeated_actions self + 2) /\
  (forall (fuel : nat) (max_steps max_failures : Z) (w : World),
     match main_loop fuel (init max_steps max_failures) w with
     | Returned _ self' _ | Raised _ self' _ =>
         (length (_recent_actions self') <= 10)%nat /\
         forall action_sig, _count_repeated_actions self' action_sig <= 4
     | OutOfFuel => True
     end).
Proof.
  split.
  - intros self agent_output w Hlen Hcount self'.
    unfold self', _execute_and_capture_actions.
    pose proof (capture_loop_window
                  (Py.list_slice_to (AgentOutput.action agent_output) 4)
                  [] self w (conj Hlen Hcount)) as [[Hl Hc] Hthr].
    destruct (capture_loop _ _ _ _) as [[w3 self3] results].
    simpl in *. rewrite <- Hthr. by split.
  - intros fuel ms mf w.
    assert (Hinit : window_ok (init ms mf)).
    { split; simpl; [lia|]. intros action_sig. by cbv. }
    pose proof (main_loop_window fuel (init ms mf) w Hinit) as Hloop.
    destruct (main_loop fuel (init ms mf) w) as [b self' w'|e self' w'|];
      [| |done].
    + destruct Hloop as [[Hl Hc] Hthr]. split; [done|].
      intros action_sig. specialize (Hc action_sig). rewrite Hthr in Hc.
      exact Hc.
    + destruct Hloop as [[Hl Hc] Hthr]. split; [done|].
      intros action_sig. specialize (Hc action_sig). rewrite Hthr in Hc.
      exact Hc.
Qed.

End TutorialWindow.

Lemma tutorial_window_bounded_witness :
  let env := Fixtures.environment "click" Fixtures.always_clicked in
  let self' :=
    (TutorialAgent._execute_and_capture_actions (H := Fixtures.runtime) (H0 := env)
       (TutorialAgent.init 10 3)
       (AgentOutput.mk None None None None [[("click", Py.JNull)]]) 0%nat).1.2 in
  (length (TutorialAgent._recent_actions self') <= 10)%nat /\
  forall action_sig, TutorialAgent._count_repeated_actions self' action_sig <= 4.
Proof.
  intros env self'.
  apply (proj1 (tutorial_window_bounded (H := Fixtures.runtime) (H0 := env))
           (TutorialAgent.init 10 3)).
  - simpl. lia.
  - intros action_sig. by cbv.
Defined.

(* --------------------------------------------------------------------- *)
(** ** A stopped agent                                                    *)
(* --------------------------------------------------------------------- *)

Section AgentStopFacts.
Context `{Py.Runtime} `{Environment}.
Import Agent.

(** X22. [run] on an agent whose [stop()] was called, with a positive
    step limit: the loop breaks in its first pass, before any call of the
    browser, the model or the registry; the world is untouched, the
    history unchanged, and the agent is returned not done, with only
    [n_steps] reset to 0. Nothing in [run] clears [is_stopped], so every
    later [run] ends the same way. *)
Theorem stopped_agent_does_nothing (self : t) (max_steps : option Z) (w : World) :
  AgentState.is_stopped (state self) = true ->
  AgentState.is_done (state self) = false ->
  0 < effective_max_steps self max_steps ->
  let stopped := with_state (AgentState.set_n_steps 0 (state self)) self in
  run self max_steps w = Returned stopped w /\
  run stopped max_steps w = Returned stopped w.
Proof.
  intros Hstop Hdone Hpos stopped.
  assert (Hrun : forall s : t,
    AgentState.is_stopped (state s) = true ->
    AgentState.is_done (state s) = false ->
    effective_max_steps s max_steps = effective_max_steps self max_steps ->
    run s max_steps w =
    Returned (with_state (AgentState.set_n_steps 0 (state s)) s) w).
  { intros s Hs Hd Hm. unfold run. rewrite Hm.
    destruct (Z.to_nat (effective_max_steps self max_steps)) as [|fuel] eqn:Efuel;
      [lia|].
    simpl. rewrite Hd. simpl.
    destruct (Z.ltb_spec 0 (effective_max_steps self max_steps)); [|lia].
    unfold loop_body. simpl. rewrite Hs. simpl.
    destruct (Z.geb_spec 0 (effective_max_steps self max_steps)); [lia|].
    reflexivity. }
  split.
  - by apply Hrun.
  - rewrite (Hrun stopped); [|done|done|by destruct max_steps].
    reflexivity.
Qed.

End AgentStopFacts.

Lemma stopped_agent_does_nothing_witness :
  let env := Fixtures.environment "extract" Fixtures.extract_then_fail in
  let self :=
    Agent.with_state
      (AgentState.mk 0 0 None None false false true None)
      (Agent.init (AgentSettings.mk 4 3 2)) in
  Agent.run (H := Fixtures.runtime) (H0 := env) self None 0%nat
    = Agent.Returned self 0%nat.
Proof.
  intros env self.
  apply (stopped_agent_does_nothing (H := Fixtures.runtime) (H0 := env) self None
           0%nat); [reflexivity|reflexivity|reflexivity].
Defined.

(* --------------------------------------------------------------------- *)
(** ** From the extraction to the serialized statistics                   *)
(* --------------------------------------------------------------------- *)

Section ExtractSerialize.
Context `{Py.Runtime}.
Import DOMExtractor.

Lemma foldl_set_fresh {A V} (key : A -> Z) (g : A -> V) (l : list A) :
  forall d0 : Dict.t V,
  NoDup (d0.*1 ++ (key <$> l)) ->
  foldl (fun d n => Dict.set (key n) (g n) d) d0 l =
  (d0 ++ ((fun n => (key n, g n)) <$> l))%list.
Proof.
  induction l as [|x l IH]; intros d0 Hnd; simpl.
  - by rewrite app_nil_r.
  - rewrite dict_set_fresh.
    + rewrite IH.
      * by rewrite <- app_assoc.
      * rewrite fmap_app. simpl. rewrite <- app_assoc. exact Hnd.
    + apply NoDup_app in Hnd as (_ & Hfresh & _).
      intros Hin. apply (Hfresh _ Hin). left.
Qed.

Lemma length_filter_index (l : list DOMNode.t) :
  length (filter (fun d => NodeData.index d <> None) (Extract._node_to_dict <$> l))
  = length (omap DOMNode.index l).
Proof.
  induction l as [|n l IH]; simpl; [done|].
  rewrite filter_cons. simpl.
  destruct (DOMNode.index n) as [i|]; case_decide as Hd; simpl; try congruence;
    try (f_equal; exact IH); try exact IH.
Qed.

Lemma length_filter_visible (l : list DOMNode.t) :
  Forall sound l ->
  (length (omap DOMNode.index l) <=
   length (filter (fun d => NodeData.is_visible d = true)
             (Extract._node_to_dict <$> l)))%nat.
Proof.
  induction 1 as [|n l Hn _ IH]; [done|].
  rewrite fmap_cons, filter_cons. simpl omap.
  destruct (DOMNode.index n) as [i|] eqn:Ei.
  - destruct Hn as (_ & Hv & _); [congruence|].
    rewrite decide_True by done. rewrite !length_cons.
    apply le_n_S. exact IH.
  - case_decide; rewrite ?length_cons; [apply Nat.le_le_succ_r|]; exact IH.
Qed.

Lemma serialize_selector_map self out self' :
  DOMSerializer.serialize self = inr (out, self') ->
  SerializedDOM.selector_map out =
  DOMState.selector_map (DOMSerializer.dom_state self).
Proof.
  unfold DOMSerializer.serialize.
  destruct (DOMSerializer.representation _) as [ex|r]; [discriminate|].
  destruct (_ >? _); by intros [= <- _].
Qed.

(** X23. Extraction and serialization together, for a fresh extractor, a
    fresh serializer and a tree with pairwise distinct node ids: when
    [serialize] returns, [total_elements] is the number of nodes of the
    tree that were visited (text and document nodes included),
    [interactive_elements] is the number k of interaction indices handed
    out, the keys of the selector map are exactly 1, ..., k,
    [visible_elements] is at least k, and [scroll_containers] is 0. *)
Theorem extract_serialize_counts
    (sl : gmap Z SnapshotEntry) (al : gmap Z AxEntry) (root : option RawNode)
    (vw vh max_length : Z) (include_attributes : option (list string))
    (out : SerializedDOM.t) (self' : DOMSerializer.t) :
  let visited := match root with Some r => visit_order r | None => [] end in
  NoDup (omap nodeId visited) ->
  DOMSerializer.serialize
    (DOMSerializer.init (Extract.extract root sl al (init vw vh)).1
       max_length include_attributes) = inr (out, self') ->
  SerializedDOM.total_elements out = Z.of_nat (length (omap nodeId visited)) /\
  (forall i, is_Some (SerializedDOM.selector_map out !! i) <->
             1 <= i <= SerializedDOM.interactive_elements out) /\
  SerializedDOM.interactive_elements out <= SerializedDOM.visible_elements out /\
  SerializedDOM.scroll_containers out = 0.
Proof.
  intros visited Hnd Hser.
  set (st := _build_dom_tree root sl al (init vw vh)).
  destruct (walk_build_dom_tree sl al root (init vw vh))
    as [Hids (k & Hidx & Hnext) Hsound _].
  fold st in Hids, Hidx, Hnext, Hsound. simpl in Hids, Hidx, Hnext.
  fold visited in Hids.
  assert (Hs : Forall sound (objects st)) by (apply Hsound; constructor).
  destruct (selectors_ok_build root sl al _ (selectors_ok_init vw vh))
    as [Hobj Hkey]. fold st in Hobj, Hkey.
  assert (Hnodes :
    Dict.values (DOMState.nodes (Extract.extract root sl al (init vw vh)).1)
    = Extract._node_to_dict <$> objects st).
  { simpl. fold st. unfold st at 1. rewrite nodes_values_all by done. fold st.
    rewrite (foldl_set_fresh DOMNode.node_id Extract._node_to_dict).
    - unfold Dict.values. simpl. rewrite <- list_fmap_compose.
      by apply list_fmap_ext.
    - simpl. by rewrite Hids. }
  pose proof (serialize_selector_map _ _ _ Hser) as Hsel. simpl in Hsel.
  fold st in Hsel.
  remember (DOMSerializer.init (Extract.extract root sl al (init vw vh)).1
              max_length include_attributes) as ser eqn:Eser.
  assert (Hds : DOMSerializer.dom_state ser
                = (Extract.extract root sl al (init vw vh)).1)
    by (by rewrite Eser).
  assert (Hst : DOMSerializer.stats ser = DOMSerializer.mkStats 0 0 0 0 0 0)
    by (by rewrite Eser).
  destruct (serialize_stats _ _ _ Hser) as (-> & E1 & E2 & E3 & _).
  pose proof (calculate_stats_counts ser) as Hc.
  cbv zeta in Hc. rewrite Hds, Hnodes, Hst in Hc.
  cbn [DOMSerializer.st_total_elements DOMSerializer.st_visible_elements
       DOMSerializer.st_interactive_elements DOMSerializer.st_links_count
       DOMSerializer.st_iframes_count DOMSerializer.st_scroll_containers] in Hc.
  destruct Hc as (C1 & C2 & C3 & _ & _ & C6).
  unfold count_nodes in C2, C3. rewrite length_filter_index in C3.
  assert (Hk : length (omap DOMNode.index (objects st)) = k).
  { rewrite Hidx. unfold zseq. by rewrite length_fmap, length_seq. }
  split; [|split; [|split]].
  - rewrite E1, C1, length_fmap, <- Hids, length_fmap. lia.
  - intros i. rewrite Hsel, E3, C3, Hk.
    assert (Hrange : (exists n, n ∈ objects st /\ DOMNode.index n = Some i) <->
                     1 <= i < _interactive_index st).
    { rewrite <- elem_of_omap_index, Hidx, elem_of_zseq. lia. }
    split.
    + intros Hi. apply Hkey, Hrange in Hi. lia.
    + intros Hi. destruct (proj2 Hrange) as (n & Hn & Hni); [lia|].
      destruct (Hobj n i Hn Hni) as [_ ->]. eauto.
  - rewrite E2, E3, C2, C3.
    pose proof (length_filter_visible (objects st) Hs). lia.
  - unfold DOMSerializer.serialize in Hser.
    destruct (DOMSerializer.representation _) as [ex|r]; [discriminate|].
    destruct (_ >? _); injection Hser as <-; simpl; exact C6.
Qed.

End ExtractSerialize.

Lemma extract_serialize_counts_witness :
  exists out self',
    DOMSerializer.serialize (H := Fixtures.runtime)
      (DOMSerializer.init Fixtures.two_buttons_state 40000 None) = inr (out, self') /\
    SerializedDOM.total_elements out = 4 /\
    SerializedDOM.interactive_elements out = 3 /\
    is_Some (SerializedDOM.selector_map out !! 3).
Proof.
  destruct (DOMSerializer.serialize (H := Fixtures.runtime)
              (DOMSerializer.init Fixtures.two_buttons_state 40000 None))
    as [ex|[out self']] eqn:E; [vm_compute in E; discriminate|].
  destruct (extract_serialize_counts (H := Fixtures.runtime)
              Fixtures.two_buttons_layout ∅ (Some Fixtures.two_buttons_page)
              1280 720 40000 None out self') as (Ht & Hsel & _ & _).
  - apply (bool_decide_unpack _). vm_compute. exact I.
  - exact E.
  - assert (Hi : SerializedDOM.interactive_elements out = 3).
    { vm_compute in E. injection E as <- _. reflexivity. }
    exists out, self'. split; [reflexivity|]. split; [exact Ht|].
    split; [exact Hi|]. apply Hsel. rewrite Hi. lia.
Defined.

(* --------------------------------------------------------------------- *)
(** ** The table of actions                                               *)
(* --------------------------------------------------------------------- *)

Section RegistryFacts.
Context {Handler ParamModel : Type}.
Variable generate : string -> Handler -> ParamModel.
Import ToolRegistry.

#[local] Abbreviation Registry := (@ToolRegistry.t Handler ParamModel).
#[local] Abbreviation RegistryCall := (@ToolRegistry.Call Handler ParamModel).

(** No excluded name is in the table. *)
Definition excluded_out (self : Registry) : Prop :=
  forall name, name ∈ _exclude_actions self -> _actions self !! name = None.

Lemma call_excluded_out (self : Registry) (c : RegistryCall) :
  excluded_out self -> excluded_out (call generate self c).
Proof.
  intros Hinv name. destruct c as [n h d pm rb it|n]; simpl.
  - unfold register. case_bool_decide as Hn; [apply Hinv|]. simpl.
    intros Hname. rewrite lookup_insert_ne by congruence. by apply Hinv.
  - intros Hname. destruct (decide (n = name)) as [->|Hne].
    + apply lookup_delete_eq.
    + rewrite lookup_delete_ne by done. apply Hinv.
      apply elem_of_union in Hname as [Hname|Hname]; [|done].
      apply elem_of_singleton in Hname. congruence.
Qed.

Lemma call_exclude_grows (self : Registry) (c : RegistryCall) (name : string) :
  name ∈ _exclude_actions self \/ c = Exclude name ->
  name ∈ _exclude_actions (call generate self c).
Proof.
  intros [Hname| ->].
  - destruct c as [n h d pm rb it|n]; simpl.
    + unfold register. by case_bool_decide.
    + apply elem_of_union. by right.
  - simpl. apply elem_of_union. left. by apply elem_of_singleton.
Qed.

Lemma calls_excluded (cs : list RegistryCall) :
  forall (self : Registry) (name : string),
  excluded_out self ->
  name ∈ _exclude_actions self \/ Exclude name ∈ cs ->
  excluded_out (calls generate self cs) /\
  name ∈ _exclude_actions (calls generate self cs).
Proof.
  induction cs as [|c cs IH]; intros self name Hinv Hname.
  - split; [exact Hinv|]. destruct Hname as [Hname|Hin]; [exact Hname|].
    inversion Hin.
  - change (calls generate self (c :: cs))
      with (calls generate (call generate self c) cs).
    apply IH; [by apply call_excluded_out|].
    destruct Hname as [Hname|Hin].
    + left. apply call_exclude_grows. by left.
    + apply elem_of_cons in Hin as [Hc|Hin]; [|by right].
      left. apply call_exclude_grows. right. by rewrite Hc.
Qed.


End RegistryFacts.


(* --------------------------------------------------------------------- *)
(** ** The window of the message history                                  *)
(* --------------------------------------------------------------------- *)

Section MessageHistoryFacts.
Context {Message : Type}.
Import MessageHistory.

#[local] Abbreviation History := (@MessageHistory.t Message).

Lemma add_keeps_settings (self : History) (message : Message) :
  _max_messages (add self message) = _max_messages self /\
  _system_message (add self message) = _system_message self.
Proof.
  unfold add, _truncate_if_needed. simpl.
  destruct (_max_messages self) as [m|]; [|done].
  by destruct (_ && _).
Qed.

Lemma adds_keep_settings (ms : list Message) :
  forall self : History,
  _max_messages (foldl add self ms) = _max_messages self /\
  _system_message (foldl add self ms) = _system_message self.
Proof.
  induction ms as [|x ms IH]; intros self; simpl; [done|].
  destruct (IH (add self x)) as [-> ->]. apply add_keeps_settings.
Qed.

Lemma add_messages (self : History) (x : Message) :
  _messages (add self x) =
  match _max_messages self with
  | None => (_messages self ++ [x])%list
  | Some m =>
      if m =? 0 then (_messages self ++ [x])%list
      else if 0 <? m
           then drop (length (_messages self) + 1 - Z.to_nat m)
                  (_messages self ++ [x])%list
           else drop (Z.to_nat (- m)) (_messages self ++ [x])%list
  end.
Proof.
  unfold add, _truncate_if_needed. simpl.
  destruct (_max_messages self) as [m|]; [|done].
  destruct (Z.eqb_spec m 0) as [->|Hm]; simpl; [done|].
  rewrite length_app. simpl.
  destruct (Z.gtb_spec (Z.of_nat (length (_messages self) + 1)) m) as [Hgt|Hle];
    simpl.
  - unfold list_slice_from. rewrite length_app. simpl.
    destruct (Z.leb_spec 0 (- m)); destruct (Z.ltb_spec 0 m); try lia.
    + done.
    + f_equal. lia.
  - destruct (Z.ltb_spec 0 m); [|lia].
    replace (length (_messages self) + 1 - Z.to_nat m)%nat with 0%nat by lia.
    done.
Qed.

(** X25. What a [MessageHistory] holds after the messages [ms] were
    added to a new one: with [max_messages] [None] or 0, all of them
    (0 is falsy, so it does not mean "keep none"); with a positive
    [max_messages] m, the last m of them, in order; with a negative
    [max_messages], none at all, every [add] emptying the list.
    [get_messages] returns the system message, which truncation never
    drops, followed by these. *)
Theorem message_history_window
    (max_messages : option Z) (system : Message) (ms : list Message) :
  let h := foldl add (set_system_message (init max_messages) system) ms in
  get_messages h = system :: _messages h /\
  (max_messages = None \/ max_messages = Some 0 -> _messages h = ms) /\
  (forall m, max_messages = Some m -> 0 < m ->
     _messages h = drop (length ms - Z.to_nat m) ms /\
     Z.of_nat (len h) = Z.min (Z.of_nat (length ms)) m) /\
  (forall m, max_messages = Some m -> m < 0 -> _messages h = []).
Proof.
  intros h.
  destruct (adds_keep_settings ms (set_system_message (init max_messages) system))
    as [Hmax Hsys]. fold h in Hmax, Hsys. simpl in Hmax, Hsys.
  split; [by unfold get_messages; rewrite Hsys|].
  clear Hsys. unfold h. clear h Hmax.
  induction ms as [|x ms IH] using rev_ind.
  - simpl. split; [done|]. split; [|done].
    intros m _ Hm. split; [done|]. unfold len. simpl. lia.
  - rewrite foldl_app. simpl foldl.
    destruct (adds_keep_settings ms (set_system_message (init max_messages) system))
      as [Hmax _]. simpl in Hmax.
    set (h := foldl add (set_system_message (init max_messages) system) ms) in *.
    destruct IH as (Hall & Hpos & Hneg).
    unfold len in *. rewrite add_messages, Hmax.
    split; [|split].
    + intros [->| ->]; cbv beta iota; [|rewrite Z.eqb_refl];
        by rewrite Hall by auto.
    + intros m -> Hm. destruct (Hpos m eq_refl Hm) as [Hcur Hlen].
      cbv beta iota.
      destruct (Z.eqb_spec m 0); [lia|].
      destruct (Z.ltb_spec 0 m); [|lia].
      rewrite Hcur, length_drop.
      rewrite <- (drop_app_le ms [x]) by lia.
      rewrite drop_drop, length_drop, !length_app.
      change (length [x]) with 1%nat.
      split; [f_equal; lia|lia].
    + intros m -> Hm. rewrite (Hneg m eq_refl Hm).
      cbv beta iota.
      destruct (Z.eqb_spec m 0); [lia|].
      destruct (Z.ltb_spec 0 m); [lia|].
      apply drop_ge. simpl. lia.
Qed.

End MessageHistoryFacts.

Lemma message_history_window_witness :
  MessageHistory._messages
    (foldl MessageHistory.add
       (MessageHistory.set_system_message (MessageHistory.init (Some 2)) "system")
       ["first"; "second"; "third"])
  = ["second"; "third"].
Proof.
  destruct (message_history_window (Some 2) "system"
              ["first"; "second"; "third"]) as (_ & _ & Hpos & _).
  destruct (Hpos 2 eq_refl) as [Hlast _]; [lia|].
  exact Hlast.
Defined.

(* ================================================================== *)
(** ** The page text for the language model *)

Section PageTextFacts.
Context `{Py.Runtime}.
Import DOMSerializer.

Lemma string_app_assoc (a b c : string) : (a +:+ b) +:+ c = a +:+ b +:+ c.
Proof.
  induction a as [|x a IH]; [done|].
  change (String x ((a +:+ b) +:+ c) = String x (a +:+ b +:+ c)).
  by rewrite IH.
Qed.

Lemma join_cons sep p rest :
  rest <> [] -> Py.join sep (p :: rest) = p +:+ sep +:+ Py.join sep rest.
Proof. by destruct rest. Qed.

Lemma join_snoc sep l x :
  l <> [] -> Py.join sep (l ++ [x]) = Py.join sep l +:+ sep +:+ x.
Proof.
  induction l as [|p l IH]; [done|]. intros _.
  destruct l as [|q l]; [done|].
  change ((p :: q :: l) ++ [x])%list with (p :: ((q :: l) ++ [x]))%list.
  rewrite join_cons by (by destruct l).
  rewrite IH by done. rewrite (join_cons sep p (q :: l)) by done.
  by rewrite !string_app_assoc.
Qed.

Lemma join_snoc_length sep l x :
  (String.length x <= String.length (Py.join sep (l ++ [x])))%nat.
Proof.
  destruct l as [|p l]; [simpl; lia|].
  rewrite join_snoc by done. rewrite !string_length_app. lia.
Qed.

(** X26. [serialize_dom_for_llm] raises exactly what [serialize] raises on
    a fresh serializer. Otherwise its text is the statistics line, a body
    of at least 22 characters and then the element text of [serialize],
    one line feed between them: [max_length] bounds the element text only,
    and the returned text is at least 86 characters longer. The statistics
    line counts the links, the indexed nodes, the frames when there are
    any, and all nodes; it never mentions scroll containers. The [url] and
    [title] arguments play no part. *)
Theorem serialize_dom_for_llm_layout (dom_state : DOMState.t)
    (url title : string) (tabs : option (list (gmap string string)))
    (active_tab_id : string) (max_length : Z) :
  match serialize (init dom_state max_length None) with
  | inl ex =>
      serialize_dom_for_llm dom_state url title tabs active_tab_id max_length
      = inl ex
  | inr (out, _) =>
      let stats_line :=
        "<page_stats>"
        +:+ pretty (SerializedDOM.links_count out) +:+ " links, "
        +:+ pretty (SerializedDOM.interactive_elements out) +:+ " interactive, "
        +:+ (if 0 <? SerializedDOM.iframes_count out
             then pretty (SerializedDOM.iframes_count out) +:+ " iframes, "
             else "")
        +:+ pretty (SerializedDOM.total_elements out)
        +:+ " total elements</page_stats>" in
      exists body,
        serialize_dom_for_llm dom_state url title tabs active_tab_id max_length
        = inr (stats_line +:+ nl +:+ body +:+ nl
               +:+ SerializedDOM.llm_representation out) /\
        (22 <= String.length body)%nat /\
        (String.length (SerializedDOM.llm_representation out) + 86
         <= String.length
              (stats_line +:+ nl +:+ body +:+ nl
               +:+ SerializedDOM.llm_representation out))%nat
  end.
Proof.
  unfold serialize_dom_for_llm.
  destruct (serialize (init dom_state max_length None)) as [ex|[out ser]] eqn:Hser;
    [reflexivity|].
  destruct (serialize_stats _ _ _ Hser) as (-> & E1 & _ & E3 & E4 & E5).
  destruct (calculate_stats_counts (init dom_state max_length None))
    as (_ & _ & _ & _ & _ & C6).
  cbv zeta.
  set (ser := _calculate_stats (init dom_state max_length None)) in *.
  assert (Hhead : "<page_stats>" +:+ get_statistics_header ser +:+ "</page_stats>"
    = "<page_stats>"
        +:+ pretty (SerializedDOM.links_count out) +:+ " links, "
        +:+ pretty (SerializedDOM.interactive_elements out) +:+ " interactive, "
        +:+ (if 0 <? SerializedDOM.iframes_count out
             then pretty (SerializedDOM.iframes_count out) +:+ " iframes, "
             else "")
        +:+ pretty (SerializedDOM.total_elements out)
        +:+ " total elements</page_stats>").
  { unfold get_statistics_header. rewrite C6. simpl st_scroll_containers.
    rewrite E1, E3, E4, E5. change (0 <? 0) with false. cbv iota.
    destruct (0 <? st_iframes_count (stats ser)); simpl removelast; simpl Py.join;
      rewrite ?string_app_assoc; reflexivity. }
  rewrite Hhead. clear Hhead.
  match goal with |- context [?a :: nil] =>
    match a with context [" total elements</page_stats>"] => set (stats_line := a) end
  end.
  match goal with |- context [(?l ++ [?pi; ?ie; ?r])%list] =>
    set (lines := l); set (page_info := pi)
  end.
  assert (Hlines : exists mid, lines = stats_line :: mid).
  { subst lines.
    destruct (Py.str_truthy active_tab_id); destruct tabs as [ts|];
      try destruct (1 <? length ts)%nat; simpl; eauto. }
  destruct Hlines as [mid ->].
  exists (Py.join nl (mid ++ [page_info; nl +:+ "Interactive elements:"])).
  assert (Hbody : (22 <= String.length
    (Py.join nl (mid ++ [page_info; nl +:+ "Interactive elements:"])))%nat).
  { change [page_info; nl +:+ "Interactive elements:"]
      with ([page_info] ++ [nl +:+ "Interactive elements:"])%list.
    rewrite app_assoc.
    exact (join_snoc_length nl (mid ++ [page_info])
             (nl +:+ "Interactive elements:")). }
  split; [|split; [exact Hbody|]].
  - f_equal.
    change ((stats_line :: mid) ++ ?l)%list with (stats_line :: (mid ++ l))%list.
    rewrite join_cons by (by destruct mid).
    change [page_info; nl +:+ "Interactive elements:";
            SerializedDOM.llm_representation out]
      with ([page_info; nl +:+ "Interactive elements:"]
            ++ [SerializedDOM.llm_representation out])%list.
    rewrite app_assoc, join_snoc by (by destruct mid).
    reflexivity.
  - assert (Hstats : (62 <= String.length stats_line)%nat).
    { subst stats_line. rewrite !string_length_app.
      change (String.length "<page_stats>") with 12%nat.
      change (String.length " links, ") with 8%nat.
      change (String.length " interactive, ") with 14%nat.
      change (String.length " total elements</page_stats>") with 28%nat.
      lia. }
    rewrite !string_length_app. change (String.length nl) with 1%nat. lia.
Qed.

End PageTextFacts.

(* ================================================================== *)
(** ** The list of visible elements *)

Section VisibleElements.
Context `{Py.Runtime}.
Import DOMExtractor.

Lemma zseq_cons_inv start k x l :
  zseq start k = x :: l ->
  x = start /\ exists k', k = S k' /\ l = zseq (start + 1) k'.
Proof.
  destruct k as [|k]; [discriminate|].
  change (S k) with (1 + k)%nat. rewrite zseq_app.
  intros [= <- <-]. split; [lia|]. by exists k.
Qed.

Lemma filter_indexed_lookup (l : list DOMNode.t) : forall start k (j : nat),
  omap DOMNode.index l = zseq start k ->
  filter (fun n => DOMNode.index n <> None) l !! j =
  head (filter (fun n => DOMNode.index n = Some (start + Z.of_nat j)) l).
Proof.
  induction l as [|n l IH]; intros start k j Hidx; [done|].
  rewrite !filter_cons. simpl in Hidx.
  destruct (DOMNode.index n) as [x|] eqn:Hn.
  - symmetry in Hidx. apply zseq_cons_inv in Hidx as (-> & k' & -> & Hl).
    rewrite decide_True by done.
    destruct j as [|j].
    + rewrite decide_True by (f_equal; lia). done.
    + rewrite decide_False by (intros E; injection E; lia).
      simpl. rewrite (IH _ _ j Hl).
      replace (start + 1 + Z.of_nat j) with (start + Z.of_nat (S j)) by lia.
      done.
  - rewrite decide_False by (intros E; by apply E).
    rewrite decide_False by done. by eapply IH.
Qed.

Lemma filter_visible_indexed (l : list DOMNode.t) :
  Forall sound l ->
  filter (fun n => DOMNode.is_visible n = true /\ DOMNode.index n <> None) l =
  filter (fun n => DOMNode.index n <> None) l.
Proof.
  induction 1 as [|n l Hn _ IH]; [done|].
  rewrite !filter_cons, IH.
  destruct (decide (DOMNode.index n <> None)) as [Hi|Hi].
  - rewrite decide_True; [done|]. split; [|done]. by apply Hn.
  - rewrite decide_False; [done|]. tauto.
Qed.

Lemma length_filter_indexed (l : list DOMNode.t) :
  length (filter (fun n => DOMNode.index n <> None) l) =
  length (omap DOMNode.index l).
Proof.
  induction l as [|n l IH]; [done|].
  rewrite filter_cons. simpl. destruct (DOMNode.index n).
  - rewrite decide_True by done. simpl. by rewrite IH.
  - rewrite decide_False by (intros E; by apply E). exact IH.
Qed.

(** X27. After a pass of a fresh extractor over a tree with pairwise
    distinct node ids, [get_visible_elements] lists exactly the indexed
    nodes, in the order of their indices: the element at position [i - 1]
    is the node that [get_node_by_index] returns for [i], and the list has
    as many entries as indices were handed out. *)
Theorem visible_elements_in_index_order
    (sl : gmap Z SnapshotEntry) (al : gmap Z AxEntry) (root : option RawNode)
    (vw vh : Z) :
  NoDup (omap nodeId (match root with Some r => visit_order r | None => [] end)) ->
  let st := _build_dom_tree root sl al (init vw vh) in
  (forall i, 1 <= i ->
     Extract.get_visible_elements st !! Z.to_nat (i - 1) =
     Extract.get_node_by_index st i) /\
  Z.of_nat (length (Extract.get_visible_elements st)) = _interactive_index st - 1 /\
  Forall (fun n => DOMNode.is_interactive n = true)
    (Extract.get_visible_elements st).
Proof.
  intros Hnd st.
  destruct (walk_build_dom_tree sl al root (init vw vh))
    as [_ (k & Hidx & Hnext) Hsound _]. fold st in Hidx, Hnext, Hsound.
  simpl in Hidx, Hnext.
  assert (Hs : Forall sound (objects st)) by (apply Hsound; constructor).
  unfold Extract.get_visible_elements, Extract.get_node_by_index.
  unfold st. rewrite nodes_values_all by done. fold st.
  rewrite (filter_visible_indexed _ Hs).
  split; [|split].
  - intros i Hi. rewrite (filter_indexed_lookup _ 1 k _ Hidx).
    replace (1 + Z.of_nat (Z.to_nat (i - 1))) with i by lia. done.
  - rewrite length_filter_indexed, Hidx. unfold zseq.
    rewrite length_fmap, length_seq. lia.
  - apply Forall_forall. intros n Hn.
    apply list_elem_of_filter in Hn as [Hi Hn].
    rewrite Forall_forall in Hs. by apply (Hs n Hn).
Qed.

End VisibleElements.

Lemma visible_elements_in_index_order_witness :
  let st :=
    DOMExtractor._build_dom_tree (H := Fixtures.runtime)
      (Some Fixtures.two_buttons_page) Fixtures.two_buttons_layout ∅
      (DOMExtractor.init 1280 720) in
  Extract.get_visible_elements st !! Z.to_nat (2 - 1) =
  Extract.get_node_by_index st 2.
Proof.
  refine (proj1 (visible_elements_in_index_order (H := Fixtures.runtime)
                   Fixtures.two_buttons_layout ∅
                   (Some Fixtures.two_buttons_page) 1280 720 _) 2 _).
  - apply (bool_decide_unpack _). vm_compute. exact I.
  - lia.
Defined.

(* ================================================================== *)
(** ** Decoding the reply of the model *)

Section ParseFacts.
Context `{Py.Runtime}.

(** A field that [AgentOutput] takes as an optional string. *)
Definition text_field (v : option Py.JSON) : Prop :=
  match v with
  | None | Some Py.JNull | Some (Py.JStr _) => True
  | Some _ => False
  end.

Lemma opt_str_field_text v : text_field v -> is_Some (opt_str_field v).
Proof. destruct v as [[]|]; simpl; by eauto. Qed.

Lemma omap_objects_strings (l : list string) :
  omap (fun action : Py.JSON =>
          match action with Py.JDict entries => Some entries | _ => None end)
    (Py.JStr <$> l) = [].
Proof. induction l as [|s l IH]; [done|exact IH]. Qed.

(** X28. [_parse_response] raises nothing but [LLMResponseError]. When it
    returns, the reply was an object with a truthy, iterable [action]
    value, and the actions of the output are the objects among the items
    of that value, in order. In particular a reply whose [action] is a
    non-empty string or a non-empty object (an action that is not wrapped
    in a list) is accepted, with no action at all. *)
Theorem parse_response_outcomes (content : string) :
  (forall e, _parse_response content = inl e ->
     exists msg, e = LLMResponseError msg) /\
  (forall out, _parse_response content = inr out ->
     exists data actions items,
       Py.json_loads content = Some (Py.JDict data) /\
       Py.dict_get "action" data = Some actions /\
       Py.truthy actions = true /\
       Py.iterate actions = Some items /\
       (forall a, a ∈ AgentOutput.action out <-> Py.JDict a ∈ items)) /\
  (forall data actions,
     Py.json_loads content = Some (Py.JDict data) ->
     Py.dict_get "action" data = Some actions ->
     Py.truthy actions = true ->
     (exists s, actions = Py.JStr s) \/ (exists d, actions = Py.JDict d) ->
     Forall (fun key => text_field (Py.dict_get key data))
       ["thinking"; "evaluation_previous_goal"; "memory"; "next_goal"] ->
     exists out,
       _parse_response content = inr out /\ AgentOutput.action out = []).
Proof.
  unfold _parse_response. split; [|split].
  - intros e.
    destruct (Py.json_loads content) as [[| | | | |data]|];
      try (intros [= <-]; eauto; fail).
    destruct (negb _); [intros [= <-]; eauto|].
    destruct (Py.iterate _); [|intros [= <-]; eauto].
    repeat (match goal with |- context [opt_str_field ?v] =>
              destruct (opt_str_field v) end);
      first [discriminate|intros [= <-]; eauto].
  - intros out.
    destruct (Py.json_loads content) as [[| | | | |data]|]; try discriminate.
    destruct (Py.dict_get "action" data) as [actions|] eqn:Hact; simpl default;
      [|discriminate].
    destruct (Py.truthy actions) eqn:Htruthy; [|discriminate]. simpl negb. cbv iota.
    destruct (Py.iterate actions) as [items|] eqn:Hitems; [|discriminate].
    repeat (match goal with |- context [opt_str_field ?v] =>
              destruct (opt_str_field v) end); try discriminate.
    intros [= <-]. exists data, actions, items. repeat (split; [done|]).
    simpl. intros a. rewrite list_elem_of_omap. split.
    + intros (x & Hx & Ha). destruct x; try discriminate. by injection Ha as ->.
    + intros Ha. by exists (Py.JDict a).
  - intros data actions -> Hact Htruthy Hshape Hfields.
    rewrite Hact. simpl default. rewrite Htruthy. simpl negb. cbv iota.
    apply Forall_cons in Hfields as [H1 Hfields].
    apply Forall_cons in Hfields as [H2 Hfields].
    apply Forall_cons in Hfields as [H3 Hfields].
    apply Forall_cons in Hfields as [H4 _].
    destruct (opt_str_field_text _ H1) as [t1 ->].
    destruct (opt_str_field_text _ H2) as [t2 ->].
    destruct (opt_str_field_text _ H3) as [t3 ->].
    destruct (opt_str_field_text _ H4) as [t4 ->].
    destruct Hshape as [[s ->]|[d ->]]; simpl Py.iterate; cbv iota;
      eexists; (split; [reflexivity|]); simpl; apply omap_objects_strings.
Qed.

End ParseFacts.

(** A reply [{"action": "click"}]: the string is taken for a list of
    characters, none of which is an object. *)
Example unwrapped_action_is_accepted :
  let runtime :=
    {| Py.json_loads := fun _ => Some (Py.JDict [("action", Py.JStr "click")]);
       Py.json_dumps_sorted := Py.json_dumps_sorted (Runtime := Fixtures.runtime);
       Py.pyfloat := Q;
       Py.float_of_str := Py.float_of_str (Runtime := Fixtures.runtime);
       Py.float_le_zero := Py.float_le_zero (Runtime := Fixtures.runtime);
       Py.format_1f := Py.format_1f (Runtime := Fixtures.runtime) |} in
  _parse_response (H := runtime) "reply" =
  inr (AgentOutput.mk None None None None []).
Proof. reflexivity. Qed.
